(** * Batch OCR pipeline of docmd ([cli/anymd/scripts/batch-ocr.py])

    A shallow embedding of the batch script: the output-name mapping, the
    quality gate of the fast OCR engine, page extraction, the pipelined
    per-file page loop with its write-to-temp-then-rename protocol, and the
    batch orchestrator with its progress snapshots.

    Python values are modelled as follows.
    - [str] is a list of Unicode code points ([N]); [str.isalpha] and the
      white space stripped by [str.strip] are parameters of the development.
    - [int] is [Z]; list lengths and page indices are [nat].
    - the [float] ratio of the quality gate is an IEEE binary64 value of the
      standard library's [SpecFloat]; wall-clock readings are rationals [Q].
    - the output directory is a finite map from file names to contents.
    - exceptions are values of [exn]; effectful code lives in the monad
      [M A := World -> Res A * World], which keeps the effects performed
      before an exception was raised.
    - the PDF library, the two OCR engines and the clock are collaborators
      gathered in the record [Env]; each of their calls may raise.
    - [Path.resolve], whose result depends on the file system, is a
      collaborator as well; the samples run on a file system without
      symbolic links. *)

From Stdlib Require Import ZArith QArith Qround Lia Lqa List String Ascii Bool.
From Stdlib Require Import Floats.SpecFloat.
From stdpp Require Import base option list gmap.
Import ListNotations.

Local Open Scope Z_scope.

(** ** Python strings *)

Module PyStr.

Abbreviation pychar := N.
Abbreviation pystr := (list N).

(** An ASCII literal as a Python string. *)
Definition str (s : string) : pystr :=
  List.map N_of_ascii (list_ascii_of_string s).

Definition SLASH : pychar := 47%N.
Definition DOT : pychar := 46%N.
Definition DASH : pychar := 45%N.
Definition NEWLINE : pychar := 10%N.

(** [sum(1 for c in text if pred(c))] *)
Fixpoint count_if (pred : pychar -> bool) (text : pystr) : Z :=
  match text with
  | [] => 0
  | c :: rest => (if pred c then 1 else 0) + count_if pred rest
  end.

Fixpoint lstrip (isspace : pychar -> bool) (s : pystr) : pystr :=
  match s with
  | [] => []
  | c :: rest => if isspace c then lstrip isspace rest else s
  end.

(** [s.strip()] *)
Definition strip (isspace : pychar -> bool) (s : pystr) : pystr :=
  rev (lstrip isspace (rev (lstrip isspace s))).

(** [s.split(sep)] for a one-character separator: never returns the empty
    list. *)
Fixpoint split (sep : pychar) (s : pystr) : list pystr :=
  match s with
  | [] => [[]]
  | c :: rest =>
      if N.eqb c sep then [] :: split sep rest
      else match split sep rest with
           | [] => [[c]]
           | w :: ws => (c :: w) :: ws
           end
  end.

(** [sep.join(parts)] *)
Fixpoint join (sep : pystr) (parts : list pystr) : pystr :=
  match parts with
  | [] => []
  | [p] => p
  | p :: rest => p ++ sep ++ join sep rest
  end.

(** [s.replace(c, by)] for a one-character pattern. *)
Fixpoint replace (c : pychar) (by_ : pystr) (s : pystr) : pystr :=
  match s with
  | [] => []
  | x :: rest => (if N.eqb x c then by_ else [x]) ++ replace c by_ rest
  end.

(** [s.rfind(c)], [None] standing for -1. *)
Fixpoint rfind (c : pychar) (s : pystr) : option nat :=
  match s with
  | [] => None
  | x :: rest =>
      match rfind c rest with
      | Some i => Some (S i)
      | None => if N.eqb x c then Some 0%nat else None
      end
  end.

End PyStr.
Import PyStr.

(** ** Exceptions and results *)

(** The exceptions the modelled code meets; all are subclasses of Python's
    [Exception]. The number is the collaborator's error code or message. *)
Inductive exn : Type :=
  | ValueError
  | IndexError
  | PdfiumError (code : nat)
  | TesseractError (code : nat)
  | ModelError (code : nat)
  | FileNotFoundError
  | RuntimeError.

Inductive Res (A : Type) : Type :=
  | Ok (a : A)
  | Raise (e : exn).
Arguments Ok {A} a.
Arguments Raise {A} e.

Definition is_ok {A} (r : Res A) : bool :=
  match r with Ok _ => true | Raise _ => false end.

(** ** Command-line options: [_get_arg] *)

Module PyList.

(** [l.index(x)]: the first position of [x]; [ValueError] when there is
    none. *)
Fixpoint index (x : pystr) (l : list pystr) : Res nat :=
  match l with
  | [] => Raise ValueError
  | y :: rest =>
      if decide (y = x) then Ok 0%nat
      else match index x rest with
           | Ok i => Ok (S i)
           | Raise e => Raise e
           end
  end.

(** [l[i]] for [i >= 0] *)
Definition getitem (l : list pystr) (i : nat) : Res pystr :=
  match l !! i with
  | Some v => Ok v
  | None => Raise IndexError
  end.

End PyList.

(** [argv] is [sys.argv]. The handler catches [ValueError] and
    [IndexError]; any other exception would pass. *)
Definition _get_arg (argv : list pystr) (flag default : pystr) : Res pystr :=
  let body :=
    match PyList.index flag argv with
    | Ok idx => PyList.getitem argv (idx + 1)
    | Raise e => Raise e
    end in
  match body with
  | Ok v => Ok v
  | Raise ValueError | Raise IndexError => Ok default
  | Raise e => Raise e
  end.

(** ** pathlib *)

Module Pathlib.

(** A parsed POSIX path: whether it is absolute, and its components
    ([PurePath.parts] without the root). *)
Record Path := { anchored : bool; parts : list pystr }.

Definition nonempty (s : pystr) : bool :=
  match s with [] => false | _ => true end.

Definition is_dot (s : pystr) : bool :=
  match s with [c] => N.eqb c DOT | _ => false end.

Definition is_dotdot (s : pystr) : bool :=
  match s with [c; d] => N.eqb c DOT && N.eqb d DOT | _ => false end.

(** [Path(s)]: empty components and [.] components are dropped, [..] is
    kept. *)
Definition parse (s : pystr) : Path :=
  {| anchored := match s with c :: _ => N.eqb c SLASH | [] => false end;
     parts := List.filter (fun c => nonempty c && negb (is_dot c)) (split SLASH s) |}.

(** [PurePath.name] *)
Definition name (ps : list pystr) : pystr := List.last ps [].

(** [PurePath.suffix]: [name[i:]] when [0 < i < len(name) - 1] for
    [i = name.rfind('.')], and the empty string otherwise. The result here
    is the index [i] at which the suffix starts. *)
Definition suffix_start (nm : pystr) : option nat :=
  match rfind DOT nm with
  | Some i => if (0 <? i)%nat && (i <? length nm - 1)%nat then Some i else None
  | None => None
  end.

(** [PurePath.stem] *)
Definition stem_of_name (nm : pystr) : pystr :=
  match suffix_start nm with
  | Some i => firstn i nm
  | None => nm
  end.

Definition stem (p : Path) : pystr := stem_of_name (name (parts p)).

(** [PurePath.with_suffix('')]: raises [ValueError] on an empty name. *)
Definition with_suffix_empty (ps : list pystr) : Res (list pystr) :=
  match name ps with
  | [] => Raise ValueError
  | nm => Ok (removelast ps ++ [stem_of_name nm])
  end.

(** Collapsing [..] components, as [Path.resolve] does where no component
    is a symbolic link; [..] at the root stays at the root. *)
Fixpoint collapse (acc : list pystr) (ps : list pystr) : list pystr :=
  match ps with
  | [] => acc
  | c :: rest =>
      if is_dotdot c then collapse (removelast acc) rest
      else collapse (acc ++ [c]) rest
  end.

(** A component with an embedded null character. *)
Definition has_nul (c : pystr) : bool := existsb (N.eqb 0) c.

(** [Path.resolve()] on a file system without symbolic links, from the
    working directory [cwd] (already resolved). The components are looked
    up one by one, and the look-up of a name with an embedded null character
    raises [ValueError]. *)
Definition resolve (cwd : list pystr) (p : Path) : Res (list pystr) :=
  if existsb has_nul (parts p) then Raise ValueError
  else Ok (if anchored p then collapse [] (parts p) else collapse cwd (parts p)).

Fixpoint strip_prefix (pre ps : list pystr) : option (list pystr) :=
  match pre, ps with
  | [], _ => Some ps
  | a :: pre', b :: ps' =>
      if decide (a = b) then strip_prefix pre' ps' else None
  | _ :: _, [] => None
  end.

(** [PurePath.relative_to(base)]: raises [ValueError] unless [base] is a
    prefix. *)
Definition relative_to (base ps : list pystr) : Res (list pystr) :=
  match strip_prefix base ps with
  | Some r => Ok r
  | None => Raise ValueError
  end.

(** [str(path)] of a relative path. *)
Definition to_str (ps : list pystr) : pystr :=
  match ps with
  | [] => [DOT]
  | _ => join [SLASH] ps
  end.

End Pathlib.

(** ** Output names: [_to_output_name] *)

Section OutputName.

(** [Path.resolve()], a collaborator: its result depends on the working
    directory and on the symbolic links of the file system, and it raises
    [ValueError] for a name with an embedded null character and
    [RuntimeError] at a loop of symbolic links. [Pathlib.resolve cwd] is the
    one of a file system without links. *)
Variable resolve : Pathlib.Path -> Res (list pystr).

(** [DATA_DIR], the resolved data root. *)
Variable DATA_DIR : list pystr.

(** [Path(pdf_path).resolve().relative_to(DATA_DIR)] *)
Definition resolved_relative (pdf_path : pystr) : Res (list pystr) :=
  match resolve (Pathlib.parse pdf_path) with
  | Ok ps => Pathlib.relative_to DATA_DIR ps
  | Raise e => Raise e
  end.

(** The [try] covers [resolve] and [relative_to] only, and its handler
    catches [ValueError] only: another exception of [resolve] passes, and
    the [ValueError] that [with_suffix] raises on an empty relative path
    escapes. *)
Definition _to_output_name (pdf_path : pystr) : Res pystr :=
  match resolved_relative pdf_path with
  | Raise ValueError => Ok (Pathlib.stem (Pathlib.parse pdf_path))
  | Raise e => Raise e
  | Ok rel =>
      match Pathlib.with_suffix_empty rel with
      | Raise e => Raise e
      | Ok rel' => Ok (replace SLASH [DASH; DASH] (Pathlib.to_str rel'))
      end
  end.

End OutputName.

(** ** Cropping the margins of a rendered page: [_crop_margins] *)

Definition CROP_PADDING : Z := 20.

Section CropMargins.

Context {Image : Type}.

(** [img.size], as width and height. *)
Variable size : Image -> Z * Z.

(** The bounding box [(left, upper, right, lower)] of the pixels whose
    grey-level difference from white exceeds [CROP_THRESHOLD], if there are
    any: [gray.point(...).getbbox()] for the grey-scale difference [gray] of
    [img] and a white image of the same size. *)
Variable content_bbox : Image -> option (Z * Z * Z * Z).

(** [img.crop(box)] *)
Variable crop : Image -> Z * Z * Z * Z -> Image.

Definition _crop_margins (img : Image) : Image :=
  match content_bbox img with
  | None => img
  | Some (b0, b1, b2, b3) =>
      let x0 := Z.max 0 (b0 - CROP_PADDING) in
      let y0 := Z.max 0 (b1 - CROP_PADDING) in
      let x1 := Z.min (fst (size img)) (b2 + CROP_PADDING) in
      let y1 := Z.min (snd (size img)) (b3 + CROP_PADDING) in
      crop img (x0, y0, x1, y1)
  end.

End CropMargins.

(** ** The quality gate of the fast engine: [_tesseract_quality_ok] *)

(** Code points of the two string literals of [DIACRITICS], in source
    order: lower case, then upper case. *)
Definition DIACRITICS : list pychar :=
  [224; 225; 7843; 227; 7841; 259; 7855; 7857; 7859; 7861; 7863; 226; 7845;
   7847; 7849; 7851; 7853; 232; 233; 7867; 7869; 7865; 234; 7871; 7873; 7875;
   7877; 7879; 236; 237; 7881; 297; 7883; 242; 243; 7887; 245; 7885; 244;
   7889; 7891; 7893; 7895; 7897; 417; 7899; 7901; 7903; 7905; 7907; 249; 250;
   7911; 361; 7909; 432; 7913; 7915; 7917; 7919; 7921; 7923; 253; 7927; 7929;
   7925; 273;
   192; 193; 7842; 195; 7840; 258; 7854; 7856; 7858; 7860; 7862; 194; 7844;
   7846; 7848; 7850; 7852; 200; 201; 7866; 7868; 7864; 202; 7870; 7872; 7874;
   7876; 7878; 204; 205; 7880; 296; 7882; 210; 211; 7886; 213; 7884; 212;
   7888; 7890; 7892; 7894; 7896; 416; 7898; 7900; 7902; 7904; 7906; 217; 218;
   7910; 360; 7908; 431; 7912; 7914; 7916; 7918; 7920; 7922; 221; 7926; 7928;
   7924; 272]%N.

(** [ch in DIACRITICS] *)
Definition in_diacritics (ch : pychar) : bool :=
  existsb (N.eqb ch) DIACRITICS.

Definition MIN_CHARS_FOR_PAGE : Z := 50.
Definition NATIVE_TEXT_THRESHOLD : Z := 50.

(** Python floats are IEEE binary64 numbers. *)
Module Float.

Definition prec : Z := 53.
Definition emax : Z := 1024.

(** [float(n)], rounded to nearest even. *)
Definition of_int (n : Z) : spec_float := binary_normalize prec emax n 0 false.

(** [a / b] on integers. CPython's true division is correctly rounded;
    for operands below [2^53] it is the IEEE quotient of the exactly
    converted operands. The callers never divide by zero. *)
Definition truediv (a b : Z) : spec_float :=
  SFdiv prec emax (of_int a) (of_int b).

(** [x >= y] *)
Definition ge (x y : spec_float) : bool := SFleb y x.

(** The literal [0.15], that is [0x1.3333333333333p-3]. *)
Definition lit_0_15 : spec_float := S754_finite false 5404319552844595 (-55).

End Float.

Definition MIN_DIACRITICS_RATIO : spec_float := Float.lit_0_15.

Section QualityGate.

(** [str.isalpha] on one character. *)
Variable isalpha : pychar -> bool.

Definition alpha_count (text : pystr) : Z := count_if isalpha text.
Definition diacritics_count (text : pystr) : Z := count_if in_diacritics text.

Definition _tesseract_quality_ok (text : pystr) : bool :=
  if alpha_count text <? MIN_CHARS_FOR_PAGE then false
  else Float.ge (Float.truediv (diacritics_count text) (alpha_count text))
                MIN_DIACRITICS_RATIO.

End QualityGate.

(** ** Progress snapshots: [Progress], [_format_duration], [_save_progress] *)

(** [f'{h}h{m:02d}m'] or [f'{m}m{s:02d}s']. *)
Inductive Duration : Type :=
  | DurHM (h m : Z)
  | DurMS (m s : Z).

(** [current_page]: ['-'] or [f'{i}/{n}']. *)
Inductive PageRef : Type :=
  | PageDash
  | PageOf (i n : Z).

(** One entry of [recent_files]: the dict with keys [name], [pages],
    [duration] and [per_page]. *)
Record RecentFile := {
  rf_name : pystr;
  rf_pages : Z;
  rf_duration : Q;
  rf_per_page : Q;
}.

Record Progress := {
  p_done : Z;
  p_total : Z;
  p_errors : Z;
  p_current_file : pystr;
  p_current_page : PageRef;
  p_current_pages_total : Z;
  p_current_file_started : Q;
  p_elapsed : Q;
  p_avg_per_file : Q;
  p_recent_files : list RecentFile;
}.

(** The dict serialised to the status file. The [updated] time stamp, a
    formatted wall-clock string, is left out. *)
Record Snapshot := {
  sn_done : Z;
  sn_total : Z;
  sn_errors : Z;
  sn_pct : Q;
  sn_current_file : pystr;
  sn_current_page : PageRef;
  sn_current_pages_total : Z;
  sn_current_file_started : Q;
  sn_elapsed : Duration;
  sn_avg_per_file : Z;
  sn_eta : Duration;
  sn_eta_hours : Q;
  sn_recent_files : list RecentFile;
}.

Module Num.

Local Open Scope Q_scope.

(** [x // n] on floats, as an integer. *)
Definition floordiv (x n : Q) : Z := Qfloor (x / n).

(** [x % n] for a positive [n]. *)
Definition pymod (x n : Q) : Q := x - n * inject_Z (floordiv x n).

(** Rounding to the nearest integer, ties to even: [f'{x:.0f}']. *)
Definition round0 (x : Q) : Z :=
  let f := Qfloor x in
  match Qcompare (x - inject_Z f) (1 # 2) with
  | Lt => f
  | Gt => (f + 1)%Z
  | Eq => if Z.even f then f else (f + 1)%Z
  end.

(** [round(x, 1)], on the exact number: a tie goes to the even digit,
    where [round] on a binary64 number goes by the number's exact value. *)
Definition round1 (x : Q) : Q := inject_Z (round0 (x * 10)) / 10.

(** [sum(l) / len(l)] *)
Definition mean (l : list Q) : Q :=
  fold_right Qplus 0 l / inject_Z (Z.of_nat (length l)).

End Num.

(** The computation on the exact number. For binary64 numbers from 0 to
    2^53 the [//] and [%] by 3600 and by 60 are exact, and the result is the
    same. *)
Definition _format_duration (seconds : Q) : Duration :=
  let h := Num.floordiv seconds 3600 in
  let m := Num.floordiv (Num.pymod seconds 3600) 60 in
  if 0 <? h then DurHM h m
  else DurMS m (Qfloor (Num.pymod seconds 60)).

(** [l[-n:]] for [n > 0]. *)
Definition last_n {A} (n : nat) (l : list A) : list A :=
  skipn (length l - n) l.

(** The dict that [_save_progress] builds. *)
Definition snapshot_of (p : Progress) : Snapshot :=
  let remaining := p_total p - p_done p in
  let eta_seconds :=
    if Qlt_le_dec 0 (p_avg_per_file p)
    then (inject_Z remaining * p_avg_per_file p)%Q else 0%Q in
  {| sn_done := p_done p;
     sn_total := p_total p;
     sn_errors := p_errors p;
     sn_pct := Num.round1 (inject_Z (p_done p) / inject_Z (Z.max (p_total p) 1) * 100)%Q;
     sn_current_file := p_current_file p;
     sn_current_page := p_current_page p;
     sn_current_pages_total := p_current_pages_total p;
     sn_current_file_started := p_current_file_started p;
     sn_elapsed := _format_duration (p_elapsed p);
     sn_avg_per_file := Num.round0 (p_avg_per_file p);
     sn_eta := _format_duration eta_seconds;
     sn_eta_hours := Num.round1 (eta_seconds / 3600)%Q;
     sn_recent_files := last_n 10 (p_recent_files p) |}.

(** ** Log lines *)

Inductive Tag : Type := tess | vlm | txt.

(** The messages passed to [_log], with the values they interpolate. *)
Inductive LogMsg : Type :=
  | LogBatchStart
  | LogBatchEnd
  | LogTotal (total done_count pending_len : Z)
  | LogNothing
  | LogHybrid
  | LogLoading
  | LogLoaded (seconds : Q)
  | LogFile (idx pending_len position total : Z) (display_name : pystr) (num_pages : Z)
  | LogPage (page num_pages : Z) (tag : Tag) (seconds : Q) (chars : Z)
  | LogFileDone (elapsed per_page avg : Q)
  | LogError (display_name : pystr) (err : exn)
  | LogComplete (done_count errors : Z) (total_time : Duration)
  | LogEngineStats (n_tess n_vlm n_txt : Z).

Record PageCounts := { c_tess : Z; c_vlm : Z; c_txt : Z }.

(** ** The world: collaborators, state, events *)

Section Pipeline.

Variable isalpha : pychar -> bool.
Variable isspace : pychar -> bool.
Variable resolve : Pathlib.Path -> Res (list pystr).
Variable DATA_DIR : list pystr.

(** Raster images, and the objects that [mlx_vlm] hands out. *)
Context {Image Obj : Type}.

(** A page of an opened document: the result of
    [get_textpage().get_text_range()], and of the rendering tail of
    [_render_page] (flatten, reload, render, convert, crop margins). *)
Record Page := {
  page_text : Res pystr;
  page_image : Res Image;
}.

Record Doc := {
  doc_init_forms : Res unit;
  doc_pages : list Page;
}.

Record Env := {
  (** [json.load] of the classification file: the [scanned] and [mixed]
      lists of [data['files']]. *)
  classification : Res (list pystr * list pystr);
  (** [pdfium.PdfDocument(pdf)] *)
  pdf_document : pystr -> Res Doc;
  (** [pytesseract.image_to_string(image, lang='vie')] *)
  image_to_string : Image -> Res pystr;
  (** The n-th call of [load(MODEL_ID)]. *)
  mlx_load : nat -> Res (Obj * Obj);
  (** [load_config] and [apply_chat_template]. *)
  mlx_chat_template : Obj -> Res pystr;
  (** [generate(model, processor, prompt, image, ...).text] *)
  mlx_generate : option Obj -> option Obj -> pystr -> Image -> Res pystr;
  (** The n-th reading of [time.time()]. *)
  time_time : nat -> Q;
  (** Whether the background worker runs the extraction of a page as soon
      as it is submitted, or only when its result is awaited. *)
  worker_eager : nat -> bool;
}.

Record ChandraState := {
  model : option Obj;
  processor : option Obj;
  formatted_prompt : pystr;
  loaded : bool;
}.

(** [ChandraState()] *)
Definition ChandraState_new : ChandraState :=
  {| model := None; processor := None; formatted_prompt := []; loaded := false |}.

(** What the program does to the outside, in order. *)
Inductive Event : Type :=
  | EvLog (m : LogMsg)
  | EvStatus (s : Snapshot)
  | EvGc
  | EvOpenDoc (pdf : pystr)
  | EvCloseDoc
  | EvSubmit (page_idx : nat)
  | EvGetText (page_idx : nat)
  | EvRender (page_idx : nat)
  | EvTesseract (image : Image)
  | EvLoad (attempt : nat)
  | EvGenerate (image : Image)
  | EvShutdown
  | EvFsOpenW (path : pystr)
  | EvFsWrite (path : pystr) (data : pystr)
  | EvFsRename (src dst : pystr)
  | EvFsUnlink (path : pystr).

Record World := {
  (** The files of [OUTPUT_BASE], by name. *)
  fs : gmap pystr pystr;
  (** The content of [STATUS_FILE]. *)
  status_file : option Snapshot;
  (** The [ChandraState] and [PageCounts] objects of the running batch. *)
  chandra : ChandraState;
  counts : PageCounts;
  trace : list Event;
  (** How often the clock was read and the model load was tried. *)
  clock : nat;
  loads : nat;
}.

Definition set_fs (f : gmap pystr pystr -> gmap pystr pystr) (w : World) : World :=
  {| fs := f (fs w); status_file := status_file w; chandra := chandra w;
     counts := counts w; trace := trace w; clock := clock w; loads := loads w |}.
Definition set_status (s : Snapshot) (w : World) : World :=
  {| fs := fs w; status_file := Some s; chandra := chandra w;
     counts := counts w; trace := trace w; clock := clock w; loads := loads w |}.
Definition set_chandra (f : ChandraState -> ChandraState) (w : World) : World :=
  {| fs := fs w; status_file := status_file w; chandra := f (chandra w);
     counts := counts w; trace := trace w; clock := clock w; loads := loads w |}.
Definition set_counts (f : PageCounts -> PageCounts) (w : World) : World :=
  {| fs := fs w; status_file := status_file w; chandra := chandra w;
     counts := f (counts w); trace := trace w; clock := clock w; loads := loads w |}.
Definition add_event (e : Event) (w : World) : World :=
  {| fs := fs w; status_file := status_file w; chandra := chandra w;
     counts := counts w; trace := trace w ++ [e]; clock := clock w; loads := loads w |}.
Definition tick_clock (w : World) : World :=
  {| fs := fs w; status_file := status_file w; chandra := chandra w;
     counts := counts w; trace := trace w; clock := S (clock w); loads := loads w |}.
Definition tick_loads (w : World) : World :=
  {| fs := fs w; status_file := status_file w; chandra := chandra w;
     counts := counts w; trace := trace w; clock := clock w; loads := S (loads w) |}.

(** *** The monad of effectful code *)

Definition M (A : Type) : Type := World -> Res A * World.

Definition ret {A} (a : A) : M A := fun w => (Ok a, w).

Definition bind {A B} (k : A -> M B) (m : M A) : M B :=
  fun w => match m w with
           | (Ok a, w') => k a w'
           | (Raise e, w') => (Raise e, w')
           end.

#[local] Instance M_ret : MRet M := @ret.
#[local] Instance M_bind : MBind M := @bind.

(** [raise e] *)
Definition raise {A} (e : exn) : M A := fun w => (Raise e, w).

(** The outcome of a collaborator's call. *)
Definition lift {A} (r : Res A) : M A := fun w => (r, w).

Definition modify (f : World -> World) : M unit := fun w => (Ok tt, f w).

Definition gets {A} (g : World -> A) : M A := fun w => (Ok (g w), w).

(** Running a task to its end and keeping its outcome, as a future
    does. *)
Definition attempt {A} (m : M A) : M (Res A) :=
  fun w => let (r, w') := m w in (Ok r, w').

Definition emit (e : Event) : M unit := modify (add_event e).

(** [try: body except Exception as e: handler(e)] *)
Definition try_except {A} (body : M A) (handler : exn -> M A) : M A :=
  fun w => match body w with
           | (Ok a, w') => (Ok a, w')
           | (Raise e, w') => handler e w'
           end.

(** [try: body finally: final] *)
Definition try_finally {A} (body : M A) (final : M unit) : M A :=
  fun w => let (r, w') := body w in
           match final w' with
           | (Ok _, w'') => (r, w'')
           | (Raise e, w'') => (Raise e, w'')
           end.

Variable env : Env.

(** [time.time()] *)
Definition time_now : M Q :=
  n ← gets clock;
  modify tick_clock;;
  ret (time_time env n).

Definition _log (msg : LogMsg) : M unit := emit (EvLog msg).

Definition _save_progress (p : Progress) : M unit :=
  let s := snapshot_of p in
  emit (EvStatus s);; modify (set_status s).

Definition _free_memory : M unit := emit EvGc.

(** *** The output directory

    An operation on the directory fails only where a file is missing. The
    other errors of the operating system (a full disk, a name that is too
    long, a missing permission) are not part of the model, nor are errors
    of writing the log and the status artifact. *)

Definition fs_exists (path : pystr) : M bool :=
  gets (fun w => bool_decide (is_Some (fs w !! path))).

(** [path.open('w')] creates or truncates the file. *)
Definition fs_open_w (path : pystr) : M unit :=
  emit (EvFsOpenW path);; modify (set_fs (insert path [])).

(** [out.write(data); out.flush()] on the handle opened at [path]. *)
Definition fs_write (path data : pystr) : M unit :=
  emit (EvFsWrite path data);; modify (set_fs (alter (fun old => old ++ data) path)).

(** [src.rename(dst)] replaces [dst]. *)
Definition fs_rename (src dst : pystr) : M unit :=
  emit (EvFsRename src dst);;
  found ← gets (fun w => fs w !! src);
  match found : option pystr with
  | Some content => modify (set_fs (fun m => <[dst := content]> (delete src m)))
  | None => raise FileNotFoundError
  end.

(** [path.unlink()] *)
Definition fs_unlink (path : pystr) : M unit :=
  emit (EvFsUnlink path);;
  found ← gets (fun w => fs w !! path);
  match found : option pystr with
  | Some _ => modify (set_fs (delete path))
  | None => raise FileNotFoundError
  end.

(** *** The two OCR engines *)

Definition _tesseract_ocr (image : Image) : M pystr :=
  emit (EvTesseract image);; lift (image_to_string env image).

Definition _chandra_ocr (mdl prc : option Obj) (prompt : pystr) (image : Image)
  : M pystr :=
  emit (EvGenerate image);; lift (mlx_generate env mdl prc prompt image).

Definition get_chandra : M ChandraState := gets chandra.

(** [load(MODEL_ID)] *)
Definition mlx_load_call : M (Obj * Obj) :=
  n ← gets loads;
  emit (EvLoad n);;
  modify tick_loads;;
  lift (mlx_load env n).

(** The fields of the state are assigned one by one: a call that raises
    half-way leaves [loaded] false. The two pixel bounds set on the image
    processor are part of the processor object and not modelled. *)
Definition _load_chandra : M unit :=
  state ← get_chandra;
  if loaded state then ret tt
  else
    _log LogLoading;;
    t0 ← time_now;
    '(mdl, prc) ← mlx_load_call;
    modify (set_chandra (fun c =>
      {| model := Some mdl; processor := Some prc;
         formatted_prompt := formatted_prompt c; loaded := loaded c |}));;
    prompt ← lift (mlx_chat_template env prc);
    modify (set_chandra (fun c =>
      {| model := model c; processor := processor c;
         formatted_prompt := prompt; loaded := true |}));;
    t1 ← time_now;
    _log (LogLoaded (t1 - t0)).

(** *** Page extraction: [_render_page] *)

(** [doc[page_idx]] *)
Definition doc_getitem (doc : Doc) (page_idx : nat) : Res Page :=
  match doc_pages doc !! page_idx with
  | Some page => Ok page
  | None => Raise IndexError
  end.

Definition _render_page (doc : Doc) (page_idx : nat) : M (option Image * pystr) :=
  page_obj ← lift (doc_getitem doc page_idx);
  emit (EvGetText page_idx);;
  text ← lift (page_text page_obj);
  let alpha_count := alpha_count isalpha text in
  if NATIVE_TEXT_THRESHOLD <=? alpha_count then ret (None, strip isspace text)
  else
    emit (EvRender page_idx);;
    pil_image ← lift (page_image page_obj);
    ret (Some pil_image, []).

(** The outcome of [_render_page], which does not depend on the world. *)
Definition extract (doc : Doc) (page_idx : nat) : Res (option Image * pystr) :=
  match doc_getitem doc page_idx with
  | Raise e => Raise e
  | Ok page_obj =>
      match page_text page_obj with
      | Raise e => Raise e
      | Ok text =>
          if NATIVE_TEXT_THRESHOLD <=? alpha_count isalpha text
          then Ok (None, strip isspace text)
          else match page_image page_obj with
               | Raise e => Raise e
               | Ok pil_image => Ok (Some pil_image, [])
               end
      end
  end.

(** *** The one-slot background worker *)

(** A future of the executor: its task has run and left a result or an
    exception, or it has not run yet. *)
Inductive Future : Type :=
  | FutDone (r : Res (option Image * pystr))
  | FutPending (doc : Doc) (page_idx : nat).

(** [executor.submit(_render_page, doc, page_idx)]: an exception of the
    task is kept in the future. *)
Definition submit (doc : Doc) (page_idx : nat) : M Future :=
  emit (EvSubmit page_idx);;
  if worker_eager env page_idx
  then r ← attempt (_render_page doc page_idx); ret (FutDone r)
  else ret (FutPending doc page_idx).

(** [future.result()] *)
Definition future_result (f : Future) : M (option Image * pystr) :=
  match f with
  | FutDone r => lift r
  | FutPending doc page_idx => _render_page doc page_idx
  end.

(** *** The file processor: [_ocr_one_file] *)

Definition incr_tess (c : PageCounts) : PageCounts :=
  {| c_tess := c_tess c + 1; c_vlm := c_vlm c; c_txt := c_txt c |}.
Definition incr_vlm (c : PageCounts) : PageCounts :=
  {| c_tess := c_tess c; c_vlm := c_vlm c + 1; c_txt := c_txt c |}.
Definition incr_txt (c : PageCounts) : PageCounts :=
  {| c_tess := c_tess c; c_vlm := c_vlm c; c_txt := c_txt c + 1 |}.

Definition len (s : pystr) : Z := Z.of_nat (length s).

(** The branch [if image is not None] of the page loop. *)
Definition ocr_image (image : Image) : M (pystr * Tag) :=
  tess_text ← _tesseract_ocr image;
  if _tesseract_quality_ok isalpha tess_text then
    modify (set_counts incr_tess);;
    ret (tess_text, tess)
  else
    _load_chandra;;
    state ← get_chandra;
    md ← _chandra_ocr (model state) (processor state) (formatted_prompt state) image;
    modify (set_counts incr_vlm);;
    ret (md, vlm).

(** The text and tag of an extracted page. *)
Definition ocr_page (unit_ : option Image * pystr) : M (pystr * Tag) :=
  match unit_ with
  | (Some image, _) => ocr_image image
  | (None, native_text) => modify (set_counts incr_txt);; ret (native_text, txt)
  end.

(** Processing without the worker, as a reference: every page is
    extracted and then sent through the engines, one page after the other
    in ascending order. The result is the list of the pages' texts. *)
Fixpoint sequential_pages (doc : Doc) (page_idxs : list nat) : M (list pystr) :=
  match page_idxs with
  | [] => ret []
  | p_idx :: rest =>
      unit_ ← _render_page doc p_idx;
      '(md, _) ← ocr_page unit_;
      mds ← sequential_pages doc rest;
      ret (md :: mds)
  end.

Section OneFile.

Variable doc : Doc.
Variable tmp_path display_name : pystr.
Variable done_count idx total errors : Z.
Variable file_start avg pipeline_start : Q.
Variable recent_files : list RecentFile.

Definition num_pages : nat := length (doc_pages doc).

(** [for p_idx in range(num_pages)], entered with [remaining] pages to
    go. *)
Fixpoint page_loop (remaining p_idx : nat) (next_future : Future) : M unit :=
  match remaining with
  | O => ret tt
  | S remaining' =>
      now ← time_now;
      _save_progress
        {| p_done := done_count + idx - 1;
           p_total := total;
           p_errors := errors;
           p_current_file := display_name;
           p_current_page := PageOf (Z.of_nat p_idx + 1) (Z.of_nat num_pages);
           p_current_pages_total := Z.of_nat num_pages;
           p_current_file_started := file_start;
           p_elapsed := (now - pipeline_start)%Q;
           p_avg_per_file := avg;
           p_recent_files := recent_files |};;
      page_t ← time_now;
      unit_ ← future_result next_future;
      next_future' ← (if (p_idx + 1 <? num_pages)%nat
                       then submit doc (p_idx + 1)
                       else ret next_future);
      '(md, tag) ← ocr_page unit_;
      (if (0 <? p_idx)%nat then fs_write tmp_path [NEWLINE; NEWLINE] else ret tt);;
      fs_write tmp_path md;;
      t ← time_now;
      _log (LogPage (Z.of_nat p_idx + 1) (Z.of_nat num_pages) tag (t - page_t)%Q (len md));;
      (if (p_idx mod 10 =? 9)%nat then _free_memory else ret tt);;
      page_loop remaining' (S p_idx) next_future'
  end.

End OneFile.

(** [for p in [tmp_path, md_path]: if p.exists(): p.unlink()] *)
Definition unlink_if_exists (path : pystr) : M unit :=
  present ← fs_exists path;
  if (present : bool) then fs_unlink path else ret tt.

Definition md_name (unique_name : pystr) : pystr := unique_name ++ str ".md".
Definition tmp_name (unique_name : pystr) : pystr := unique_name ++ str ".md.tmp".

Definition display_name_of (pdf : pystr) : pystr := Pathlib.stem (Pathlib.parse pdf).

(** The statements of the [try] block of [_ocr_one_file]. *)
Definition file_body (doc : Doc) (unique_name display_name : pystr)
    (done_count idx pending_len total errors : Z)
    (file_start avg pipeline_start : Q) (recent_files : list RecentFile) : M Z :=
  let md_path := md_name unique_name in
  let tmp_path := tmp_name unique_name in
  lift (doc_init_forms doc);;
  let num_pages := num_pages doc in
  _log (LogFile idx pending_len (done_count + idx) total display_name
          (Z.of_nat num_pages));;
  fs_open_w tmp_path;;
  next_future ← submit doc 0;
  page_loop doc tmp_path display_name done_count idx total errors
    file_start avg pipeline_start recent_files num_pages 0 next_future;;
  emit EvShutdown;;
  fs_rename tmp_path md_path;;
  _free_memory;;
  ret (Z.of_nat num_pages).

(** Its [except Exception] handler. *)
Definition file_cleanup (unique_name : pystr) (e : exn) : M Z :=
  unlink_if_exists (tmp_name unique_name);;
  unlink_if_exists (md_name unique_name);;
  raise e.

(** The document is opened before the [try]; [finally] closes it. *)
Definition _ocr_one_file (pdf : pystr) (done_count idx pending_len total errors : Z)
    (avg pipeline_start : Q) (recent_files : list RecentFile) : M Z :=
  unique_name ← lift (_to_output_name resolve DATA_DIR pdf);
  let display_name := display_name_of pdf in
  file_start ← time_now;
  emit (EvOpenDoc pdf);;
  doc ← lift (pdf_document env pdf);
  try_finally
    (try_except
       (file_body doc unique_name display_name done_count idx pending_len total
          errors file_start avg pipeline_start recent_files)
       (file_cleanup unique_name))
    (emit EvCloseDoc).

(** *** The batch orchestrator: [_run_ocr] *)

(** The first loop of [_run_ocr]: counting the files that are done and
    collecting the others. *)
Fixpoint partition_files (files : list pystr) (done_count : Z) (pending : list pystr)
  : M (Z * list pystr) :=
  match files with
  | [] => ret (done_count, pending)
  | pdf :: rest =>
      unique_name ← lift (_to_output_name resolve DATA_DIR pdf);
      present ← fs_exists (md_name unique_name);
      if (present : bool) then partition_files rest (done_count + 1) pending
      else partition_files rest done_count (pending ++ [pdf])
  end.

(** The local variables that the second loop updates. *)
Record Locals := {
  done_count : Z;
  errors : Z;
  file_times : list Q;
  recent_files : list RecentFile;
}.

Definition dash : pystr := str "-".

Section Batch.

Variable pending_len total : Z.
Variable pipeline_start : Q.

(** The body of [for i, pdf in enumerate(pending, 1)]. After
    [_ocr_one_file] has returned nothing in the [try] raises, so the
    lists appended to there are updated on the success path only. *)
Definition batch_step (i : Z) (pdf : pystr) (st : Locals) : M Locals :=
  unique_name ← lift (_to_output_name resolve DATA_DIR pdf);
  present ← fs_exists (md_name unique_name);
  if (present : bool) then
    ret {| done_count := done_count st + 1; errors := errors st;
           file_times := file_times st; recent_files := recent_files st |}
  else
    t1 ← time_now;
    let avg := match file_times st with
               | [] => 60%Q
               | _ => Num.mean (file_times st)
               end in
    try_except
      (n ← _ocr_one_file pdf (done_count st) i pending_len total (errors st)
             avg pipeline_start (recent_files st);
       t2 ← time_now;
       let elapsed := (t2 - t1)%Q in
       let file_times' := file_times st ++ [elapsed] in
       let avg' := Num.mean file_times' in
       let per_page := (elapsed / inject_Z (Z.max n 1))%Q in
       let recent' := recent_files st ++
         [{| rf_name := display_name_of pdf; rf_pages := n;
             rf_duration := Num.round1 elapsed;
             rf_per_page := Num.round1 per_page |}] in
       _log (LogFileDone elapsed per_page avg');;
       t3 ← time_now;
       _save_progress
         {| p_done := done_count st + i; p_total := total; p_errors := errors st;
            p_current_file := dash; p_current_page := PageDash;
            p_current_pages_total := 0; p_current_file_started := 0;
            p_elapsed := (t3 - pipeline_start)%Q; p_avg_per_file := avg';
            p_recent_files := recent' |};;
       ret {| done_count := done_count st; errors := errors st;
              file_times := file_times'; recent_files := recent' |})
      (fun ocr_err =>
         _log (LogError (display_name_of pdf) ocr_err);;
         _free_memory;;
         ret {| done_count := done_count st; errors := errors st + 1;
                file_times := file_times st; recent_files := recent_files st |}).

Fixpoint batch_loop (i : Z) (pending : list pystr) (st : Locals) : M Locals :=
  match pending with
  | [] => ret st
  | pdf :: rest =>
      st' ← batch_step i pdf st;
      batch_loop (i + 1) rest st'
  end.

End Batch.

Definition get_counts : M PageCounts := gets counts.

Definition _run_ocr : M unit :=
  '(scanned, mixed) ← lift (classification env);
  let files := scanned ++ mixed in
  '(done0, pending) ← partition_files files 0 [];
  let total := Z.of_nat (length files) in
  let pending_len := Z.of_nat (length pending) in
  _log (LogTotal total done0 pending_len);;
  match pending with
  | [] =>
      _log LogNothing;;
      _save_progress
        {| p_done := total; p_total := total; p_errors := 0;
           p_current_file := dash; p_current_page := PageDash;
           p_current_pages_total := 0; p_current_file_started := 0;
           p_elapsed := 0; p_avg_per_file := 0; p_recent_files := [] |}
  | _ :: _ =>
      modify (set_chandra (fun _ => ChandraState_new));;
      modify (set_counts (fun _ => {| c_tess := 0; c_vlm := 0; c_txt := 0 |}));;
      _log LogHybrid;;
      pipeline_start ← time_now;
      st ← batch_loop pending_len total pipeline_start 1 pending
             {| done_count := done0; errors := 0; file_times := []; recent_files := [] |};
      t ← time_now;
      _log (LogComplete (done_count st + pending_len) (errors st)
              (_format_duration (t - pipeline_start)%Q));;
      c ← get_counts;
      _log (LogEngineStats (c_tess c) (c_vlm c) (c_txt c))
  end.

Definition main : M unit :=
  _log LogBatchStart;;
  _run_ocr;;
  _log LogBatchEnd.

End Pipeline.

#[export] Existing Instance M_ret.
#[export] Existing Instance M_bind.

(** ** Weakest preconditions *)

(** [wp m Q w]: running [m] from [w] ends in an outcome and a world that
    satisfy [Q]. *)
Definition wp {Image Obj A : Type} (m : @M Image Obj A)
    (Q : Res A -> @World Image Obj -> Prop) (w : @World Image Obj) : Prop :=
  Q (fst (m w)) (snd (m w)).

(** [preserves I m]: the invariant [I] survives [m], whether it returns or
    raises. *)
Definition preserves {Image Obj A : Type} (I : @World Image Obj -> Prop)
    (m : @M Image Obj A) : Prop :=
  forall w, I w -> I (snd (m w)).

(** [since t0 P w]: the trace of [w] is [t0] followed by events that
    satisfy [P]. *)
Definition since {Image Obj : Type} (t0 : list (@Event Image))
    (P : list (@Event Image) -> Prop) (w : @World Image Obj) : Prop :=
  exists evs, trace w = t0 ++ evs /\ P evs.

(** The events of a file's processing that stem from a page of the
    document: a page is rendered, and an image is handed to an engine, only
    when the embedded text of the page has fewer alphabetic characters than
    the native-text threshold. *)
Definition rendered_page {Image : Type} (isalpha : pychar -> bool) (doc : @Doc Image)
    (page_idx : nat) (page : @Page Image) : Prop :=
  doc_pages doc !! page_idx = Some page /\
  exists text, page_text page = Ok text /\
    alpha_count isalpha text < NATIVE_TEXT_THRESHOLD.

Definition page_event_ok {Image : Type} (isalpha : pychar -> bool) (doc : @Doc Image)
    (e : @Event Image) : Prop :=
  match e with
  | EvRender p => exists page, rendered_page isalpha doc p page
  | EvTesseract image | EvGenerate image =>
      exists p page, rendered_page isalpha doc p page /\ page_image page = Ok image
  | _ => True
  end.

(** What an extraction hands over: an image comes from a rendered page. *)
Definition unit_ok {Image : Type} (isalpha : pychar -> bool) (doc : @Doc Image)
    (u : option Image * pystr) : Prop :=
  match u with
  | (Some image, _) =>
      exists p page, rendered_page isalpha doc p page /\ page_image page = Ok image
  | (None, _) => True
  end.

(** A future of the document [doc]: its result, if it has one, is an
    extraction of [doc]. *)
Definition future_ok {Image : Type} (isalpha : pychar -> bool) (doc : @Doc Image)
    (f : @Future Image) : Prop :=
  match f with
  | FutDone r => forall u, r = Ok u -> unit_ok isalpha doc u
  | FutPending d _ => d = doc
  end.

(** ** Sample collaborators

    Concrete instances of the parameters, on which the properties below are
    exercised. *)

Module Scenario.

(** [str.isalpha] on the characters the samples use: ASCII letters and the
    Vietnamese letters of [DIACRITICS]. *)
Definition isalpha (c : pychar) : bool :=
  ((65 <=? c) && (c <=? 90) || (97 <=? c) && (c <=? 122))%N || in_diacritics c.

(** The white space that [str.strip] removes, below U+0100. *)
Definition isspace (c : pychar) : bool :=
  existsb (N.eqb c) [9; 10; 11; 12; 13; 28; 29; 30; 31; 32; 133; 160]%N.

(** The working directory, on a file system without symbolic links. *)
Definition cwd : list pystr := [str "home"].
Definition resolve : Pathlib.Path -> Res (list pystr) := Pathlib.resolve cwd.
Definition DATA_DIR : list pystr := [str "home"; str "data"].

(** Images are numbered; the objects of [mlx_vlm] carry the number of the
    load that made them. *)
Definition letters (n : nat) : pystr := repeat 98%N n.
Definition accents (n : nat) : pystr := repeat 224%N n.

(** A three-page document: an embedded text layer on page 0, a scan that
    the fast engine reads well on page 1, one that it reads badly on
    page 2. *)
Definition doc3 : @Doc nat :=
  {| doc_init_forms := Ok tt;
     doc_pages :=
       [ {| page_text := Ok (str "  " ++ letters 60 ++ str " "); page_image := Ok 0%nat |};
         {| page_text := Ok []; page_image := Ok 1%nat |};
         {| page_text := Ok (str "p. 3"); page_image := Ok 2%nat |} ] |}.

(** A document without pages, and one whose only page cannot be
    rendered. *)
Definition doc0 : @Doc nat := {| doc_init_forms := Ok tt; doc_pages := [] |}.
Definition doc_bad : @Doc nat :=
  {| doc_init_forms := Ok tt;
     doc_pages := [ {| page_text := Ok []; page_image := Raise (PdfiumError 1) |} ] |}.

(** A one-page scan that the fast engine reads badly. *)
Definition doc_scan : @Doc nat :=
  {| doc_init_forms := Ok tt;
     doc_pages := [ {| page_text := Ok []; page_image := Ok 2%nat |} ] |}.

Definition good_pdf : pystr := str "data/a/good.pdf".
Definition scan_pdf : pystr := str "data/scan.pdf".
Definition empty_pdf : pystr := str "data/empty.pdf".
Definition bad_pdf : pystr := str "data/bad.pdf".
Definition missing_pdf : pystr := str "data/missing.pdf".

Definition open_pdf (pdf : pystr) : Res (@Doc nat) :=
  if decide (pdf = good_pdf) then Ok doc3
  else if decide (pdf = scan_pdf) then Ok doc_scan
  else if decide (pdf = empty_pdf) then Ok doc0
  else if decide (pdf = bad_pdf) then Ok doc_bad
  else Raise (PdfiumError 3).

Definition fast_engine (image : nat) : Res pystr :=
  match image with
  | 1%nat => Ok (letters 60 ++ accents 20)
  | 2%nat => Ok (letters 75 ++ accents 5)
  | _ => Raise (TesseractError 1)
  end.

(** The model loads at every attempt, or at none. *)
Definition env_of (files : list pystr) (load_ok : bool) (eager : bool) : @Env nat nat :=
  {| classification := Ok (files, []);
     pdf_document := open_pdf;
     image_to_string := fast_engine;
     mlx_load := fun n => if load_ok then Ok (n, n) else Raise (ModelError n);
     mlx_chat_template := fun _ => Ok (str "prompt");
     mlx_generate := fun _ _ _ image => Ok (str "page " ++ letters image);
     time_time := fun n => inject_Z (Z.of_nat n);
     worker_eager := fun _ => eager |}.

Definition env : @Env nat nat := env_of [good_pdf; empty_pdf] true true.

(** A fresh process on an empty output directory. *)
Definition w0 : @World nat nat :=
  {| fs := ∅; status_file := None; chandra := ChandraState_new;
     counts := {| c_tess := 0; c_vlm := 0; c_txt := 0 |};
     trace := []; clock := 0; loads := 0 |}.

(** The directory that a run interrupted while it was writing
    [missing.pdf] has left behind: a partial temporary file. *)
Definition w_stale : @World nat nat :=
  {| fs := {[ tmp_name (str "missing") := str "partial" ]};
     status_file := None; chandra := ChandraState_new;
     counts := {| c_tess := 0; c_vlm := 0; c_txt := 0 |};
     trace := []; clock := 0; loads := 0 |}.

(** A batch whose second file cannot be opened, on every run. *)
Definition env_corrupt : @Env nat nat := env_of [good_pdf; missing_pdf] true true.

(** The world after a batch run, and the events of a second run that
    follows a first one on a fresh directory. *)
Definition after_run (e : @Env nat nat) (w : @World nat nat) : @World nat nat :=
  snd (_run_ocr isalpha isspace resolve DATA_DIR e w).

Definition second_run_events (e : @Env nat nat) : list (@Event nat) :=
  skipn (length (trace (after_run e w0))) (trace (after_run e (after_run e w0))).

End Scenario.

(** The events that put content at [path]. *)
Definition writes_to {Image : Type} (path : pystr) (e : @Event Image) : Prop :=
  match e with
  | EvFsOpenW p | EvFsWrite p _ => p = path
  | EvFsRename _ dst => dst = path
  | _ => False
  end.

(** The number of pages whose completion was logged. *)
Definition is_page_log {Image : Type} (e : @Event Image) : bool :=
  match e with
  | EvLog (LogPage _ _ _ _ _) => true
  | _ => false
  end.

Definition pages_logged {Image : Type} (evs : list (@Event Image)) : nat :=
  length (List.filter is_page_log evs).

(** [n] pages were logged and nothing was written to [path]. *)
Definition quiet_pages {Image : Type} (path : pystr) (n : nat)
    (evs : list (@Event Image)) : Prop :=
  Forall (fun e => ~ writes_to path e) evs /\ pages_logged evs = n.

(** A path component without slash and without dash. *)
Definition plain (c : pystr) : Prop := ~ In SLASH c /\ ~ In DASH c.

(** The position of the remainder [r] of a division by [A] that a location
    stands for. *)
Definition loc_spec (l : location) (r A : Z) : Prop :=
  match l with
  | loc_Exact => r = 0
  | loc_Inexact Lt => 0 < 2 * r < A
  | loc_Inexact Eq => 0 < r /\ 2 * r = A
  | loc_Inexact Gt => A < 2 * r
  end.

(** The two conditions of the quality gate, in exact arithmetic: at least
    [MIN_CHARS_FOR_PAGE] alphabetic characters, and at least 15 diacritic
    characters per 100 alphabetic ones. *)
Definition gate_conditions (isalpha : pychar -> bool) (text : pystr) : Prop :=
  MIN_CHARS_FOR_PAGE <= alpha_count isalpha text
  /\ 15 * alpha_count isalpha text <= 100 * diacritics_count text.

(** The state of the engines: the fallback model, the number of load
    attempts, the page counts. *)
Definition engine_state {Image Obj : Type} (w : @World Image Obj)
  : @ChandraState Obj * nat * PageCounts :=
  (chandra w, loads w, counts w).

(** Two programs agree when, from worlds with the same engine state, they
    have the same outcome and leave the same engine state. *)
Definition agree {Image Obj A : Type} (m1 m2 : @M Image Obj A) : Prop :=
  forall w1 w2, engine_state w1 = engine_state w2 ->
    fst (m1 w1) = fst (m2 w2) /\ engine_state (snd (m1 w1)) = engine_state (snd (m2 w2)).

(** A future of page [p] of [doc]. *)
Definition future_for {Image : Type} (isalpha isspace : pychar -> bool)
    (doc : @Doc Image) (p : nat) (f : @Future Image) : Prop :=
  f = FutPending doc p \/ f = FutDone (extract isalpha isspace doc p).

(** What the page loop appends to the temporary file for the pages from
    index [p] on, whose texts are [mds]. *)
Fixpoint pages_text (p : nat) (mds : list pystr) : pystr :=
  match mds with
  | [] => []
  | md :: rest =>
      (if (0 <? p)%nat then [NEWLINE; NEWLINE] else []) ++ md ++ pages_text (S p) rest
  end.

(** The collaborators with another schedule of the worker. *)
Definition with_worker {Image Obj : Type} (env : @Env Image Obj) (eager : nat -> bool)
  : @Env Image Obj :=
  {| classification := classification env;
     pdf_document := pdf_document env;
     image_to_string := image_to_string env;
     mlx_load := mlx_load env;
     mlx_chat_template := mlx_chat_template env;
     mlx_generate := mlx_generate env;
     time_time := time_time env;
     worker_eager := eager |}.

(** The events of the processing of one file: the file named
    [unique_name], with [recent_files] the history handed to the file
    processor. *)
Definition file_event {Image : Type} (pdf unique_name : pystr)
    (recent_files : list RecentFile) (e : @Event Image) : Prop :=
  match e with
  | EvLog (LogFile _ _ _ _ _ _) | EvLog (LogPage _ _ _ _ _)
  | EvLog LogLoading | EvLog (LogLoaded _) => True
  | EvLog _ => False
  | EvStatus s => sn_recent_files s = last_n 10 recent_files
  | EvOpenDoc p => p = pdf
  | EvFsOpenW p | EvFsWrite p _ => p = tmp_name unique_name
  | EvFsRename src dst => src = tmp_name unique_name /\ dst = md_name unique_name
  | EvFsUnlink p => p = tmp_name unique_name \/ p = md_name unique_name
  | _ => True
  end.

(** Error lines of the log, and the rule that a memory-reclamation pass
    follows each of them at once. *)
Definition is_error_log {Image : Type} (e : @Event Image) : bool :=
  match e with
  | EvLog (LogError _ _) => true
  | _ => false
  end.

Definition errors_logged {Image : Type} (evs : list (@Event Image)) : Z :=
  Z.of_nat (length (List.filter is_error_log evs)).

Fixpoint error_then_gc {Image : Type} (evs : list (@Event Image)) : Prop :=
  match evs with
  | [] => True
  | e :: rest =>
      (if is_error_log e
       then match rest with EvGc :: _ => True | _ => False end
       else True)
      /\ error_then_gc rest
  end.

(** The log lines that report a completed load of the model. *)
Definition is_loaded_log {Image : Type} (e : @Event Image) : bool :=
  match e with
  | EvLog (LogLoaded _) => true
  | _ => false
  end.

Definition models_loaded {Image : Type} (evs : list (@Event Image)) : nat :=
  length (List.filter is_loaded_log evs).

(** The invariant of lazy loading, for the events since the trace [t0]:
    the model was loaded at most once, and not at all while the state is
    not marked loaded; and if the state [c0] of the start was marked
    loaded, the state is still [c0] and no load was attempted since, the
    number of attempts being [n0] as at the start. *)
Definition lazy_inv {Image Obj : Type} (t0 : list (@Event Image))
    (c0 : @ChandraState Obj) (n0 : nat) (w : @World Image Obj) : Prop :=
  (exists evs, trace w = t0 ++ evs
     /\ if loaded (chandra w) then (models_loaded evs <= 1)%nat
        else models_loaded evs = 0%nat)
  /\ (loaded c0 = true -> chandra w = c0 /\ loads w = n0).

(** The log lines that report a completed file. *)
Definition is_done_log {Image : Type} (e : @Event Image) : bool :=
  match e with
  | EvLog (LogFileDone _ _ _) => true
  | _ => false
  end.

Definition files_completed {Image : Type} (evs : list (@Event Image)) : nat :=
  length (List.filter is_done_log evs).

(** The rule of the recent-file history. [history] lists the entries of
    the files that the run completes, in the order of completion, and the
    events [evs] follow the completion of the first [k] of them: every
    snapshot written to the status artifact holds the last ten of the
    entries completed so far, which are [min 10 k]. *)
Fixpoint history_ok {Image : Type} (history : list RecentFile) (k : nat)
    (evs : list (@Event Image)) : Prop :=
  match evs with
  | [] => True
  | e :: rest =>
      match e with
      | EvStatus s =>
          sn_recent_files s = last_n 10 (firstn k history)
          /\ length (sn_recent_files s) = Nat.min 10 k
      | _ => True
      end
      /\ history_ok history (if is_done_log e then S k else k) rest
  end.

(** The files that the classification artifact lists. *)
Definition listed_files {Image Obj : Type} (env : @Env Image Obj) : list pystr :=
  match classification env with
  | Ok (scanned, mixed) => scanned ++ mixed
  | Raise _ => []
  end.

(** Whether the output artifact of [pdf] exists in the directory [m]. *)
Definition artifact_exists (resolve : Pathlib.Path -> Res (list pystr))
    (DATA_DIR : list pystr) (m : gmap pystr pystr)
    (pdf : pystr) : bool :=
  match _to_output_name resolve DATA_DIR pdf with
  | Ok unique_name => bool_decide (is_Some (m !! md_name unique_name))
  | Raise _ => false
  end.

(** The events that open a document. *)
Definition is_open_doc {Image : Type} (e : @Event Image) : bool :=
  match e with
  | EvOpenDoc _ => true
  | _ => false
  end.

(** Calls of the engines and of the model loader. *)
Definition is_engine_event {Image : Type} (e : @Event Image) : bool :=
  match e with
  | EvTesseract _ | EvLoad _ | EvGenerate _ => true
  | _ => false
  end.

(** ** The turns of the second loop *)

(** What became of a pending file at its turn: it was skipped, or the
    file processor returned and the file got the entry [entry] in the
    history, or the file processor raised [err]. *)
Inductive Outcome : Type :=
  | Skipped
  | Completed (entry : RecentFile)
  | Failed (err : exn).

Definition is_failed (o : Outcome) : bool :=
  match o with Failed _ => true | _ => false end.

Definition failures (outs : list Outcome) : nat := length (List.filter is_failed outs).

(** The history entries of the completed files, in order. *)
Fixpoint entries (outs : list Outcome) : list RecentFile :=
  match outs with
  | [] => []
  | Completed entry :: rest => entry :: entries rest
  | _ :: rest => entries rest
  end.

(** [y] is [x] rounded to one decimal, whichever way a tie goes. *)
Definition nearest_tenth (x y : Q) : Prop :=
  (exists k : Z, y == inject_Z k / 10)%Q /\ (x - (1 # 20) <= y <= x + (1 # 20))%Q.

Section Turns.

Variable isalpha isspace : pychar -> bool.
Variable resolve : Pathlib.Path -> Res (list pystr).
Variable DATA_DIR : list pystr.
Context {Image Obj : Type}.
Variable env : @Env Image Obj.
Variable pending_len total : Z.
Variable pipeline_start : Q.

(** The turn of [pdf], the [i]-th pending file, with the outcome [o]: it
    leads from the locals [st] and the world [w] to [st'] and [w'].
    - [Skipped]: the artifact exists; one more file is done and nothing
      happens.
    - Otherwise the artifact does not exist, the clock is read and the file
      processor is called on [pdf].
    - [Failed err]: the file processor raises [err]; one more error is
      counted, nothing else changes in the locals, and the error line and
      a memory-reclamation pass follow the events of the file processor.
    - [Completed entry]: the file processor returns the number of pages of
      the document; [entry] holds the display name of [pdf], this number,
      and the time from the reading of the clock before the call to the
      reading after it, in all and per page (of at least one page), both
      rounded to one decimal; the entry is appended to the history, and
      after the file processor's events come the completion line and a
      snapshot, written to the status artifact, with the last ten entries
      of the history. *)
Definition turn (i : Z) (pdf : pystr) (st : Locals) (w : @World Image Obj) (o : Outcome)
    (st' : Locals) (w' : @World Image Obj) : Prop :=
  let started := time_time env (clock w) in
  let avg := match file_times st with
             | [] => 60%Q
             | _ => Num.mean (file_times st)
             end in
  let r := _ocr_one_file isalpha isspace resolve DATA_DIR env pdf (done_count st) i
             pending_len total (errors st) avg pipeline_start (recent_files st)
             (tick_clock w) in
  match o with
  | Skipped =>
      artifact_exists resolve DATA_DIR (fs w) pdf = true
      /\ st' = {| done_count := done_count st + 1; errors := errors st;
                  file_times := file_times st; recent_files := recent_files st |}
      /\ w' = w
  | Failed err =>
      artifact_exists resolve DATA_DIR (fs w) pdf = false
      /\ fst r = Raise err
      /\ st' = {| done_count := done_count st; errors := errors st + 1;
                  file_times := file_times st; recent_files := recent_files st |}
      /\ w' = add_event EvGc
                (add_event (EvLog (LogError (display_name_of pdf) err)) (snd r))
  | Completed entry =>
      artifact_exists resolve DATA_DIR (fs w) pdf = false
      /\ exists doc,
           pdf_document env pdf = Ok doc
           /\ fst r = Ok (Z.of_nat (num_pages doc))
           /\ let n := Z.of_nat (num_pages doc) in
              let elapsed := (time_time env (clock (snd r)) - started)%Q in
              let per_page := (elapsed / inject_Z (Z.max n 1))%Q in
              rf_name entry = display_name_of pdf
              /\ rf_pages entry = n
              /\ nearest_tenth elapsed (rf_duration entry)
              /\ nearest_tenth per_page (rf_per_page entry)
              /\ st' = {| done_count := done_count st; errors := errors st;
                          file_times := file_times st ++ [elapsed];
                          recent_files := recent_files st ++ [entry] |}
              /\ exists s,
                   sn_recent_files s = last_n 10 (recent_files st ++ [entry])
                   /\ status_file w' = Some s
                   /\ trace w'
                      = trace (snd r)
                        ++ [EvLog (LogFileDone elapsed per_page
                                     (Num.mean (file_times st ++ [elapsed])));
                            EvStatus s]
                   /\ fs w' = fs (snd r)
  end.

(** The turns of the pending files, one after the other. *)
Fixpoint turns (i : Z) (pending : list pystr) (st : Locals) (w : @World Image Obj)
    (outs : list Outcome) (st' : Locals) (w' : @World Image Obj) : Prop :=
  match pending, outs with
  | [], [] => st' = st /\ w' = w
  | pdf :: rest, o :: outs' =>
      exists st1 w1,
        turn i pdf st w o st1 w1 /\ turns (i + 1) rest st1 w1 outs' st' w'
  | _, _ => False
  end.

End Turns.

(** ** Vocabulary of further properties *)

(** The events of page extraction and of the engines. *)
Definition page_op_event {Image : Type} (e : @Event Image) : bool :=
  match e with
  | EvGetText _ | EvRender _ | EvTesseract _ | EvLoad _ | EvGenerate _ => true
  | EvLog LogLoading | EvLog (LogLoaded _) => true
  | _ => false
  end.

(** [counts.tess += 1], [counts.vlm += 1] or [counts.txt += 1], by tag. *)
Definition bump (tag : Tag) (c : PageCounts) : PageCounts :=
  match tag with
  | tess => incr_tess c
  | vlm => incr_vlm c
  | txt => incr_txt c
  end.

Definition tally (tags : list Tag) (c : PageCounts) : PageCounts :=
  fold_left (fun c tag => bump tag c) tags c.

(** The tags of the page lines of the log, in order. *)
Fixpoint page_tags {Image : Type} (evs : list (@Event Image)) : list Tag :=
  match evs with
  | [] => []
  | EvLog (LogPage _ _ tag _ _) :: rest => tag :: page_tags rest
  | _ :: rest => page_tags rest
  end.

(** [engine_step f w0 w]: [w] comes from [w0] by events of page extraction
    and of the engines; the output directory and the status artifact are
    the same, and the page counts went through [f]. *)
Definition engine_step {Image Obj : Type} (f : PageCounts -> PageCounts)
    (w0 w : @World Image Obj) : Prop :=
  exists evs,
    trace w = trace w0 ++ evs
    /\ Forall (fun e => page_op_event e = true) evs
    /\ fs w = fs w0 /\ status_file w = status_file w0
    /\ counts w = f (counts w0).

(** The schedule of a file's processing: which page is handed to the
    worker, which page's line is logged, and the memory-reclamation
    passes. *)
Inductive Sched : Type :=
  | SSubmit (page_idx : nat)
  | SPage (page : Z) (tag : Tag)
  | SGc.

Definition sched_of {Image : Type} (e : @Event Image) : option Sched :=
  match e with
  | EvSubmit p => Some (SSubmit p)
  | EvLog (LogPage i _ tag _ _) => Some (SPage i tag)
  | EvGc => Some SGc
  | _ => None
  end.

Fixpoint schedule {Image : Type} (evs : list (@Event Image)) : list Sched :=
  match evs with
  | [] => []
  | e :: rest =>
      match sched_of e with
      | Some s => s :: schedule rest
      | None => schedule rest
      end
  end.

(** The schedule of the page loop of a document of [n] pages, from page
    index [p_idx] on, for pages that get the tags [tags]: the next page is
    submitted before the current one is logged, and a memory-reclamation
    pass follows every tenth page. *)
Fixpoint loop_schedule (n p_idx : nat) (tags : list Tag) : list Sched :=
  match tags with
  | [] => []
  | tag :: rest =>
      (if (p_idx + 1 <? n)%nat then [SSubmit (p_idx + 1)] else [])
      ++ [SPage (Z.of_nat p_idx + 1) tag]
      ++ (if (p_idx mod 10 =? 9)%nat then [SGc] else [])
      ++ loop_schedule n (S p_idx) rest
  end.

(** The events of the [try] block of [_ocr_one_file] and of its handler,
    for a document of [n] pages. *)
Definition in_file_event {Image : Type} (unique_name display_name : pystr)
    (done_count idx total errors : Z) (recent_files : list RecentFile) (n : nat)
    (e : @Event Image) : Prop :=
  match e with
  | EvStatus s =>
      sn_done s = done_count + idx - 1 /\ sn_total s = total /\ sn_errors s = errors
      /\ sn_current_file s = display_name
      /\ sn_current_pages_total s = Z.of_nat n
      /\ sn_recent_files s = last_n 10 recent_files
      /\ exists i, sn_current_page s = PageOf i (Z.of_nat n) /\ 1 <= i <= Z.of_nat n
  | EvLog (LogPage i n' _ _ _) => n' = Z.of_nat n /\ 1 <= i <= Z.of_nat n
  | EvLog (LogFile _ _ _ _ name n') => name = display_name /\ n' = Z.of_nat n
  | EvLog LogLoading | EvLog (LogLoaded _) => True
  | EvLog _ => False
  | EvSubmit p => (p < Nat.max 1 n)%nat
  | EvFsOpenW p | EvFsWrite p _ => p = tmp_name unique_name
  | EvFsRename src dst => src = tmp_name unique_name /\ dst = md_name unique_name
  | EvFsUnlink p => p = tmp_name unique_name \/ p = md_name unique_name
  | EvOpenDoc _ | EvCloseDoc => False
  | EvGc | EvShutdown | EvGetText _ | EvRender _ | EvTesseract _ | EvLoad _
  | EvGenerate _ => True
  end.

(** The invariant of the page counts, for the events since the trace
    [t0]: the counts are those of the start, [c0], advanced by the tags of
    the page lines logged since, and by [pending], the tags of the pages
    counted but not yet logged. *)
Definition tally_inv {Image Obj : Type} (t0 : list (@Event Image)) (c0 : PageCounts)
    (pending : list Tag) (w : @World Image Obj) : Prop :=
  exists evs, trace w = t0 ++ evs /\ counts w = tally (page_tags evs ++ pending) c0.

(** The events that open or close a document. *)
Definition is_doc_event {Image : Type} (e : @Event Image) : bool :=
  match e with
  | EvOpenDoc _ | EvCloseDoc => true
  | _ => false
  end.

Definition tag_eqb (a b : Tag) : bool :=
  match a, b with
  | tess, tess | vlm, vlm | txt, txt => true
  | _, _ => false
  end.

(** The number of page lines logged with the tag [tag]. *)
Definition pages_tagged {Image : Type} (tag : Tag) (evs : list (@Event Image)) : Z :=
  Z.of_nat (length (List.filter (tag_eqb tag) (page_tags evs))).

(** The collaborators with another [generate]. *)
Definition with_generate {Image Obj : Type} (env : @Env Image Obj)
    (generate : option Obj -> option Obj -> pystr -> Image -> Res pystr)
  : @Env Image Obj :=
  {| classification := classification env;
     pdf_document := pdf_document env;
     image_to_string := image_to_string env;
     mlx_load := mlx_load env;
     mlx_chat_template := mlx_chat_template env;
     mlx_generate := generate;
     time_time := time_time env;
     worker_eager := worker_eager env |}.

(** A state that is marked loaded holds a model and a processor. *)
Definition chandra_ready {Image Obj : Type} (w : @World Image Obj) : Prop :=
  loaded (chandra w) = true ->
  is_Some (model (chandra w)) /\ is_Some (processor (chandra w)).

(** Two programs that run alike from every world whose state is ready. *)
Definition same_run {Image Obj A : Type} (m1 m2 : @M Image Obj A) : Prop :=
  forall w, chandra_ready w -> m1 w = m2 w.

(** ** Inputs of further examples *)

Module Examples.

(** A command line that gives [--data-dir] twice and ends with a flag
    that has no value. *)
Definition argv : list pystr :=
  [str "batch-ocr.py"; str "--data-dir"; str "docs"; str "--data-dir"; str "other";
   str "--log-file"].

(** Images that are their own size, with content in one fixed box. *)
Definition size (img : Z * Z) : Z * Z := img.
Definition content_bbox (img : Z * Z) : option (Z * Z * Z * Z) := Some (30, 5, 90, 100).
Definition crop (img : Z * Z) (box : Z * Z * Z * Z) : Z * Z :=
  let '(x0, y0, x1, y1) := box in (x1 - x0, y1 - y0).

(** A [generate] that fails when it is given no model or no processor. *)
Definition strict_generate (mdl prc : option nat) (prompt : pystr) (image : nat)
  : Res pystr :=
  match mdl, prc with
  | Some _, Some _ => mlx_generate Scenario.env mdl prc prompt image
  | _, _ => Raise (ModelError 9)
  end.

(** A classification that lists the data root itself. *)
Definition env_root : @Env nat nat :=
  Scenario.env_of [Scenario.good_pdf; str "data"] true true.

Definition progress_1_of_3 : Progress :=
  {| p_done := 1; p_total := 3; p_errors := 0; p_current_file := str "good";
     p_current_page := PageOf 2 3; p_current_pages_total := 3;
     p_current_file_started := 0; p_elapsed := 75; p_avg_per_file := 60;
     p_recent_files := [] |}.

(** The file processor on [good.pdf], as the first of one pending file. *)
Definition good_file : Res Z * @World nat nat :=
  _ocr_one_file Scenario.isalpha Scenario.isspace Scenario.resolve Scenario.DATA_DIR
    Scenario.env Scenario.good_pdf 0 1 1 1 0 60 0 [] Scenario.w0.

End Examples.

(* ================================================================== *)
(** * Properties *)
(* ================================================================== *)

(** ** The float ratio of the quality gate *)

Lemma digits2_pos_bounds p :
  2 ^ (Zpos (digits2_pos p) - 1) <= Zpos p < 2 ^ Zpos (digits2_pos p).
Proof.
  induction p as [p IH|p IH|]; cbn [digits2_pos].
  - rewrite Pos2Z.inj_succ. replace (Z.succ (Zpos (digits2_pos p)) - 1) with (Z.succ (Zpos (digits2_pos p) - 1)) by lia.
    rewrite !Z.pow_succ_r by lia. lia.
  - rewrite Pos2Z.inj_succ. replace (Z.succ (Zpos (digits2_pos p)) - 1) with (Z.succ (Zpos (digits2_pos p) - 1)) by lia.
    rewrite !Z.pow_succ_r by lia. lia.
  - simpl. lia.
Qed.

Lemma digits2_pos_unique p k :
  0 < k -> 2 ^ (k - 1) <= Zpos p < 2 ^ k -> Zpos (digits2_pos p) = k.
Proof.
  intros Hk [Hlo Hhi]. pose proof (digits2_pos_bounds p) as [Hlo' Hhi'].
  destruct (Z.lt_trichotomy (Zpos (digits2_pos p)) k) as [Hlt|[Heq|Hgt]]; [|exact Heq|].
  - exfalso. assert (2 ^ Zpos (digits2_pos p) <= 2 ^ (k - 1)) by (apply Z.pow_le_mono_r; lia). lia.
  - exfalso. assert (2 ^ k <= 2 ^ (Zpos (digits2_pos p) - 1)) by (apply Z.pow_le_mono_r; lia). lia.
Qed.

Lemma iter_xO_spec m d : Zpos (Pos.iter xO m d) = Zpos m * 2 ^ Zpos d.
Proof.
  induction d as [|d IH] using Pos.peano_ind.
  - simpl. lia.
  - rewrite Pos.iter_succ, Pos2Z.inj_succ, Z.pow_succ_r by lia.
    rewrite Pos2Z.inj_xO, IH. lia.
Qed.


Lemma fexp_shift dg e :
  -1074 <= dg + e - 53 -> fexp Float.prec Float.emax (dg + e) - e = dg - 53.
Proof. unfold fexp, emin, Float.prec, Float.emax. lia. Qed.

Lemma shr_fexp_53 m e l :
  Zpos (digits2_pos m) = 53 -> -1074 <= e ->
  shr_fexp Float.prec Float.emax (Zpos m) e l = (shr_record_of_loc (Zpos m) l, e).
Proof.
  intros Hd He. unfold shr_fexp. cbn [Zdigits2]. rewrite Hd.
  rewrite fexp_shift by lia. reflexivity.
Qed.

Lemma shr_fexp_54 m e l :
  Zpos (digits2_pos m) = 54 -> -1075 <= e ->
  shr_fexp Float.prec Float.emax (Zpos m) e l = (shr_1 (shr_record_of_loc (Zpos m) l), e + 1).
Proof.
  intros Hd He. unfold shr_fexp. cbn [Zdigits2]. rewrite Hd.
  rewrite fexp_shift by lia. reflexivity.
Qed.

Lemma loc_of_shr_record_of_loc m l : loc_of_shr_record (shr_record_of_loc m l) = l.
Proof. destruct l as [|[]]; reflexivity. Qed.

Lemma shr_m_of_loc m l : shr_m (shr_record_of_loc m l) = m.
Proof. destruct l as [|[]]; reflexivity. Qed.

Lemma binary_round_aux_exact m e :
  Zpos (digits2_pos m) = 53 -> -1074 <= e <= 971 ->
  binary_round_aux Float.prec Float.emax false (Zpos m) e loc_Exact = S754_finite false m e.
Proof.
  intros Hd He. unfold binary_round_aux.
  rewrite shr_fexp_53 by (assumption || lia).
  cbn [shr_record_of_loc shr_m loc_of_shr_record round_nearest_even].
  rewrite shr_fexp_53 by (assumption || lia).
  cbn [shr_record_of_loc shr_m]. unfold Float.prec, Float.emax.
  destruct (e <=? 1024 - 53) eqn:H; [reflexivity | lia].
Qed.

(** [float(n)] is exact below [2^53]: the mantissa is [n] shifted to 53 bits. *)
Lemma of_int_exact n :
  0 < n < 2 ^ 53 ->
  exists m e, Float.of_int n = S754_finite false m e /\ -52 <= e <= 0
              /\ 2 ^ 52 <= Zpos m < 2 ^ 53 /\ Zpos m = n * 2 ^ (- e).
Proof.
  intros [Hpos Hlt]. destruct n as [|p|p]; try lia.
  unfold Float.of_int, binary_normalize, binary_round.
  pose proof (digits2_pos_bounds p) as [Hlo Hhi].
  set (dg := Zpos (digits2_pos p)) in *.
  assert (Hdg : 1 <= dg <= 53).
  { split; [subst dg; lia|].
    destruct (Z.le_gt_cases dg 53) as [H|H]; [exact H|].
    exfalso. assert (2 ^ 53 <= 2 ^ (dg - 1)) by (apply Z.pow_le_mono_r; lia). lia. }
  assert (Hfexp : fexp Float.prec Float.emax (dg + 0) = dg - 53).
  { unfold fexp, emin, Float.prec, Float.emax. lia. }
  rewrite Hfexp. unfold shl_align.
  destruct (dg - 53 - 0) as [|d|d] eqn:Hs; try lia.
  - (* already 53 bits *)
    assert (dg = 53) by lia.
    exists p, 0. rewrite binary_round_aux_exact by (subst dg; lia).
    split; [reflexivity|]. split; [lia|]. split.
    + replace (dg - 1) with 52 in Hlo by lia. replace dg with 53 in Hhi by lia. lia.
    + simpl. lia.
  - assert (Hd : Zpos d = 53 - dg) by lia.
    assert (Hval : Zpos (Pos.iter xO p d) = Zpos p * 2 ^ (53 - dg)).
    { rewrite iter_xO_spec, Hd. reflexivity. }
    assert (Hb : 2 ^ 52 <= Zpos (Pos.iter xO p d) < 2 ^ 53).
    { rewrite Hval. split.
      - replace 52 with ((dg - 1) + (53 - dg)) by lia. rewrite Z.pow_add_r by lia.
        apply Z.mul_le_mono_nonneg_r; [apply Z.pow_nonneg; lia | exact Hlo].
      - replace 53 with (dg + (53 - dg)) at 2 by lia. rewrite Z.pow_add_r by lia.
        apply Z.mul_lt_mono_pos_r; [apply Z.pow_pos_nonneg; lia | exact Hhi]. }
    exists (Pos.iter xO p d), (dg - 53).
    rewrite binary_round_aux_exact; [| apply digits2_pos_unique; [lia | exact Hb] | lia].
    split; [reflexivity|]. split; [lia|]. split; [exact Hb|].
    rewrite Hval. f_equal. f_equal. lia.
Qed.

Lemma new_location_spec A r : 0 <= r < A -> loc_spec (new_location A r) r A.
Proof.
  intros Hr. unfold new_location. destruct (Z.even A) eqn:Hev.
  - unfold new_location_even. destruct (Z.eqb_spec r 0) as [->|Hr0]; [reflexivity|].
    destruct (Z.compare_spec (2 * r) A); cbn [loc_spec]; lia.
  - unfold new_location_odd. destruct (Z.eqb_spec r 0) as [->|Hr0]; [reflexivity|].
    assert (Hodd : Z.odd A = true) by (rewrite <- Z.negb_even, Hev; reflexivity).
    apply Z.odd_spec in Hodd as [k Hk].
    destruct (Z.compare_spec (2 * r + 1) A); cbn [loc_spec]; lia.
Qed.

Lemma round_nearest_even_spec q l r A :
  loc_spec l r A -> 0 <= r < A ->
  let m := round_nearest_even q l in
  q <= m <= q + 1
  /\ (2 * m - 1) * A <= 2 * (q * A + r) <= (2 * m + 1) * A.
Proof.
  intros Hl Hr. destruct l as [|[]]; cbn [round_nearest_even loc_spec] in *.
  - subst r. nia.
  - destruct Hl as [H0 Hl]. destruct (Z.even q); nia.
  - nia.
  - nia.
Qed.

Lemma shr_1_spec q l r A :
  loc_spec l r A -> 0 <= r < A ->
  exists h b, Zpos q = 2 * h + b /\ (b = 0 \/ b = 1)
    /\ shr_m (shr_1 (shr_record_of_loc (Zpos q) l)) = h
    /\ loc_spec (loc_of_shr_record (shr_1 (shr_record_of_loc (Zpos q) l)))
         (r + b * A) (2 * A).
Proof.
  intros Hl Hr.
  destruct q as [p|p|].
  - exists (Zpos p), 1. split; [lia|]. split; [now right|].
    destruct l as [|[]];
      cbn [shr_1 shr_record_of_loc shr_m loc_of_shr_record loc_spec orb] in *;
      (split; [reflexivity|]); lia.
  - exists (Zpos p), 0. split; [lia|]. split; [now left|].
    destruct l as [|[]];
      cbn [shr_1 shr_record_of_loc shr_m loc_of_shr_record loc_spec orb] in *;
      (split; [reflexivity|]); lia.
  - exists 0, 1. split; [lia|]. split; [now right|].
    destruct l as [|[]];
      cbn [shr_1 shr_record_of_loc shr_m loc_of_shr_record loc_spec orb] in *;
      (split; [reflexivity|]); lia.
Qed.

(** The second normalisation of [binary_round_aux]: the rounded mantissa
    has 53 bits, or is [2^53]. *)
Lemma renormalise m e :
  2 ^ 52 <= m <= 2 ^ 53 -> -1074 <= e <= 900 ->
  exists m' k,
    (let '(mrs, e') := shr_fexp Float.prec Float.emax m e loc_Exact in
     match shr_m mrs with
     | Z0 => S754_zero false
     | Zpos p => if e' <=? Float.emax - Float.prec then S754_finite false p e' else S754_infinity false
     | Zneg _ => S754_nan
     end) = S754_finite false m' (e + k)
    /\ 0 <= k <= 1 /\ 2 ^ 52 <= Zpos m' < 2 ^ 53 /\ m = Zpos m' * 2 ^ k.
Proof.
  intros Hm He. destruct m as [|p|p]; try lia.
  destruct (Z.eq_dec (Zpos p) (2 ^ 53)) as [Heq|Hne].
  - injection Heq as ->.
    exists (4503599627370496)%positive, 1.
    rewrite shr_fexp_54 by (first [reflexivity | lia]).
    cbn [shr_record_of_loc shr_1 shr_m]. unfold Float.emax, Float.prec.
    replace (e + 1 <=? 1024 - 53) with true by (symmetry; apply Z.leb_le; lia).
    split; [reflexivity|]. lia.
  - exists p, 0.
    rewrite shr_fexp_53;
      [| apply digits2_pos_unique; [lia | change (53 - 1) with 52; lia] | lia].
    cbn [shr_record_of_loc shr_m]. unfold Float.emax, Float.prec.
    replace (e <=? 1024 - 53) with true by (symmetry; apply Z.leb_le; lia).
    rewrite Z.add_0_r. split; [reflexivity|]. lia.
Qed.


(** Rounding a quotient [(q * A + r) / A] whose integer part has 53 or 54
    bits: the result is within half a unit in the last place. *)
Lemma binary_round_aux_bracket q e l r A :
  2 ^ 52 <= Zpos q < 2 ^ 54 -> loc_spec l r A -> 0 <= r < A -> -1074 <= e <= 800 ->
  exists m k,
    binary_round_aux Float.prec Float.emax false (Zpos q) e l = S754_finite false m (e + k)
    /\ 0 <= k <= 2 /\ 2 ^ 52 <= Zpos m < 2 ^ 53
    /\ (2 * Zpos m - 1) * 2 ^ k * A <= 2 * (Zpos q * A + r)
         <= (2 * Zpos m + 1) * 2 ^ k * A.
Proof.
  intros Hq Hl Hr He. unfold binary_round_aux.
  destruct (Z.lt_ge_cases (Zpos q) (2 ^ 53)) as [Hlt|Hge].
  - (* 53 bits: no shift before rounding *)
    rewrite shr_fexp_53; [| apply digits2_pos_unique; [lia | change (53 - 1) with 52; lia] | lia].
    rewrite shr_m_of_loc, loc_of_shr_record_of_loc.
    destruct (round_nearest_even_spec (Zpos q) l r A Hl Hr) as [Hm Hb].
    set (mr := round_nearest_even (Zpos q) l) in *.
    destruct (renormalise mr e) as (m' & k & Heq & Hk & Hm' & Hmr); [lia | lia |].
    exists m', k. split; [exact Heq|]. split; [lia|]. split; [exact Hm'|].
    assert (Hk' : k = 0 \/ k = 1) by lia. destruct Hk' as [-> | ->].
    + change (2 ^ 0) with 1 in *. nia.
    + change (2 ^ 1) with 2 in *. nia.
  - (* 54 bits: one shift before rounding *)
    rewrite shr_fexp_54; [| apply digits2_pos_unique; [lia | change (54 - 1) with 53; lia] | lia].
    destruct (shr_1_spec q l r A Hl Hr) as (h & b & Hqh & Hb & Hh & Hl').
    rewrite Hh.
    assert (Hr' : 0 <= r + b * A < 2 * A) by (destruct Hb as [-> | ->]; lia).
    destruct (round_nearest_even_spec h _ _ _ Hl' Hr') as [Hm Hbr].
    set (mr := round_nearest_even h _) in *.
    destruct (renormalise mr (e + 1)) as (m' & k & Heq & Hk & Hm' & Hmr); [lia | lia |].
    exists m', (1 + k). replace (e + (1 + k)) with (e + 1 + k) by lia.
    split; [exact Heq|]. split; [lia|]. split; [exact Hm'|].
    assert (Hk' : k = 0 \/ k = 1) by lia. destruct Hk' as [-> | ->].
    + change (2 ^ (1 + 0)) with 2. change (2 ^ 0) with 1 in *. nia.
    + change (2 ^ (1 + 1)) with 4. change (2 ^ 1) with 2 in *. nia.
Qed.

(** The quotient of two floats with 53-bit mantissas. *)
Lemma SFdiv_bracket m1 e1 m2 e2 :
  2 ^ 52 <= Zpos m1 < 2 ^ 53 -> 2 ^ 52 <= Zpos m2 < 2 ^ 53 ->
  -52 <= e1 <= 0 -> -52 <= e2 <= 0 ->
  exists m k,
    SFdiv Float.prec Float.emax (S754_finite false m1 e1) (S754_finite false m2 e2)
    = S754_finite false m (e1 - e2 - 53 + k)
    /\ 0 <= k <= 2 /\ 2 ^ 52 <= Zpos m < 2 ^ 53
    /\ (2 * Zpos m - 1) * 2 ^ k * Zpos m2 <= 2 * (Zpos m1 * 2 ^ 53)
         <= (2 * Zpos m + 1) * 2 ^ k * Zpos m2.
Proof.
  intros H1 H2 He1 He2. unfold SFdiv, SFdiv_core_binary. cbn [xorb Zdigits2].
  rewrite (digits2_pos_unique m1 53), (digits2_pos_unique m2 53)
    by (lia || (change (53 - 1) with 52; lia)).
  replace (Z.min (fexp Float.prec Float.emax (53 + e1 - (53 + e2))) (e1 - e2)) with (e1 - e2 - 53)
    by (unfold fexp, emin, Float.prec, Float.emax; lia).
  replace (e1 - e2 - (e1 - e2 - 53)) with 53 by lia.
  rewrite Z.shiftl_mul_pow2 by lia.
  pose proof (Z_div_mod (Zpos m1 * 2 ^ 53) (Zpos m2) ltac:(lia)) as Hdiv.
  destruct (Z.div_eucl (Zpos m1 * 2 ^ 53) (Zpos m2)) as [q r].
  destruct Hdiv as [Hdiv Hr].
  assert (Hq : 2 ^ 52 <= q < 2 ^ 54) by nia.
  destruct q as [|qp|qp]; try lia.
  destruct (binary_round_aux_bracket qp (e1 - e2 - 53) (new_location (Zpos m2) r) r (Zpos m2))
    as (m & k & Heq & Hk & Hm & Hb);
    [exact Hq | apply new_location_spec; lia | lia | lia |].
  exists m, k. split; [exact Heq|]. split; [exact Hk|]. split; [exact Hm|].
  rewrite Hdiv. replace (Zpos m2 * Zpos qp + r) with (Zpos qp * Zpos m2 + r) by lia.
  exact Hb.
Qed.

Lemma SFleb_lit m e :
  SFleb Float.lit_0_15 (S754_finite false m e)
  = match -55 ?= e with
    | Lt => true
    | Gt => false
    | Eq => (5404319552844595 <=? Zpos m)
    end.
Proof.
  unfold SFleb, Float.lit_0_15, SFcompare. destruct (-55 ?= e); reflexivity.
Qed.

(** On integers below [2^53] and [2^51], the float test
    [d / a >= 0.15] is the exact test [d / a >= 3 / 20]. *)
Lemma truediv_ge_0_15 d a :
  0 <= d < 2 ^ 53 -> 0 < a < 2 ^ 51 ->
  Float.ge (Float.truediv d a) Float.lit_0_15 = (3 * a <=? 20 * d).
Proof.
  intros Hd Ha. unfold Float.ge, Float.truediv.
  assert (Ha53 : 0 < a < 2 ^ 53) by lia.
  destruct (of_int_exact a Ha53) as (m2 & e2 & -> & He2 & Hm2 & Hv2).
  destruct (Z.eq_dec d 0) as [->|Hd0].
  - (* 0 / a = 0.0 *)
    unfold Float.of_int, binary_normalize. cbn [SFdiv xorb]. unfold SFleb, Float.lit_0_15.
    cbn [SFcompare]. symmetry. apply Z.leb_gt. lia.
  - assert (Hd53 : 0 < d < 2 ^ 53) by lia.
    destruct (of_int_exact d Hd53) as (m1 & e1 & -> & He1 & Hm1 & Hv1).
    destruct (SFdiv_bracket m1 e1 m2 e2 Hm1 Hm2 He1 He2) as (m & k & -> & Hk & Hm & Hb).
    rewrite SFleb_lit. rewrite Hv1, Hv2 in Hb.
    set (u := - e1) in *. set (v := - e2) in *.
    assert (Hu : 0 <= u <= 52) by (subst u; lia).
    assert (Hv : 0 <= v <= 52) by (subst v; lia).
    replace (e1 - e2 - 53 + k) with (v + k - u - 53) by (subst u v; lia).
    set (P := 2 ^ k * 2 ^ v).
    assert (HP : 0 < P) by (subst P; apply Z.mul_pos_pos; apply Z.pow_pos_nonneg; lia).
    assert (Hlo : (2 * Zpos m - 1) * a * P <= d * 2 ^ 54 * 2 ^ u).
    { change (2 ^ 54) with (2 * 2 ^ 53). subst P. nia. }
    assert (Hhi : d * 2 ^ 54 * 2 ^ u <= (2 * Zpos m + 1) * a * P).
    { change (2 ^ 54) with (2 * 2 ^ 53). subst P. nia. }
    clear Hb Hv1 Hv2.
    destruct (Z.compare_spec (-55) (v + k - u - 53)) as [He|He|He].
    + (* the same exponent as the literal *)
      assert (Hpu : 2 ^ u = 4 * P).
      { replace u with (2 + (k + v)) by lia. subst P.
        rewrite !Z.pow_add_r by lia. reflexivity. }
      rewrite Hpu in Hlo, Hhi.
      assert (Hlo' : (2 * Zpos m - 1) * a <= d * 2 ^ 56).
      { apply (Z.mul_le_mono_pos_r _ _ P HP). change (2 ^ 56) with (2 ^ 54 * 4). nia. }
      assert (Hhi' : d * 2 ^ 56 <= (2 * Zpos m + 1) * a).
      { apply (Z.mul_le_mono_pos_r _ _ P HP). change (2 ^ 56) with (2 ^ 54 * 4). nia. }
      clear Hlo Hhi Hpu.
      destruct (Z.leb_spec 5404319552844595 (Zpos m)) as [Hc|Hc];
        symmetry; [apply Z.leb_le | apply Z.leb_gt]; nia.
    + (* a larger exponent *)
      assert (Hpu : 2 ^ u <= 2 * P).
      { subst P. replace (2 * (2 ^ k * 2 ^ v)) with (2 ^ (1 + (k + v)))
          by (rewrite !Z.pow_add_r by lia; reflexivity).
        apply Z.pow_le_mono_r; lia. }
      assert (Hlo' : (2 * Zpos m - 1) * a <= d * 2 ^ 55).
      { apply (Z.mul_le_mono_pos_r _ _ P HP). change (2 ^ 55) with (2 ^ 54 * 2). nia. }
      symmetry. apply Z.leb_le. nia.
    + (* a smaller exponent *)
      assert (Hpu : 8 * P <= 2 ^ u).
      { subst P. replace (8 * (2 ^ k * 2 ^ v)) with (2 ^ (3 + (k + v)))
          by (rewrite !Z.pow_add_r by lia; reflexivity).
        apply Z.pow_le_mono_r; lia. }
      assert (Hhi' : d * 2 ^ 57 <= (2 * Zpos m + 1) * a).
      { apply (Z.mul_le_mono_pos_r _ _ P HP). change (2 ^ 57) with (2 ^ 54 * 8). nia. }
      symmetry. apply Z.leb_gt. nia.
Qed.

Example gate_boundary : Float.ge (Float.truediv 3 20) Float.lit_0_15 = true /\ Float.ge (Float.truediv 149 1000) Float.lit_0_15 = false.
Proof. split; reflexivity. Qed.

(** ** Output names *)

Example to_output_name_under_root :
  _to_output_name (Pathlib.resolve [str "home"]) [str "home"; str "data"] (str "data/a/b.pdf")
  = Ok (str "a--b").
Proof. reflexivity. Qed.

Example to_output_name_outside_root :
  _to_output_name (Pathlib.resolve [str "home"]) [str "home"; str "data"] (str "/tmp/x/report.v2.pdf")
  = Ok (str "report.v2").
Proof. reflexivity. Qed.

(** A name with an embedded null character cannot be resolved, and the
    output name is the stem. *)
Example to_output_name_null_character :
  _to_output_name (Pathlib.resolve [str "home"]) [str "home"; str "data"]
    (str "data/x/a" ++ [0%N] ++ str "b.pdf")
  = Ok (str "a" ++ [0%N] ++ str "b").
Proof. reflexivity. Qed.

Lemma replace_plain c : ~ In SLASH c -> replace SLASH [DASH; DASH] c = c.
Proof.
  induction c as [|x c IH]; intros H; [reflexivity|].
  cbn [replace]. destruct (N.eqb_spec x SLASH) as [->|Hx].
  - exfalso. apply H. now left.
  - cbn. f_equal. apply IH. intros Hin. apply H. now right.
Qed.

Lemma replace_app a b :
  replace SLASH [DASH; DASH] (a ++ b)
  = replace SLASH [DASH; DASH] a ++ replace SLASH [DASH; DASH] b.
Proof.
  induction a as [|x a IH]; [reflexivity|].
  cbn [replace app]. rewrite IH. now rewrite <- app_assoc.
Qed.

(** Replacing the slashes of a joined path joins it with double dashes. *)
Lemma replace_join ps :
  Forall (fun c => ~ In SLASH c) ps ->
  replace SLASH [DASH; DASH] (join [SLASH] ps) = join [DASH; DASH] ps.
Proof.
  induction 1 as [|c ps Hc Hps IH]; [reflexivity|].
  destruct ps as [|d ps]; cbn [join].
  - now apply replace_plain.
  - rewrite !replace_app, (replace_plain c Hc). cbn [join] in IH. rewrite IH.
    reflexivity.
Qed.

Lemma replace_to_str ps :
  ps <> [] -> Forall (fun c => ~ In SLASH c) ps ->
  replace SLASH [DASH; DASH] (Pathlib.to_str ps) = join [DASH; DASH] ps.
Proof.
  intros Hne Hps. unfold Pathlib.to_str. destruct ps; [congruence|].
  now apply replace_join.
Qed.

Lemma app_dash_inj (p q r1 r2 : pystr) :
  ~ In DASH p -> ~ In DASH q ->
  (r1 = [] \/ exists t, r1 = DASH :: t) ->
  (r2 = [] \/ exists t, r2 = DASH :: t) ->
  p ++ r1 = q ++ r2 -> p = q /\ r1 = r2.
Proof.
  revert q. induction p as [|x p IH]; intros q Hp Hq H1 H2 Heq.
  - destruct q as [|y q]; [auto|]. exfalso. cbn in Heq.
    destruct H1 as [->|[t ->]]; [discriminate|].
    injection Heq as <- _. apply Hq. now left.
  - destruct q as [|y q].
    + exfalso. cbn in Heq. destruct H2 as [->|[t ->]]; [discriminate|].
      injection Heq as -> _. apply Hp. now left.
    + cbn in Heq. injection Heq as -> Heq.
      destruct (IH q) as [-> ->]; auto.
      * intros Hin. apply Hp. now right.
      * intros Hin. apply Hq. now right.
Qed.

Lemma join_cons sep c ps :
  join sep (c :: ps) = c ++ match ps with [] => [] | _ => sep ++ join sep ps end.
Proof. destruct ps; cbn [join]; [now rewrite app_nil_r | reflexivity]. Qed.

(** Joining with double dashes is injective on components without dash. *)
Lemma join_dash_inj ps qs :
  Forall (fun c => ~ In DASH c) ps -> Forall (fun c => ~ In DASH c) qs ->
  ps <> [] -> qs <> [] ->
  join [DASH; DASH] ps = join [DASH; DASH] qs -> ps = qs.
Proof.
  intros Hps. revert qs. induction Hps as [|c ps Hc Hps IH]; intros qs Hqs Hn1 Hn2 Heq;
    [congruence|].
  destruct Hqs as [|d qs Hd Hqs]; [congruence|].
  rewrite !join_cons in Heq.
  apply app_dash_inj in Heq as [-> Htail]; try assumption.
  - destruct ps as [|c' ps], qs as [|d' qs]; try discriminate; [reflexivity|].
    f_equal. cbn [app] in Htail. injection Htail as Htail.
    apply IH; [exact Hqs | discriminate | discriminate | exact Htail].
  - destruct ps; [now left | right; eexists; reflexivity].
  - destruct qs; [now left | right; eexists; reflexivity].
Qed.

Lemma plain_firstn n c : plain c -> plain (firstn n c).
Proof.
  intros [H1 H2]. split; intros Hin; [apply H1 | apply H2];
    rewrite <- (firstn_skipn n c); apply in_or_app; now left.
Qed.

Lemma plain_stem c : plain c -> plain (Pathlib.stem_of_name c).
Proof.
  intros H. unfold Pathlib.stem_of_name.
  destruct (Pathlib.suffix_start c); [now apply plain_firstn | exact H].
Qed.

Lemma Forall_removelast {A} (P : A -> Prop) (l : list A) :
  Forall P l -> Forall P (removelast l).
Proof.
  induction 1 as [|x l Hx Hl IH]; [constructor|].
  destruct l; [constructor | cbn [removelast]; constructor; assumption].
Qed.

Lemma Forall_last {A} (P : A -> Prop) (l : list A) d :
  Forall P l -> P d -> P (List.last l d).
Proof.
  induction 1 as [|x l Hx Hl IH]; intros Hd; [exact Hd|].
  destruct l; [exact Hx | apply IH, Hd].
Qed.

Section OutputNameFacts.

Variable resolve : Pathlib.Path -> Res (list pystr).
Variable DATA_DIR : list pystr.
Local Abbreviation to_output_name := (_to_output_name resolve DATA_DIR).
Local Abbreviation relative := (resolved_relative resolve DATA_DIR).

(** The output name of a path under the data root whose relative
    components are plain. *)
Lemma to_output_name_under_root_eq pdf rel rel' :
  relative pdf = Ok rel ->
  Pathlib.with_suffix_empty rel = Ok rel' ->
  Forall plain rel ->
  to_output_name pdf = Ok (join [DASH; DASH] rel') /\ Forall plain rel' /\ rel' <> [].
Proof.
  intros Hrel Hsuf Hplain. unfold _to_output_name. rewrite Hrel, Hsuf.
  unfold Pathlib.with_suffix_empty in Hsuf.
  destruct (Pathlib.name rel) as [|x nm] eqn:Hname; [discriminate|].
  injection Hsuf as <-.
  assert (Hp' : Forall plain (removelast rel ++ [Pathlib.stem_of_name (x :: nm)])).
  { apply Forall_app. split; [now apply Forall_removelast|].
    constructor; [|constructor]. apply plain_stem. rewrite <- Hname.
    unfold Pathlib.name. destruct rel as [|c rel]; [discriminate|].
    apply Forall_last; [exact Hplain|]. now inversion Hplain. }
  split; [|split; [exact Hp'|]].
  - f_equal. apply replace_to_str; [now destruct (removelast rel)|].
    eapply List.Forall_impl; [|exact Hp']. now intros c [H _].
  - now destruct (removelast rel).
Qed.

(** C9, as amended. The output name is a function of the path and of what
    the path resolves to: for a path that resolves under the data root, to
    relative components that hold neither slash nor dash, it is these
    components, the last one without its extension, joined by double
    dashes; for a path that resolves outside the root, or that [resolve]
    rejects with [ValueError], it is the stem of the file name. Two paths of
    the first kind with the same output name resolve to the same path
    relative to the root, up to the dropped extension. *)
Theorem output_name_injective_on_plain_paths pdf1 pdf2 rel1 rel2 rel1' rel2' :
  relative pdf1 = Ok rel1 -> relative pdf2 = Ok rel2 ->
  Pathlib.with_suffix_empty rel1 = Ok rel1' ->
  Pathlib.with_suffix_empty rel2 = Ok rel2' ->
  Forall plain rel1 -> Forall plain rel2 ->
  to_output_name pdf1 = Ok (join [DASH; DASH] rel1')
  /\ to_output_name pdf2 = Ok (join [DASH; DASH] rel2')
  /\ (to_output_name pdf1 = to_output_name pdf2 -> rel1' = rel2')
  /\ (forall pdf, relative pdf = Raise ValueError ->
        to_output_name pdf = Ok (Pathlib.stem (Pathlib.parse pdf))).
Proof.
  intros Hr1 Hr2 Hs1 Hs2 Hp1 Hp2.
  destruct (to_output_name_under_root_eq pdf1 rel1 rel1' Hr1 Hs1 Hp1) as (E1 & P1 & N1).
  destruct (to_output_name_under_root_eq pdf2 rel2 rel2' Hr2 Hs2 Hp2) as (E2 & P2 & N2).
  split; [exact E1|]. split; [exact E2|]. split.
  - rewrite E1, E2. intros [= Heq].
    apply join_dash_inj in Heq; try assumption.
    + eapply List.Forall_impl; [|exact P1]. now intros c [_ H].
    + eapply List.Forall_impl; [|exact P2]. now intros c [_ H].
  - intros pdf Hrel. unfold _to_output_name. now rewrite Hrel.
Qed.

End OutputNameFacts.

(** C9, as stated, fails: two distinct paths under the data root get the
    same output name when a file name holds the separator. *)
Lemma output_name_collision :
  str "data/a/b.pdf" <> str "data/a--b.pdf"
  /\ _to_output_name Scenario.resolve Scenario.DATA_DIR (str "data/a/b.pdf")
     = _to_output_name Scenario.resolve Scenario.DATA_DIR (str "data/a--b.pdf").
Proof. split; [discriminate | reflexivity]. Qed.

Lemma output_name_injective_on_plain_paths_witness :
  _to_output_name Scenario.resolve Scenario.DATA_DIR (str "data/a/b.pdf")
  = Ok (join [DASH; DASH] [str "a"; str "b"]).
Proof.
  apply (output_name_injective_on_plain_paths Scenario.resolve Scenario.DATA_DIR
           (str "data/a/b.pdf") (str "data/c.pdf")
           [str "a"; str "b.pdf"] [str "c.pdf"] [str "a"; str "b"] [str "c"]
           eq_refl eq_refl eq_refl eq_refl).
  - repeat constructor; vm_compute; intuition discriminate.
  - repeat constructor; vm_compute; intuition discriminate.
Defined.

Section Logic.

Context {Image Obj : Type}.
Implicit Types w : @World Image Obj.

Lemma wp_ret {A} (a : A) Q w : wp (ret a) Q w = Q (Ok a) w.
Proof. reflexivity. Qed.

Lemma wp_bind {A B} (m : M A) (k : A -> M B) Q w :
  wp (m ≫= k) Q w =
  wp m (fun r w' => match r with
                    | Ok a => wp (k a) Q w'
                    | Raise e => Q (Raise e) w'
                    end) w.
Proof.
  unfold wp, mbind, M_bind, bind. destruct (m w) as [[a|e] w']; reflexivity.
Qed.

Lemma wp_raise {A} e Q w : wp (raise (A := A) e) Q w = Q (Raise e) w.
Proof. reflexivity. Qed.

Lemma wp_lift {A} (r : Res A) Q w : wp (lift r) Q w = Q r w.
Proof. reflexivity. Qed.

Lemma wp_modify f Q w : wp (modify f) Q w = Q (Ok tt) (f w).
Proof. reflexivity. Qed.

Lemma wp_gets {A} (g : World -> A) Q w : wp (gets g) Q w = Q (Ok (g w)) w.
Proof. reflexivity. Qed.

Lemma wp_emit e Q w : wp (emit e) Q w = Q (Ok tt) (add_event e w).
Proof. reflexivity. Qed.

Lemma wp_attempt {A} (m : M A) Q w :
  wp (attempt m) Q w = wp m (fun r w' => Q (Ok r) w') w.
Proof. unfold wp, attempt. destruct (m w); reflexivity. Qed.

Lemma wp_try_except {A} (body : M A) handler Q w :
  wp (try_except body handler) Q w =
  wp body (fun r w' => match r with
                       | Ok a => Q (Ok a) w'
                       | Raise e => wp (handler e) Q w'
                       end) w.
Proof. unfold wp, try_except. destruct (body w) as [[a|e] w']; reflexivity. Qed.

Lemma wp_try_finally {A} (body : M A) final Q w :
  wp (try_finally body final) Q w =
  wp body (fun r w' =>
    wp final (fun r2 w'' => match r2 with
                            | Ok _ => Q r w''
                            | Raise e => Q (Raise e) w''
                            end) w') w.
Proof.
  unfold wp, try_finally. destruct (body w) as [r w'].
  simpl. destruct (final w') as [[u|e] w'']; reflexivity.
Qed.

Lemma wp_mono {A} (m : M A) (Q Q' : Res A -> World -> Prop) w :
  wp m Q w -> (forall r w', Q r w' -> Q' r w') -> wp m Q' w.
Proof. unfold wp. auto. Qed.

Lemma wp_run {A} (m : M A) Q w r w' : m w = (r, w') -> wp m Q w -> Q r w'.
Proof. unfold wp. intros ->. auto. Qed.

(** *** Invariants *)

Section Preserves.

Variable I : @World Image Obj -> Prop.

Lemma preserves_wp {A} (m : M A) w :
  preserves I m -> I w -> wp m (fun _ w' => I w') w.
Proof. unfold preserves, wp. auto. Qed.

Lemma preserves_ret {A} (a : A) : preserves I (ret a).
Proof. intros w H. exact H. Qed.

Lemma preserves_raise {A} e : preserves I (raise (A := A) e).
Proof. intros w H. exact H. Qed.

Lemma preserves_lift {A} (r : Res A) : preserves I (lift r).
Proof. intros w H. exact H. Qed.

Lemma preserves_gets {A} (g : World -> A) : preserves I (gets g).
Proof. intros w H. exact H. Qed.

Lemma preserves_modify f : (forall w, I w -> I (f w)) -> preserves I (modify f).
Proof. intros Hf w H. apply Hf, H. Qed.

Lemma preserves_emit e : (forall w, I w -> I (add_event e w)) -> preserves I (emit e).
Proof. apply preserves_modify. Qed.

Lemma preserves_bind {A B} (m : M A) (k : A -> M B) :
  preserves I m -> (forall a, preserves I (k a)) -> preserves I (m ≫= k).
Proof.
  intros Hm Hk w H. unfold mbind, M_bind, bind.
  specialize (Hm w H). destruct (m w) as [[a|e] w']; simpl in *.
  - apply Hk, Hm.
  - exact Hm.
Qed.

Lemma preserves_attempt {A} (m : M A) : preserves I m -> preserves I (attempt m).
Proof.
  intros Hm w H. unfold attempt. specialize (Hm w H).
  destruct (m w); exact Hm.
Qed.

Lemma preserves_try_except {A} (body : M A) handler :
  preserves I body -> (forall e, preserves I (handler e)) ->
  preserves I (try_except body handler).
Proof.
  intros Hb Hh w H. unfold try_except. specialize (Hb w H).
  destruct (body w) as [[a|e] w']; simpl in *; [exact Hb | apply Hh, Hb].
Qed.

Lemma preserves_try_finally {A} (body : M A) final :
  preserves I body -> preserves I final -> preserves I (try_finally body final).
Proof.
  intros Hb Hf w H. unfold try_finally. specialize (Hb w H).
  destruct (body w) as [r w']. simpl in Hb. specialize (Hf w' Hb).
  destruct (final w') as [[u|e] w'']; exact Hf.
Qed.

End Preserves.

End Logic.

Lemma preserves_bind_lift {Image Obj A B} (I : @World Image Obj -> Prop)
    (r : Res A) (k : A -> M B) :
  (forall a, r = Ok a -> preserves I (k a)) -> preserves I (lift r ≫= k).
Proof.
  intros Hk w H. unfold mbind, M_bind, bind, lift.
  destruct r as [a|e]; simpl; [apply (Hk a eq_refl), H | exact H].
Qed.

Lemma since_emit {Image Obj} t0 (P : list (@Event Image) -> Prop) e
    (w : @World Image Obj) :
  (forall evs, P evs -> P (evs ++ [e])) -> since t0 P w -> since t0 P (add_event e w).
Proof.
  intros HP (evs & Ht & Hevs). exists (evs ++ [e]). split; [|auto].
  simpl. rewrite Ht. now rewrite <- app_assoc.
Qed.

Lemma since_silent {Image Obj} t0 (P : list (@Event Image) -> Prop)
    (w w' : @World Image Obj) :
  trace w' = trace w -> since t0 P w -> since t0 P w'.
Proof. intros Ht (evs & H & HP). exists evs. split; [congruence | exact HP]. Qed.

Lemma since_start {Image Obj} (P : list (@Event Image) -> Prop) (w : @World Image Obj) :
  P [] -> since (trace w) P w.
Proof. intros H. exists []. split; [now rewrite app_nil_r | exact H]. Qed.

Lemma since_weaken {Image Obj} t0 (P P' : list (@Event Image) -> Prop)
    (w : @World Image Obj) :
  (forall evs, P evs -> P' evs) -> since t0 P w -> since t0 P' w.
Proof. intros HP (evs & H & Hevs). exists evs. auto. Qed.

(** One step through the structure of a program, for a goal
    [preserves I m]. *)
Ltac pres_step :=
  lazymatch goal with
  | |- preserves _ (ret _) => apply preserves_ret
  | |- preserves _ (raise _) => apply preserves_raise
  | |- preserves _ (lift _) => apply preserves_lift
  | |- preserves _ (gets _) => apply preserves_gets
  | |- preserves _ (lift _ ≫= _) =>
      let H := fresh "Hlift" in
      apply preserves_bind_lift; intros ? H;
      try (injection H as <-)
  | |- preserves _ (_ ≫= _) => apply preserves_bind; [| intros ?]
  | |- preserves _ (attempt _) => apply preserves_attempt
  | |- preserves _ (try_except _ _) => apply preserves_try_except; [| intros ?]
  | |- preserves _ (try_finally _ _) => apply preserves_try_finally
  | |- preserves _ (emit _) => apply preserves_emit; intros ? ?
  | |- preserves _ (modify _) => apply preserves_modify; intros ? ?
  | |- preserves _ (if ?b then _ else _) => destruct b eqn:?
  | |- preserves _ (match ?x with _ => _ end) => destruct x eqn:?
  end.

(** The helpers that are straight-line code over the primitives. *)
Ltac unfold_helpers :=
  unfold file_cleanup, unlink_if_exists;
  unfold _log, _save_progress, _free_memory, time_now, fs_exists, fs_open_w,
    fs_write, fs_rename, fs_unlink, _tesseract_ocr,
    _chandra_ocr, get_chandra, get_counts, mlx_load_call.

(** A change of the world that leaves the trace alone. *)
Ltac silent := (eapply since_silent; [|eassumption]); reflexivity.

(** Straight-line code keeps an invariant on the new events when every
    event it emits is harmless, which [Hemit] shows. *)
Ltac pres_by Hemit :=
  unfold_helpers;
  repeat (pres_step; try silent;
          try (apply Hemit;
               [first [exact Logic.I | reflexivity | simpl; auto] | assumption])).

(** Symbolic execution of straight-line code; [tac] rewrites the outcomes
    of the collaborators' calls. *)
Ltac wp_run tac :=
  repeat (progress
    (rewrite ?wp_bind, ?wp_lift, ?wp_gets, ?wp_modify, ?wp_emit, ?wp_ret,
       ?wp_raise, ?wp_try_except, ?wp_try_finally, ?wp_attempt;
     tac; cbv beta iota)).

(** [wp_seq tac]: the first command of a sequence keeps an invariant,
    which [tac] proves; the invariant is the postcondition when it raises. *)
Ltac wp_seq tac :=
  rewrite wp_bind; eapply wp_mono;
  [ apply preserves_wp; [tac | eassumption]
  | let H := fresh "HI" in
    intros [?|?] ? H; [| first [exact H | exact Logic.I]] ].

Section PipelineFacts.

Variable isalpha isspace : pychar -> bool.
Variable resolve : Pathlib.Path -> Res (list pystr).
Variable DATA_DIR : list pystr.
Context {Image Obj : Type}.
Variable env : @Env Image Obj.
Implicit Types w : @World Image Obj.
Implicit Types doc : @Doc Image.

Local Abbreviation to_output_name := (_to_output_name resolve DATA_DIR).
Local Abbreviation render_page := (_render_page (Obj := Obj) isalpha isspace).
Local Abbreviation ocr_image := (ocr_image isalpha env).
Local Abbreviation ocr_page := (ocr_page isalpha env).
Local Abbreviation load_chandra := (_load_chandra env).
Local Abbreviation submit := (submit isalpha isspace env).
Local Abbreviation future_result := (future_result (Obj := Obj) isalpha isspace).
Local Abbreviation page_loop := (page_loop isalpha isspace env).
Local Abbreviation ocr_one_file := (_ocr_one_file isalpha isspace resolve DATA_DIR env).
Local Abbreviation batch_step := (batch_step isalpha isspace resolve DATA_DIR env).
Local Abbreviation batch_loop := (batch_loop isalpha isspace resolve DATA_DIR env).
Local Abbreviation partition_files := (partition_files (Image := Image) (Obj := Obj) resolve DATA_DIR).
Local Abbreviation run_ocr := (_run_ocr isalpha isspace resolve DATA_DIR env).

(** ** Pages with an embedded text layer *)

Section PageEvents.

Variable doc : @Doc Image.
Variable t0 : list (@Event Image).
Local Abbreviation ok := (page_event_ok isalpha doc).
Local Abbreviation Inv := (since (Obj := Obj) t0 (Forall ok)).

Lemma ok_emit e w : ok e -> Inv w -> Inv (add_event e w).
Proof.
  intros He. apply since_emit. intros evs H. apply Forall_app. split; [exact H|].
  constructor; [exact He | constructor].
Qed.

Ltac pres := pres_by ok_emit.

Lemma load_chandra_page_events : preserves Inv load_chandra.
Proof. unfold _load_chandra. pres. Qed.

Local Abbreviation unit_ok := (unit_ok isalpha doc).
Local Abbreviation future_ok := (future_ok isalpha doc).

Lemma render_page_events p w :
  Inv w -> wp (render_page doc p) (fun r w' => Inv w' /\ forall u, r = Ok u -> unit_ok u) w.
Proof.
  intros HI. unfold _render_page, doc_getitem.
  rewrite wp_bind, wp_lift.
  destruct (doc_pages doc !! p) as [page|] eqn:Hp; [|split; [exact HI | discriminate]].
  rewrite wp_bind, wp_emit, wp_bind, wp_lift.
  assert (HI1 : Inv (add_event (EvGetText p) w)) by (apply ok_emit; [exact Logic.I | exact HI]).
  destruct (page_text page) as [text|e] eqn:Ht; [|split; [exact HI1 | discriminate]].
  destruct (NATIVE_TEXT_THRESHOLD <=? alpha_count isalpha text) eqn:Hc.
  - rewrite wp_ret. split; [exact HI1|]. intros u [= <-]. exact Logic.I.
  - apply Z.leb_gt in Hc.
    assert (Hr : rendered_page isalpha doc p page) by (split; [exact Hp | eauto]).
    rewrite wp_bind, wp_emit, wp_bind, wp_lift.
    assert (HI2 : Inv (add_event (EvRender p) (add_event (EvGetText p) w)))
      by (apply ok_emit; [simpl; eauto | exact HI1]).
    destruct (page_image page) as [img|e] eqn:Hi; [|split; [exact HI2 | discriminate]].
    rewrite wp_ret. split; [exact HI2|]. intros u [= <-]. simpl. eauto.
Qed.

Lemma submit_events p w :
  Inv w -> wp (submit doc p) (fun r w' => Inv w' /\ forall f, r = Ok f -> future_ok f) w.
Proof.
  intros HI. unfold submit.
  rewrite wp_bind, wp_emit.
  assert (HI1 : Inv (add_event (EvSubmit p) w)) by (apply ok_emit; [exact Logic.I | exact HI]).
  destruct (worker_eager env p).
  - rewrite wp_bind, wp_attempt.
    eapply wp_mono; [apply render_page_events, HI1|].
    intros r w' [HI' Hu]. rewrite wp_ret. split; [exact HI'|].
    intros f [= <-]. exact Hu.
  - rewrite wp_ret. split; [exact HI1|]. intros f [= <-]. reflexivity.
Qed.

Lemma future_result_events f w :
  Inv w -> future_ok f ->
  wp (future_result f) (fun r w' => Inv w' /\ forall u, r = Ok u -> unit_ok u) w.
Proof.
  intros HI Hf. destruct f as [r|d p]; simpl in *.
  - rewrite wp_lift. split; [exact HI | exact Hf].
  - subst d. apply render_page_events, HI.
Qed.

Lemma ocr_page_events u : unit_ok u -> preserves Inv (ocr_page u).
Proof.
  intros Hu. destruct u as [[image|] native_text]; simpl in Hu |- *.
  - unfold ocr_image. unfold_helpers.
    repeat first
      [ apply load_chandra_page_events
      | pres_step; try silent;
        try (apply ok_emit; [first [exact Logic.I | exact Hu] | assumption]) ].
  - pres.
Qed.

Lemma page_loop_events tmp_path display_name done_count idx total errors
    file_start avg pipeline_start recent_files remaining p_idx f w :
  Inv w -> future_ok f ->
  Inv (snd (page_loop doc tmp_path display_name done_count idx total errors
              file_start avg pipeline_start recent_files remaining p_idx f w)).
Proof.
  revert p_idx f w. induction remaining as [|n IH]; intros p_idx f w HI Hf; [exact HI|].
  change (wp (page_loop doc tmp_path display_name done_count idx total errors
            file_start avg pipeline_start recent_files (S n) p_idx f) (fun _ w' => Inv w') w).
  cbn [page_loop].
  wp_seq pres. wp_seq pres. wp_seq pres.
  rewrite wp_bind. eapply wp_mono; [apply future_result_events; [eassumption | exact Hf]|].
  intros [u|e] w4 [HI4 Hu]; [|exact HI4]. specialize (Hu u eq_refl).
  rewrite wp_bind.
  eapply wp_mono with (Q := fun r w' => Inv w' /\ forall f', r = Ok f' -> future_ok f').
  { destruct (p_idx + 1 <? num_pages doc)%nat.
    - apply submit_events, HI4.
    - rewrite wp_ret. split; [exact HI4|]. intros f' [= <-]. exact Hf. }
  intros [f'|e] w5 [HI5 Hf']; [|exact HI5]. specialize (Hf' f' eq_refl).
  rewrite wp_bind.
  eapply wp_mono; [apply preserves_wp; [apply ocr_page_events, Hu | exact HI5]|].
  intros [[md tag]|e] w6 HI6; [|exact HI6].
  wp_seq pres. wp_seq pres. wp_seq pres. wp_seq pres. wp_seq pres.
  apply IH; assumption.
Qed.

End PageEvents.

Lemma file_body_page_events doc unique_name display_name done_count idx pending_len
    total errors file_start avg pipeline_start recent_files t0 :
  preserves (since t0 (Forall (page_event_ok isalpha doc)))
    (file_body isalpha isspace env doc unique_name display_name done_count idx
       pending_len total errors file_start avg pipeline_start recent_files).
Proof.
  pose proof (ok_emit doc t0) as Hemit.
  intros w HI.
  change (wp (file_body isalpha isspace env doc unique_name display_name done_count idx
       pending_len total errors file_start avg pipeline_start recent_files)
       (fun _ w' => since t0 (Forall (page_event_ok isalpha doc)) w') w).
  unfold file_body.
  wp_seq ltac:(pres_by Hemit). wp_seq ltac:(pres_by Hemit). wp_seq ltac:(pres_by Hemit).
  rewrite wp_bind. eapply wp_mono; [apply submit_events; eassumption|].
  intros [f|e] w1 [Hw1 Hf]; [|exact Hw1]. specialize (Hf f eq_refl).
  rewrite wp_bind.
  eapply wp_mono with (Q := fun _ w' => since t0 (Forall (page_event_ok isalpha doc)) w').
  { apply page_loop_events; assumption. }
  intros [[]|e] w2 Hw2; [|exact Hw2].
  apply preserves_wp; [|exact Hw2]. pres_by Hemit.
Qed.

Lemma ocr_one_file_page_events pdf done_count idx pending_len total errors avg
    pipeline_start recent_files doc t0 :
  pdf_document env pdf = Ok doc ->
  preserves (since t0 (Forall (page_event_ok isalpha doc)))
    (ocr_one_file pdf done_count idx pending_len total errors avg pipeline_start
       recent_files).
Proof.
  intros Hdoc. unfold _ocr_one_file. rewrite Hdoc.
  pose proof (ok_emit doc t0) as Hemit.
  unfold file_cleanup. unfold_helpers.
  repeat first
    [ apply file_body_page_events
    | pres_step; try silent; try (apply Hemit; [exact Logic.I | assumption]) ].
Qed.

(** C2. A page whose embedded text has at least 50 alphabetic characters
    is extracted as [(None, text.strip())] after reading the text layer
    only, and the page loop passes that text on with the tag [txt] without
    any event. Over a whole file, every render event and every image given
    to the fast or the fallback engine belongs to a page whose embedded text
    has fewer than 50 alphabetic characters; in particular such a page is
    never rendered. *)
Theorem native_text_shortcut doc p page text :
  doc_pages doc !! p = Some page ->
  page_text page = Ok text ->
  NATIVE_TEXT_THRESHOLD <= alpha_count isalpha text ->
  (forall w, render_page doc p w
             = (Ok (None, strip isspace text), add_event (EvGetText p) w))
  /\ (forall w, ocr_page (None, strip isspace text) w
                = (Ok (strip isspace text, txt), set_counts incr_txt w))
  /\ (forall pdf done_count idx pending_len total errors avg pipeline_start
              recent_files w,
        pdf_document env pdf = Ok doc ->
        since (trace w)
          (fun evs => Forall (page_event_ok isalpha doc) evs /\ ~ In (EvRender p) evs)
          (snd (ocr_one_file pdf done_count idx pending_len total errors avg
                  pipeline_start recent_files w))).
Proof.
  intros Hp Ht Hc. split; [|split].
  - intros w. unfold _render_page, doc_getitem. rewrite Hp.
    unfold mbind, M_bind, bind, lift, emit, modify. simpl. rewrite Ht.
    apply Z.leb_le in Hc. rewrite Hc. reflexivity.
  - reflexivity.
  - intros pdf done_count idx pending_len total errors avg pipeline_start
      recent_files w Hdoc.
    eapply since_weaken;
      [| apply (ocr_one_file_page_events _ _ _ _ _ _ _ _ _ _ _ Hdoc), since_start;
         constructor].
    intros evs Hall. split; [exact Hall|].
    intros Hin. rewrite List.Forall_forall in Hall. apply Hall in Hin.
    destruct Hin as (page' & Hp' & text' & Ht' & Hlt).
    rewrite Hp in Hp'. injection Hp' as <-. rewrite Ht in Ht'. injection Ht' as <-.
    lia.
Qed.

(** ** Running straight-line code *)

Lemma run_bind {A B} (m : M A) (k : A -> M B) w :
  (m ≫= k) w = match m w with
               | (Ok a, w') => k a w'
               | (Raise e, w') => (Raise e, w')
               end.
Proof. reflexivity. Qed.

(** Running the primitives at the head of a sequence. *)
Ltac run_go :=
  repeat first [ rewrite run_bind | progress cbn [lift gets modify emit ret raise] ].

Lemma md_tmp_distinct (a b : pystr) : md_name a <> tmp_name b.
Proof.
  unfold md_name, tmp_name. intros H.
  apply (f_equal (@rev _)) in H. rewrite !rev_app_distr in H.
  vm_compute (rev (str ".md")) in H. vm_compute (rev (str ".md.tmp")) in H.
  simpl in H. discriminate.
Qed.

(** C10. For a document without pages the file processor returns 0 and
    leaves an empty artifact at the final path and nothing at the temporary
    path. The extraction of page 0 is submitted all the same, before the
    loop: it raises, under either schedule of the worker, and the exception
    stays in the future, which nothing awaits. *)
Theorem zero_page_document pdf unique_name doc done_count idx pending_len total errors
    avg pipeline_start recent_files w :
  to_output_name pdf = Ok unique_name ->
  pdf_document env pdf = Ok doc ->
  doc_init_forms doc = Ok tt ->
  doc_pages doc = [] ->
  let r := ocr_one_file pdf done_count idx pending_len total errors avg
             pipeline_start recent_files w in
  fst r = Ok 0
  /\ fs (snd r) !! md_name unique_name = Some []
  /\ fs (snd r) !! tmp_name unique_name = None
  /\ trace (snd r) = trace w ++
       [ EvOpenDoc pdf;
         EvLog (LogFile idx pending_len (done_count + idx) total (display_name_of pdf) 0);
         EvFsOpenW (tmp_name unique_name);
         EvSubmit 0;
         EvShutdown;
         EvFsRename (tmp_name unique_name) (md_name unique_name);
         EvGc;
         EvCloseDoc ]
  /\ (forall w', fst (render_page doc 0 w') = Raise IndexError).
Proof.
  intros Hname Hdoc Hforms Hpages r. subst r.
  assert (Hextract : forall w', fst (render_page doc 0 w') = Raise IndexError).
  { intros w'. unfold _render_page, doc_getitem. rewrite Hpages. reflexivity. }
  match goal with
  | |- fst (?m w) = _ /\ _ =>
      cut (wp m (fun r w' =>
        r = Ok 0 /\ fs w' !! md_name unique_name = Some []
        /\ fs w' !! tmp_name unique_name = None
        /\ trace w' = trace w ++
         [ EvOpenDoc pdf;
           EvLog (LogFile idx pending_len (done_count + idx) total (display_name_of pdf) 0);
           EvFsOpenW (tmp_name unique_name);
           EvSubmit 0;
           EvShutdown;
           EvFsRename (tmp_name unique_name) (md_name unique_name);
           EvGc;
           EvCloseDoc ]) w);
      [ intros (H1 & H2 & H3 & H4); auto | clear Hextract ]
  end.
  unfold _ocr_one_file, file_body, submit, _render_page, doc_getitem, num_pages.
  unfold_helpers.
  wp_run ltac:(rewrite ?Hname, ?Hdoc, ?Hforms, ?Hpages).
  assert (Hlookup : (@nil (@Page Image)) !! 0%nat = None) by reflexivity.
  destruct (worker_eager env 0).
  all: wp_run ltac:(rewrite ?Hlookup); cbn [length page_loop]; wp_run idtac.
  all: cbn [fs set_fs add_event tick_clock trace]; rewrite lookup_insert_eq.
  all: wp_run idtac; cbn [fs set_fs add_event tick_clock trace].
  all: rewrite lookup_insert_eq, delete_insert_eq.
  all: rewrite lookup_insert_ne by apply md_tmp_distinct.
  all: rewrite lookup_delete_eq, <- !app_assoc.
  all: repeat split; reflexivity.
Qed.

(** ** The output directory during a file's processing *)

(** Code that keeps an invariant on the output directory: only changes
    of [fs] matter, which [tac] handles. *)
Ltac pres_fs tac :=
  unfold_helpers;
  repeat (pres_step; try (cbn [fs add_event tick_clock tick_loads set_status
                               set_chandra set_counts]; assumption); try tac).

Section FsInvariant.

(** An invariant that only looks at the output directory. *)
Variable P : gmap pystr pystr -> Prop.
Local Abbreviation Inv := (fun w : @World Image Obj => P (fs w)).

Lemma load_chandra_fs : preserves Inv load_chandra.
Proof. unfold _load_chandra. pres_fs idtac. Qed.

Lemma render_page_fs doc p : preserves Inv (render_page doc p).
Proof. unfold _render_page. pres_fs idtac. Qed.

Lemma submit_fs doc p : preserves Inv (submit doc p).
Proof. unfold submit. pres_fs ltac:(apply render_page_fs). Qed.

Lemma future_result_fs f : preserves Inv (future_result f).
Proof. destruct f; [apply preserves_lift | apply render_page_fs]. Qed.

Lemma ocr_page_fs u : preserves Inv (ocr_page u).
Proof.
  unfold ocr_page, ocr_image. pres_fs ltac:(apply load_chandra_fs).
Qed.

(** The page loop changes the directory by appending to the temporary file
    only. *)
Lemma page_loop_fs doc tmp_path display_name done_count idx total errors
    file_start avg pipeline_start recent_files remaining p_idx f :
  (forall m data, P m -> P (alter (fun old => old ++ data) tmp_path m)) ->
  preserves Inv
    (page_loop doc tmp_path display_name done_count idx total errors
       file_start avg pipeline_start recent_files remaining p_idx f).
Proof.
  intros Halter. revert p_idx f.
  induction remaining as [|n IH]; intros p_idx f; cbn [page_loop].
  - apply preserves_ret.
  - pres_fs ltac:(first [ apply future_result_fs | apply submit_fs | apply ocr_page_fs
                        | apply IH
                        | cbn [fs set_fs]; apply Halter; assumption ]).
Qed.

End FsInvariant.

Section QuietPages.

Variable md_path tmp_path : pystr.
Hypothesis Hdistinct : md_path <> tmp_path.
Variable t0 : list (@Event Image).

Local Abbreviation Quiet n := (since (Obj := Obj) t0 (quiet_pages md_path n)).

Lemma quiet_emit n e w :
  ~ writes_to md_path e -> is_page_log e = false -> Quiet n w -> Quiet n (add_event e w).
Proof.
  intros Hw Hl. apply since_emit. intros evs [Hall Hn]. split.
  - apply Forall_app. split; [exact Hall|]. constructor; [exact Hw | constructor].
  - unfold pages_logged. rewrite List.filter_app, length_app. simpl. rewrite Hl.
    simpl. unfold pages_logged in Hn. lia.
Qed.

Lemma quiet_emit_page n e w :
  ~ writes_to md_path e -> is_page_log e = true -> Quiet n w -> Quiet (S n) (add_event e w).
Proof.
  intros Hw Hl (evs & Ht & Hall & Hn). exists (evs ++ [e]). split; [|split].
  - simpl. rewrite Ht. now rewrite <- app_assoc.
  - apply Forall_app. split; [exact Hall|]. constructor; [exact Hw | constructor].
  - unfold pages_logged. rewrite List.filter_app, length_app. simpl. rewrite Hl.
    simpl. unfold pages_logged in Hn. lia.
Qed.

Ltac quiet :=
  unfold_helpers;
  repeat (pres_step; try silent;
          try (apply quiet_emit; [simpl; try tauto; congruence | reflexivity | assumption])).

Lemma load_chandra_quiet n : preserves (Quiet n) load_chandra.
Proof. unfold _load_chandra. quiet. Qed.

Lemma render_page_quiet n doc p : preserves (Quiet n) (render_page doc p).
Proof. unfold _render_page. quiet. Qed.

Lemma submit_quiet n doc p : preserves (Quiet n) (submit doc p).
Proof. unfold submit. repeat first [apply render_page_quiet | progress quiet]. Qed.

Lemma future_result_quiet n f : preserves (Quiet n) (future_result f).
Proof. destruct f; [apply preserves_lift | apply render_page_quiet]. Qed.

Lemma ocr_page_quiet n u : preserves (Quiet n) (ocr_page u).
Proof.
  unfold ocr_page, ocr_image. repeat first [apply load_chandra_quiet | progress quiet].
Qed.

(** A page loop that returns has logged every page; it never writes to the
    final path. *)
Lemma page_loop_quiet doc display_name done_count idx total errors
    file_start avg pipeline_start recent_files remaining :
  forall p_idx f n w,
  Quiet n w ->
  wp (page_loop doc tmp_path display_name done_count idx total errors
        file_start avg pipeline_start recent_files remaining p_idx f)
     (fun r w' => match r with
                  | Ok _ => Quiet (n + remaining) w'
                  | Raise _ => True
                  end) w.
Proof.
  induction remaining as [|k IH]; intros p_idx f n w HI; cbn [page_loop].
  - rewrite wp_ret. now rewrite Nat.add_0_r.
  - wp_seq quiet. wp_seq quiet. wp_seq quiet.
    wp_seq ltac:(apply future_result_quiet).
    wp_seq ltac:(destruct (p_idx + 1 <? num_pages doc)%nat;
                 [apply submit_quiet | apply preserves_ret]).
    wp_seq ltac:(apply ocr_page_quiet).
    match goal with a : (pystr * Tag)%type |- _ => destruct a as [md tag] end.
    wp_seq quiet. wp_seq quiet. wp_seq quiet.
    rewrite wp_bind.
    eapply wp_mono with (Q := fun r w' => match r with
                                          | Ok _ => Quiet (S n) w'
                                          | Raise _ => True
                                          end).
    { unfold _log. rewrite wp_emit.
      apply quiet_emit_page; [simpl; tauto | reflexivity | assumption]. }
    intros [[]|e] wa Hwa; [|exact Logic.I].
    rewrite wp_bind.
    eapply wp_mono; [apply preserves_wp; [|exact Hwa]; quiet|].
    intros [[]|e] wb Hwb; [|exact Logic.I].
    rewrite <- Nat.add_succ_comm. apply IH, Hwb.
Qed.

End QuietPages.

(** *** The handler and the frame of [_ocr_one_file] *)

Lemma unlink_if_exists_run path w :
  exists w', unlink_if_exists path w = (Ok tt, w') /\ fs w' = delete path (fs w)
             /\ (forall e, In e (trace w') -> In e (trace w) \/ e = EvFsUnlink path).
Proof.
  unfold unlink_if_exists, fs_exists, fs_unlink.
  run_go. destruct (fs w !! path) as [c|] eqn:Hc.
  - rewrite bool_decide_eq_true_2 by eauto.
    run_go. cbn [fs add_event]. rewrite Hc. run_go.
    eexists. split; [reflexivity|]. split; [reflexivity|].
    cbn [trace set_fs add_event]. intros e He. apply in_app_or in He as [He|[<-|[]]]; auto.
  - rewrite bool_decide_eq_false_2 by (intros [? ?]; congruence).
    run_go. eexists. split; [reflexivity|]. split; [|auto].
    symmetry. apply delete_id, Hc.
Qed.

Lemma file_cleanup_run unique_name e w :
  exists w', file_cleanup unique_name e w = (Raise e, w')
             /\ fs w' = delete (md_name unique_name) (delete (tmp_name unique_name) (fs w)).
Proof.
  unfold file_cleanup.
  destruct (unlink_if_exists_run (tmp_name unique_name) w) as (w1 & H1 & Hfs1 & _).
  destruct (unlink_if_exists_run (md_name unique_name) w1) as (w2 & H2 & Hfs2 & _).
  exists w2. rewrite run_bind, H1, run_bind, H2. split; [reflexivity|].
  now rewrite Hfs2, Hfs1.
Qed.

(** The file processor, once the output name is known and the document is
    open: the body runs after the events of opening; the handler runs when
    the body raises; the document is closed in either case. *)
Lemma ocr_one_file_run pdf unique_name doc done_count idx pending_len total errors avg
    pipeline_start recent_files w :
  to_output_name pdf = Ok unique_name ->
  pdf_document env pdf = Ok doc ->
  let w1 := add_event (EvOpenDoc pdf) (tick_clock w) in
  ocr_one_file pdf done_count idx pending_len total errors avg pipeline_start
    recent_files w
  = match file_body isalpha isspace env doc unique_name (display_name_of pdf)
            done_count idx pending_len total errors (time_time env (clock w)) avg
            pipeline_start recent_files w1 with
    | (Ok n, w2) => (Ok n, add_event EvCloseDoc w2)
    | (Raise e, w2) =>
        (Raise e, add_event EvCloseDoc (snd (file_cleanup unique_name e w2)))
    end.
Proof.
  intros Hname Hdoc w1. unfold _ocr_one_file. rewrite Hname, Hdoc.
  unfold time_now. run_go.
  unfold try_finally, try_except. fold w1.
  destruct (file_body _ _ _ _ _ _ _ _ _ _ _ _ _ _ _ w1) as [[n|e] w2].
  - reflexivity.
  - destruct (file_cleanup_run unique_name e w2) as (w3 & -> & _). reflexivity.
Qed.

Lemma wp_and {A} (m : M A) (Q1 Q2 : Res A -> World -> Prop) w :
  wp m Q1 w -> wp m Q2 w -> wp m (fun r w' => Q1 r w' /\ Q2 r w') w.
Proof. unfold wp. auto. Qed.

(** A body that returns has logged all pages, then renamed the temporary
    file to the final path. *)
Lemma file_body_success doc unique_name display_name done_count idx pending_len
    total errors file_start avg pipeline_start recent_files w :
  wp (file_body isalpha isspace env doc unique_name display_name done_count idx
        pending_len total errors file_start avg pipeline_start recent_files)
     (fun r w' =>
        match r with
        | Ok n =>
            n = Z.of_nat (num_pages doc)
            /\ is_Some (fs w' !! md_name unique_name)
            /\ fs w' !! tmp_name unique_name = None
            /\ exists evs,
                 trace w' = trace w ++ evs ++
                   [EvFsRename (tmp_name unique_name) (md_name unique_name); EvGc]
                 /\ quiet_pages (md_name unique_name) (num_pages doc) evs
        | Raise _ => True
        end) w.
Proof.
  pose proof (md_tmp_distinct unique_name unique_name) as Hne.
  set (md := md_name unique_name) in *. set (tmp := tmp_name unique_name) in *.
  set (Inv := fun n (w' : @World Image Obj) =>
                since (trace w) (quiet_pages md n) w' /\ is_Some (fs w' !! tmp)).
  assert (Hquiet : forall e n w', ~ writes_to md e -> is_page_log e = false ->
            Inv n w' -> Inv n (add_event e w')).
  { intros e n w' H1 H2 [H3 H4]. split; [apply quiet_emit; assumption | exact H4]. }
  unfold file_body. fold md tmp.
  rewrite wp_bind, wp_lift. destruct (doc_init_forms doc) as [[]|e]; [|exact Logic.I].
  unfold _log, fs_open_w. wp_run idtac.
  match goal with |- wp _ _ ?w2 => assert (H0 : Inv 0%nat w2) end.
  { split.
    - exists [EvLog (LogFile idx pending_len (done_count + idx) total display_name
                      (Z.of_nat (num_pages doc))); EvFsOpenW tmp].
      split; [cbn [trace set_fs add_event]; now rewrite <- app_assoc|].
      split; [|reflexivity].
      repeat constructor; simpl; [tauto | congruence].
    - cbn [fs set_fs add_event]. rewrite lookup_insert_eq. eauto. }
  eapply wp_mono.
  { apply wp_and with (Q1 := fun _ w' => since (trace w) (quiet_pages md 0) w')
                      (Q2 := fun _ w' => is_Some (fs w' !! tmp)).
    - apply (preserves_wp (since (trace w) (quiet_pages md 0)));
        [apply submit_quiet | apply H0].
    - apply (preserves_wp (fun w' => is_Some (fs w' !! tmp)));
        [apply (submit_fs (fun m => is_Some (m !! tmp))) | apply H0]. }
  intros [f|e] w3 H3; [|exact Logic.I].
  rewrite wp_bind. eapply wp_mono.
  { apply wp_and with (Q2 := fun _ w' => is_Some (fs w' !! tmp)).
    - apply page_loop_quiet; [exact Hne | apply H3].
    - apply (preserves_wp (fun w' => is_Some (fs w' !! tmp))); [|apply H3].
      apply (page_loop_fs (fun m => is_Some (m !! tmp))).
      intros m data [c Hc]. rewrite lookup_alter_eq, Hc. simpl. eauto. }
  intros [[]|e] w4 [H4 [content Hc]]; [|exact Logic.I].
  unfold fs_rename, _free_memory. wp_run idtac.
  cbn [fs add_event]. rewrite Hc. wp_run idtac.
  cbn [fs set_fs add_event trace].
  split; [reflexivity|]. split; [rewrite lookup_insert_eq; eauto|].
  split; [rewrite lookup_insert_ne by exact Hne; apply lookup_delete_eq|].
  destruct H4 as (evs & Ht & Hall & Hn).
  exists (evs ++ [EvShutdown]). split.
  - rewrite Ht. now rewrite <- !app_assoc.
  - split.
    + apply Forall_app. split; [exact Hall|]. repeat constructor. simpl. tauto.
    + unfold pages_logged in *. rewrite List.filter_app, length_app. simpl. lia.
Qed.

(** Processing a file leaves the other files of the directory alone. *)
Lemma ocr_one_file_fs_other pdf done_count idx pending_len total errors avg
    pipeline_start recent_files q c :
  (forall u, to_output_name pdf = Ok u -> q <> md_name u /\ q <> tmp_name u) ->
  preserves (fun w => fs w !! q = c)
    (ocr_one_file pdf done_count idx pending_len total errors avg pipeline_start
       recent_files).
Proof.
  intros Hq. unfold _ocr_one_file.
  apply preserves_bind_lift. intros u Hu. destruct (Hq u Hu) as [Hmd Htmp].
  unfold file_body.
  pres_fs ltac:(first
    [ apply (submit_fs (fun m => m !! q = c))
    | apply (page_loop_fs (fun m => m !! q = c));
      intros; rewrite lookup_alter_ne by congruence; assumption
    | cbn [fs set_fs];
      rewrite ?lookup_insert_ne, ?lookup_delete_ne by congruence; assumption ]).
Qed.

(** A file processor that returns has put the artifact at the final
    path. *)
Lemma ocr_one_file_success pdf unique_name done_count idx pending_len total errors avg
    pipeline_start recent_files w n :
  to_output_name pdf = Ok unique_name ->
  fst (ocr_one_file pdf done_count idx pending_len total errors avg pipeline_start
         recent_files w) = Ok n ->
  is_Some (fs (snd (ocr_one_file pdf done_count idx pending_len total errors avg
                      pipeline_start recent_files w)) !! md_name unique_name).
Proof.
  intros Hname. destruct (pdf_document env pdf) as [doc|e] eqn:Hdoc.
  - rewrite (ocr_one_file_run pdf unique_name doc) by assumption.
    match goal with |- context [file_body ?a ?b ?c ?d ?e ?f ?g ?h ?i ?j ?k ?l ?m ?o ?r ?w1] =>
      pose proof (file_body_success d e f g h i j k l m o r w1) as Hbody;
      unfold wp in Hbody;
      destruct (file_body a b c d e f g h i j k l m o r w1) as [[n'|e'] w2]
    end; cbn [fst snd] in *; [|discriminate].
    intros _. apply Hbody.
  - unfold _ocr_one_file. rewrite Hname, Hdoc. unfold time_now. run_go. discriminate.
Qed.

(** C3, as amended. Once the document is open: the page loop never changes
    what is at the final path; when the file processor returns, all pages
    were logged without any write to the final path, and only then the
    temporary file was renamed to it; when it raises, neither the final nor
    the temporary path exists; the other files are left alone. *)
Theorem artifact_appears_after_all_pages pdf unique_name doc done_count idx pending_len
    total errors avg pipeline_start recent_files w :
  to_output_name pdf = Ok unique_name ->
  pdf_document env pdf = Ok doc ->
  let md_path := md_name unique_name in
  let tmp_path := tmp_name unique_name in
  let r := ocr_one_file pdf done_count idx pending_len total errors avg
             pipeline_start recent_files w in
  (forall display_name file_start k p_idx f w1,
     fs (snd (page_loop doc tmp_path display_name done_count idx total errors
                file_start avg pipeline_start recent_files k p_idx f w1)) !! md_path
     = fs w1 !! md_path)
  /\ match fst r with
     | Ok n =>
         n = Z.of_nat (num_pages doc)
         /\ is_Some (fs (snd r) !! md_path)
         /\ fs (snd r) !! tmp_path = None
         /\ exists evs,
              trace (snd r) = trace w ++ evs ++
                [EvFsRename tmp_path md_path; EvGc; EvCloseDoc]
              /\ quiet_pages md_path (num_pages doc) evs
     | Raise _ =>
         fs (snd r) !! md_path = None /\ fs (snd r) !! tmp_path = None
     end
  /\ (forall q, q <> md_path -> q <> tmp_path -> fs (snd r) !! q = fs w !! q).
Proof.
  intros Hname Hdoc md_path tmp_path r.
  pose proof (md_tmp_distinct unique_name unique_name) as Hne.
  split; [|split].
  - intros display_name file_start k p_idx f w1.
    apply (page_loop_fs (fun m => m !! md_path = fs w1 !! md_path)); [|reflexivity].
    intros m data Hm. rewrite lookup_alter_ne by (intros H; apply Hne; auto).
    exact Hm.
  - subst r. rewrite (ocr_one_file_run _ _ _ _ _ _ _ _ _ _ _ _ Hname Hdoc).
    cbv zeta.
    match goal with |- context [file_body ?a ?b ?c ?d ?e ?f ?g ?h ?i ?j ?k ?l ?m ?n ?o ?w1] =>
      pose proof (file_body_success d e f g h i j k l m n o w1) as Hbody;
      unfold wp in Hbody;
      destruct (file_body a b c d e f g h i j k l m n o w1) as [[n'|e'] w2]
    end; cbn [fst snd] in *.
    + destruct Hbody as (Hn & Hmd & Htmp & evs & Ht & Hq).
      split; [exact Hn|]. split; [exact Hmd|]. split; [exact Htmp|].
      destruct Hq as [Hall Hcount].
      exists (EvOpenDoc pdf :: evs). split.
      * cbn [trace add_event tick_clock] in *. rewrite Ht.
        rewrite <- !app_assoc. reflexivity.
      * split; [constructor; [simpl; tauto | exact Hall] | exact Hcount].
    + destruct (file_cleanup_run unique_name e' w2) as (w3 & Hrun & Hfs).
      rewrite Hrun. cbn [snd fs add_event]. rewrite Hfs.
      split; [apply lookup_delete_eq|].
      rewrite lookup_delete_ne by exact Hne. apply lookup_delete_eq.
  - intros q Hq1 Hq2. subst r.
    apply (ocr_one_file_fs_other _ _ _ _ _ _ _ _ _ q (fs w !! q)); [|reflexivity].
    intros u Hu. rewrite Hname in Hu. injection Hu as <-. auto.
Qed.

(** ** The quality gate *)

Lemma count_if_bounds pred text : 0 <= count_if pred text <= Z.of_nat (length text).
Proof.
  induction text as [|c text IH]; [simpl; lia|].
  cbn [count_if length]. destruct (pred c); lia.
Qed.

(** On a text of fewer than [2^51] characters the float comparison of the
    gate decides the exact ratio. *)
Lemma tesseract_quality_ok_iff text :
  Z.of_nat (length text) < 2 ^ 51 ->
  _tesseract_quality_ok isalpha text = true <-> gate_conditions isalpha text.
Proof.
  intros Hlen. unfold _tesseract_quality_ok, gate_conditions, MIN_DIACRITICS_RATIO.
  pose proof (count_if_bounds isalpha text) as Ha.
  pose proof (count_if_bounds in_diacritics text) as Hd.
  fold (alpha_count isalpha text) in Ha. fold (diacritics_count text) in Hd.
  unfold MIN_CHARS_FOR_PAGE.
  destruct (Z.ltb_spec (alpha_count isalpha text) 50) as [Hlt|Hge].
  - split; [discriminate | lia].
  - rewrite truediv_ge_0_15 by lia. rewrite Z.leb_le. lia.
Qed.

(** C1. On a rendered page the fast engine runs first. Its text is the
    page's text, tagged [tess], exactly when it has at least 50 alphabetic
    characters and at least 15 diacritics per 100 alphabetic characters.
    Otherwise the model is loaded if need be and the fallback engine is run
    on the same image: what it returns is the page's text, tagged [vlm],
    whatever it is. (Texts of [2^51] characters or more are left out: on
    them the float ratio is no longer exact.) *)
Theorem quality_gate_selects_engine image text w :
  image_to_string env image = Ok text ->
  Z.of_nat (length text) < 2 ^ 51 ->
  let w1 := add_event (EvTesseract image) w in
  (gate_conditions isalpha text
   /\ ocr_image image w = (Ok (text, tess), set_counts incr_tess w1))
  \/ (~ gate_conditions isalpha text
      /\ ocr_image image w =
         match load_chandra w1 with
         | (Raise e, w2) => (Raise e, w2)
         | (Ok _, w2) =>
             let state := chandra w2 in
             let w3 := add_event (EvGenerate image) w2 in
             match mlx_generate env (model state) (processor state)
                     (formatted_prompt state) image with
             | Ok md => (Ok (md, vlm), set_counts incr_vlm w3)
             | Raise e => (Raise e, w3)
             end
         end).
Proof.
  intros Htext Hlen w1.
  pose proof (tesseract_quality_ok_iff text Hlen) as Hiff.
  unfold ocr_image, _tesseract_ocr. run_go. rewrite Htext. fold w1.
  destruct (_tesseract_quality_ok isalpha text) eqn:Hok.
  - left. split; [now apply Hiff|]. reflexivity.
  - right. split; [intros H; apply Hiff in H; discriminate|].
    rewrite run_bind. destruct (load_chandra w1) as [[[]|e] w2]; [|reflexivity].
    unfold get_chandra, _chandra_ocr. run_go.
    destruct (mlx_generate env _ _ _ image); reflexivity.
Qed.

(** ** The page loop against sequential processing *)

Lemma agree_ret {A} (a : A) : agree (Image := Image) (Obj := Obj) (ret a) (ret a).
Proof. intros w1 w2 H. auto. Qed.

Lemma agree_raise {A} e : agree (Image := Image) (Obj := Obj) (raise (A := A) e) (raise e).
Proof. intros w1 w2 H. auto. Qed.

Lemma agree_lift {A} (r : Res A) : agree (Image := Image) (Obj := Obj) (lift r) (lift r).
Proof. intros w1 w2 H. auto. Qed.

Lemma agree_bind {A B} (m1 m2 : @M Image Obj A) (k1 k2 : A -> @M Image Obj B) :
  agree m1 m2 -> (forall a, agree (k1 a) (k2 a)) -> agree (m1 ≫= k1) (m2 ≫= k2).
Proof.
  intros Hm Hk w1 w2 H. rewrite !run_bind. destruct (Hm w1 w2 H) as [Hr Hs].
  destruct (m1 w1) as [[a1|e1] w1'], (m2 w2) as [[a2|e2] w2']; cbn [fst snd] in *;
    try discriminate.
  - injection Hr as <-. now apply Hk.
  - injection Hr as ->. simpl. split; [reflexivity | assumption].
Qed.

(** The value of the clock only reaches the log. *)
Lemma agree_bind_time {B} (k1 k2 : Q -> @M Image Obj B) :
  (forall t1 t2, agree (k1 t1) (k2 t2)) ->
  agree (time_now env ≫= k1) (time_now env ≫= k2).
Proof.
  intros Hk w1 w2 H. unfold time_now. run_go. apply Hk.
  unfold engine_state in *. cbn [chandra loads counts tick_clock]. exact H.
Qed.

Lemma agree_emit (e1 e2 : @Event Image) : agree (Obj := Obj) (emit e1) (emit e2).
Proof. intros w1 w2 H. split; [reflexivity | exact H]. Qed.

Lemma agree_modify (f : @World Image Obj -> @World Image Obj) :
  (forall w1 w2, engine_state w1 = engine_state w2 ->
                 engine_state (f w1) = engine_state (f w2)) ->
  agree (modify f) (modify f).
Proof. intros Hf w1 w2 H. split; [reflexivity | now apply Hf]. Qed.

Lemma agree_gets {A} (g : @World Image Obj -> A) :
  (forall w1 w2, engine_state w1 = engine_state w2 -> g w1 = g w2) ->
  agree (gets g) (gets g).
Proof. intros Hg w1 w2 H. split; [cbn; f_equal; now apply Hg | exact H]. Qed.

Ltac agree_step :=
  lazymatch goal with
  | |- agree (ret _) (ret _) => apply agree_ret
  | |- agree (raise _) (raise _) => apply agree_raise
  | |- agree (lift _) (lift _) => apply agree_lift
  | |- agree (emit _) (emit _) => apply agree_emit
  | |- agree (time_now _ ≫= _) (time_now _ ≫= _) => apply agree_bind_time; intros ? ?
  | |- agree (_ ≫= _) (_ ≫= _) => apply agree_bind; [| intros ?]
  | |- agree (modify _) (modify _) =>
      apply agree_modify; unfold engine_state;
      cbn [chandra loads counts set_chandra set_counts tick_loads add_event];
      intros ? ? [= ? ? ?]; congruence
  | |- agree (gets _) (gets _) =>
      apply agree_gets; unfold engine_state; intros ? ? [= ? ? ?]; congruence
  | |- agree (if ?b then _ else _) (if ?b then _ else _) => destruct b
  | |- agree (match ?x with _ => _ end) (match ?x with _ => _ end) => destruct x
  end.

Lemma load_chandra_agree : agree load_chandra load_chandra.
Proof.
  unfold _load_chandra, get_chandra, mlx_load_call, _log. repeat agree_step.
Qed.

Lemma ocr_page_agree u : agree (ocr_page u) (ocr_page u).
Proof.
  unfold ocr_page, ocr_image, _tesseract_ocr, _chandra_ocr, get_chandra.
  repeat first [apply load_chandra_agree | agree_step].
Qed.

Lemma render_page_run doc p w :
  exists w', render_page doc p w = (extract isalpha isspace doc p, w')
             /\ engine_state w' = engine_state w /\ fs w' = fs w.
Proof.
  unfold _render_page, extract. run_go.
  destruct (doc_getitem doc p) as [page|e]; [|eauto].
  run_go. destruct (page_text page) as [text|e]; [|eauto].
  destruct (NATIVE_TEXT_THRESHOLD <=? alpha_count isalpha text); [eauto|].
  run_go. destruct (page_image page) as [img|e]; eauto.
Qed.

Lemma submit_run doc p w :
  exists f w', submit doc p w = (Ok f, w') /\ future_for isalpha isspace doc p f
               /\ engine_state w' = engine_state w /\ fs w' = fs w.
Proof.
  unfold submit. run_go. destruct (worker_eager env p).
  - rewrite run_bind. unfold attempt.
    destruct (render_page_run doc p (add_event (EvSubmit p) w)) as (w' & -> & Hes & Hfs).
    exists (FutDone (extract isalpha isspace doc p)), w'.
    split; [reflexivity|]. split; [now right|]. split; assumption.
  - exists (FutPending doc p), (add_event (EvSubmit p) w).
    split; [reflexivity|]. split; [now left|]. split; reflexivity.
Qed.

Lemma future_result_run doc p f w :
  future_for isalpha isspace doc p f ->
  exists w', future_result f w = (extract isalpha isspace doc p, w')
             /\ engine_state w' = engine_state w /\ fs w' = fs w.
Proof.
  intros [-> | ->]; cbn [future_result].
  - apply render_page_run.
  - exists w. auto.
Qed.

Lemma ocr_page_fs_eq u w : fs (snd (ocr_page u w)) = fs w.
Proof. now apply (ocr_page_fs (fun m => m = fs w)). Qed.

Lemma pages_text_succ p mds :
  pages_text (S p) mds
  = match mds with
    | [] => []
    | _ => [NEWLINE; NEWLINE] ++ join [NEWLINE; NEWLINE] mds
    end.
Proof.
  revert p. induction mds as [|md mds IH]; intros p; [reflexivity|].
  cbn [pages_text Nat.ltb Nat.leb]. rewrite IH, join_cons. reflexivity.
Qed.

(** From page 0 on, the loop writes the texts joined by blank lines. *)
Lemma pages_text_join mds : pages_text 0 mds = join [NEWLINE; NEWLINE] mds.
Proof.
  destruct mds as [|md mds]; [reflexivity|].
  cbn [pages_text Nat.ltb Nat.leb app]. now rewrite pages_text_succ, join_cons.
Qed.

(** The page loop and sequential processing, started on the same engine
    state, end alike: both raise the same exception, or both return, with
    the same engine state, and the loop has appended the pages' texts to
    the temporary file. *)
Lemma page_loop_sequential doc tmp_path display_name done_count idx total errors
    file_start avg pipeline_start recent_files :
  forall k p f w1 w2 c0,
  (p + k = num_pages doc)%nat ->
  ((0 < k)%nat -> future_for isalpha isspace doc p f) ->
  engine_state w1 = engine_state w2 ->
  fs w1 !! tmp_path = Some c0 ->
  match page_loop doc tmp_path display_name done_count idx total errors
          file_start avg pipeline_start recent_files k p f w1,
        sequential_pages isalpha isspace env doc (seq p k) w2 with
  | (Ok _, w1'), (Ok mds, w2') =>
      engine_state w1' = engine_state w2' /\ length mds = k
      /\ fs w1' !! tmp_path = Some (c0 ++ pages_text p mds)
  | (Raise e1, _), (Raise e2, _) => e1 = e2
  | _, _ => False
  end.
Proof.
  induction k as [|k IH]; intros p f w1 w2 c0 Hpk Hf Hes Hfs.
  - cbn. rewrite app_nil_r. auto.
  - cbn [page_loop seq sequential_pages].
    unfold time_now, _save_progress. run_go.
    match goal with |- context [future_result f ?w] => set (w1a := w) end.
    assert (Hes1a : engine_state w1a = engine_state w2) by exact Hes.
    assert (Hfs1a : fs w1a !! tmp_path = Some c0) by exact Hfs.
    clearbody w1a.
    destruct (future_result_run doc p f w1a (Hf ltac:(lia))) as (w1b & -> & Hes1b & Hfs1b).
    rewrite ?run_bind.
    destruct (render_page_run doc p w2) as (w2a & -> & Hes2a & _).
    destruct (extract isalpha isspace doc p) as [u|e]; [|reflexivity].
    rewrite ?run_bind.
    assert (Hnext : exists f' w1c,
      (if (p + 1 <? num_pages doc)%nat then submit doc (p + 1) else ret f) w1b
      = (Ok f', w1c)
      /\ ((0 < k)%nat -> future_for isalpha isspace doc (S p) f')
      /\ engine_state w1c = engine_state w1b /\ fs w1c = fs w1b).
    { destruct (Nat.ltb_spec (p + 1) (num_pages doc)) as [Hlt|Hge].
      - destruct (submit_run doc (p + 1) w1b) as (f' & w1c & Hrun & Hfor & H1 & H2).
        exists f', w1c. rewrite Nat.add_1_r in Hfor. auto.
      - exists f, w1b. split; [reflexivity|]. split; [lia | auto]. }
    destruct Hnext as (f' & w1c & -> & Hf' & Hes1c & Hfs1c).
    rewrite ?run_bind.
    destruct (ocr_page_agree u w1c w2a ltac:(congruence)) as [Hr Hes'].
    pose proof (ocr_page_fs_eq u w1c) as Hfs1d.
    destruct (ocr_page u w1c) as [[[md tag]|e] w1d], (ocr_page u w2a) as [[[md' tag']|e'] w2b];
      cbn [fst snd] in *; try discriminate; [|now injection Hr].
    injection Hr as <- <-.
    unfold fs_write, _log, _free_memory. run_go.
    assert (Hstep : forall w1e,
      engine_state w1e = engine_state w1d ->
      fs w1e !! tmp_path
        = Some (c0 ++ (if (0 <? p)%nat then [NEWLINE; NEWLINE] else []) ++ md) ->
      match page_loop doc tmp_path display_name done_count idx total errors
              file_start avg pipeline_start recent_files k (S p) f' w1e,
            (sequential_pages isalpha isspace env doc (seq (S p) k) ≫=
               fun mds => ret (md :: mds)) w2b with
      | (Ok _, w1'), (Ok mds, w2') =>
          engine_state w1' = engine_state w2' /\ length mds = S k
          /\ fs w1' !! tmp_path = Some (c0 ++ pages_text p mds)
      | (Raise e1, _), (Raise e2, _) => e1 = e2
      | _, _ => False
      end).
    { intros w1e He1 He2. rewrite run_bind.
      specialize (IH (S p) f' w1e w2b _ ltac:(lia) Hf' ltac:(congruence) He2).
      destruct (page_loop _ _ _ _ _ _ _ _ _ _ _ k (S p) f' w1e) as [[[]|e1] w1'],
               (sequential_pages isalpha isspace env doc (seq (S p) k) w2b) as [[mds|e2] w2'];
        try contradiction; [|exact IH].
      destruct IH as (H1 & H2 & H3). cbn [ret]. split; [exact H1|].
      split; [cbn [length]; lia|].
      rewrite H3. cbn [pages_text]. now rewrite <- !app_assoc. }
    assert (Hfsd : fs w1d !! tmp_path = Some c0) by congruence.
    destruct (0 <? p)%nat.
    + run_go. destruct (p mod 10 =? 9)%nat; run_go; apply Hstep;
        try reflexivity;
        cbn [fs set_fs add_event tick_clock];
        rewrite !lookup_alter_eq, Hfsd; cbn; now rewrite <- app_assoc.
    + run_go. destruct (p mod 10 =? 9)%nat; run_go; apply Hstep;
        try reflexivity;
        cbn [fs set_fs add_event tick_clock];
        rewrite !lookup_alter_eq, Hfsd; reflexivity.
Qed.

Lemma file_body_sequential doc unique_name display_name done_count idx pending_len
    total errors file_start avg pipeline_start recent_files w0 w :
  engine_state w = engine_state w0 ->
  match file_body isalpha isspace env doc unique_name display_name done_count idx
          pending_len total errors file_start avg pipeline_start recent_files w with
  | (Ok n, w') =>
      exists mds w2,
        sequential_pages isalpha isspace env doc (seq 0 (num_pages doc)) w0 = (Ok mds, w2)
        /\ length mds = num_pages doc
        /\ fs w' !! md_name unique_name = Some (join [NEWLINE; NEWLINE] mds)
        /\ engine_state w2 = engine_state w'
  | (Raise _, _) => True
  end.
Proof.
  intros Hes. unfold file_body. run_go.
  destruct (doc_init_forms doc) as [[]|e]; [|exact Logic.I].
  unfold _log, fs_open_w. run_go.
  match goal with |- context [submit doc 0 ?w1] =>
    destruct (submit_run doc 0 w1) as (f & wa & -> & Hf & Hesa & Hfsa)
  end.
  rewrite ?run_bind.
  pose proof (page_loop_sequential doc (tmp_name unique_name) display_name done_count idx
                total errors file_start avg pipeline_start recent_files
                (num_pages doc) 0 f wa w0 [] eq_refl (fun _ => Hf)) as Hloop.
  destruct (page_loop _ _ _ _ _ _ _ _ _ _ _ _ _ _ wa) as [[[]|e1] wb]; [|exact Logic.I].
  destruct (sequential_pages isalpha isspace env doc (seq 0 (num_pages doc)) w0)
    as [[mds|e2] w2].
  - destruct Hloop as (H1 & H2 & H3).
    + rewrite Hesa. exact Hes.
    + rewrite Hfsa. cbn [fs set_fs add_event]. apply lookup_insert_eq.
    + unfold fs_rename, _free_memory. run_go. cbn [fs add_event]. rewrite H3. run_go.
      exists mds, w2. split; [reflexivity|]. split; [exact H2|].
      cbn [fs set_fs add_event]. rewrite lookup_insert_eq, pages_text_join.
      split; [reflexivity|]. symmetry. exact H1.
  - exfalso. apply Hloop.
    + rewrite Hesa. exact Hes.
    + rewrite Hfsa. cbn [fs set_fs add_event]. apply lookup_insert_eq.
Qed.

(** The artifact of a processed file holds the texts that sequential
    processing yields, joined by blank lines. *)
Lemma ocr_one_file_sequential pdf unique_name doc done_count idx pending_len total
    errors avg pipeline_start recent_files w n w' :
  to_output_name pdf = Ok unique_name ->
  pdf_document env pdf = Ok doc ->
  ocr_one_file pdf done_count idx pending_len total errors avg pipeline_start
    recent_files w = (Ok n, w') ->
  exists mds w2,
    sequential_pages isalpha isspace env doc (seq 0 (num_pages doc)) w = (Ok mds, w2)
    /\ length mds = num_pages doc
    /\ fs w' !! md_name unique_name = Some (join [NEWLINE; NEWLINE] mds)
    /\ engine_state w2 = engine_state w'.
Proof.
  intros Hname Hdoc Hrun.
  rewrite (ocr_one_file_run _ _ _ _ _ _ _ _ _ _ _ _ Hname Hdoc) in Hrun. cbv zeta in Hrun.
  match type of Hrun with context [file_body ?a ?b ?c ?d ?e ?f ?g ?h ?i ?j ?k ?l ?m ?n ?o ?w1] =>
    pose proof (file_body_sequential d e f g h i j k l m n o w w1 eq_refl) as Hbody;
    destruct (file_body a b c d e f g h i j k l m n o w1) as [[n'|e'] wb]
  end; [|discriminate].
  injection Hrun as <- <-.
  destruct Hbody as (mds & w2 & H1 & H2 & H3 & H4).
  exists mds, w2. auto.
Qed.

(** ** The events of a file's processing *)

Section FileEvents.

Variable pdf unique_name : pystr.
Variable recent_files : list RecentFile.
Variable t0 : list (@Event Image).
Local Abbreviation fev := (file_event (Image := Image) pdf unique_name recent_files).
Local Abbreviation Inv := (since (Obj := Obj) t0 (Forall fev)).

Lemma fev_emit e w : fev e -> Inv w -> Inv (add_event e w).
Proof.
  intros He. apply since_emit. intros evs H. apply Forall_app. split; [exact H|].
  constructor; [exact He | constructor].
Qed.

Lemma load_chandra_file_events : preserves Inv load_chandra.
Proof. unfold _load_chandra. pres_by fev_emit. Qed.

Lemma render_page_file_events doc p : preserves Inv (render_page doc p).
Proof. unfold _render_page. pres_by fev_emit. Qed.

Lemma submit_file_events doc p : preserves Inv (submit doc p).
Proof. unfold submit. repeat first [apply render_page_file_events | progress pres_by fev_emit]. Qed.

Lemma future_result_file_events f : preserves Inv (future_result f).
Proof. destruct f; [apply preserves_lift | apply render_page_file_events]. Qed.

Lemma ocr_page_file_events u : preserves Inv (ocr_page u).
Proof.
  unfold ocr_page, ocr_image.
  repeat first [apply load_chandra_file_events | progress pres_by fev_emit].
Qed.

Lemma page_loop_file_events doc display_name done_count idx total errors
    file_start avg pipeline_start remaining :
  forall p_idx f,
  preserves Inv
    (page_loop doc (tmp_name unique_name) display_name done_count idx total errors
       file_start avg pipeline_start recent_files remaining p_idx f).
Proof.
  induction remaining as [|n IH]; intros p_idx f; cbn [page_loop].
  - apply preserves_ret.
  - repeat first
      [ apply future_result_file_events | apply submit_file_events
      | apply ocr_page_file_events | apply IH | progress pres_by fev_emit ].
Qed.

Lemma ocr_one_file_events done_count idx pending_len total errors avg pipeline_start :
  to_output_name pdf = Ok unique_name ->
  preserves Inv
    (ocr_one_file pdf done_count idx pending_len total errors avg pipeline_start
       recent_files).
Proof.
  intros Hname. unfold _ocr_one_file. rewrite Hname. unfold file_body.
  repeat first
    [ apply submit_file_events | apply page_loop_file_events
    | progress pres_by fev_emit ].
Qed.

End FileEvents.

(** ** The batch loop *)

Lemma errors_logged_app (a b : list (@Event Image)) :
  errors_logged (a ++ b) = errors_logged a + errors_logged b.
Proof. unfold errors_logged. rewrite List.filter_app, length_app. lia. Qed.


Lemma file_events_no_error pdf u rf (evs : list (@Event Image)) :
  Forall (file_event pdf u rf) evs -> errors_logged evs = 0 /\ error_then_gc evs.
Proof.
  induction 1 as [|e evs He Hevs [IH1 IH2]]; [split; [reflexivity | exact Logic.I]|].
  assert (Hne : is_error_log e = false).
  { destruct e as [[]| | | | | | | | | | | | | | |]; try reflexivity. contradiction. }
  unfold errors_logged in *. cbn [List.filter error_then_gc]. rewrite Hne.
  split; [exact IH1 | split; [exact Logic.I | exact IH2]].
Qed.

(** Rounding to the nearest integer, and to one decimal. *)
Lemma round0_nearest x :
  (x - (1 # 2) <= inject_Z (Num.round0 x) <= x + (1 # 2))%Q.
Proof.
  unfold Num.round0. cbv zeta.
  pose proof (Qfloor_le x) as Hle. pose proof (Qlt_floor x) as Hlt.
  rewrite inject_Z_plus in Hlt. change (inject_Z 1) with 1%Q in Hlt.
  destruct (Qcompare (x - inject_Z (Qfloor x)) (1 # 2)) eqn:Hc.
  - apply Qeq_alt in Hc. destruct (Z.even (Qfloor x));
      rewrite ?inject_Z_plus; change (inject_Z 1) with 1%Q; lra.
  - apply Qlt_alt in Hc. lra.
  - apply Qgt_alt in Hc. rewrite inject_Z_plus. change (inject_Z 1) with 1%Q. lra.
Qed.

Lemma round1_nearest x : nearest_tenth x (Num.round1 x).
Proof.
  unfold nearest_tenth, Num.round1. split; [exists (Num.round0 (x * 10)); reflexivity|].
  pose proof (round0_nearest (x * 10)) as [H1 H2].
  set (r := inject_Z (Num.round0 (x * 10))) in *.
  assert (Hr : (r / 10 * 10 == r)%Q) by (field).
  lra.
Qed.

(** What the file processor returns is the number of pages of the
    document. *)
Lemma bind_returns {A B} (m : @M Image Obj A) (k : A -> @M Image Obj B) (P : B -> Prop) :
  (forall a w b, fst (k a w) = Ok b -> P b) ->
  forall w b, fst ((m ≫= k) w) = Ok b -> P b.
Proof.
  intros Hk w b. unfold mbind, M_bind, bind.
  destruct (m w) as [[a|e] w1]; cbn [fst]; [apply Hk | discriminate].
Qed.

Lemma file_body_returns doc unique_name display_name done_count idx pending_len total
    errors file_start avg pipeline_start recent_files w n :
  fst (file_body isalpha isspace env doc unique_name display_name done_count idx
         pending_len total errors file_start avg pipeline_start recent_files w) = Ok n ->
  n = Z.of_nat (num_pages doc).
Proof.
  revert w n. unfold file_body.
  repeat (apply (bind_returns _ _ (fun n => n = Z.of_nat (num_pages doc))); intros ?).
  intros w n [= <-]. reflexivity.
Qed.

Lemma ocr_one_file_returns pdf done_count idx pending_len total errors avg pipeline_start
    recent_files w n :
  fst (ocr_one_file pdf done_count idx pending_len total errors avg pipeline_start
         recent_files w) = Ok n ->
  exists doc, pdf_document env pdf = Ok doc /\ n = Z.of_nat (num_pages doc).
Proof.
  destruct (to_output_name pdf) as [u|e] eqn:Hname;
    [|unfold _ocr_one_file; rewrite Hname; run_go; discriminate].
  destruct (pdf_document env pdf) as [doc|e] eqn:Hdoc.
  - rewrite (ocr_one_file_run pdf u doc) by assumption.
    match goal with |- context [file_body ?a ?b ?c ?d ?e ?f ?g ?h ?i ?j ?k ?l ?m ?o ?r ?w1] =>
      pose proof (file_body_returns d e f g h i j k l m o r w1) as Hbody;
      destruct (file_body a b c d e f g h i j k l m o r w1) as [[n'|e'] w2]
    end; cbn [fst snd] in *; [|discriminate].
    intros [= <-]. exists doc. split; [reflexivity | now apply Hbody].
  - unfold _ocr_one_file. rewrite Hname, Hdoc. unfold time_now. run_go. discriminate.
Qed.

Section BatchLoop.

Variable pending_len total : Z.
Variable pipeline_start : Q.
Local Abbreviation step := (batch_step pending_len total pipeline_start).
Local Abbreviation loop := (batch_loop pending_len total pipeline_start).

(** One pending file: it is skipped because its artifact exists, or it is
    processed and recorded, or its processing raises, which is counted,
    logged and followed by a memory-reclamation pass. In each case the step
    returns. *)
Lemma batch_step_cases i pdf st w unique_name :
  to_output_name pdf = Ok unique_name ->
  exists st' w' evs,
    step i pdf st w = (Ok st', w') /\ trace w' = trace w ++ evs
    /\ (forall q, q <> md_name unique_name -> q <> tmp_name unique_name ->
         fs w' !! q = fs w !! q)
    /\ ((is_Some (fs w !! md_name unique_name) /\ evs = [] /\ w' = w
         /\ st' = {| done_count := done_count st + 1; errors := errors st;
                     file_times := file_times st; recent_files := recent_files st |})
        \/ (fs w !! md_name unique_name = None
            /\ exists evs0 elapsed per_page avg' s rf,
                 evs = evs0 ++ [EvLog (LogFileDone elapsed per_page avg'); EvStatus s]
                 /\ st' = {| done_count := done_count st; errors := errors st;
                             file_times := file_times st ++ [elapsed];
                             recent_files := recent_files st ++ [rf] |}
                 /\ Forall (file_event pdf unique_name (recent_files st)) evs0
                 /\ rf_name rf = display_name_of pdf
                 /\ sn_recent_files s = last_n 10 (recent_files st ++ [rf])
                 /\ is_Some (fs w' !! md_name unique_name))
        \/ (fs w !! md_name unique_name = None
            /\ exists evs0 e,
                 evs = evs0 ++ [EvLog (LogError (display_name_of pdf) e); EvGc]
                 /\ Forall (file_event pdf unique_name (recent_files st)) evs0
                 /\ st' = {| done_count := done_count st; errors := errors st + 1;
                             file_times := file_times st;
                             recent_files := recent_files st |})).
Proof.
  intros Hname. unfold batch_step. rewrite Hname. unfold fs_exists. run_go.
  destruct (fs w !! md_name unique_name) as [c|] eqn:Hfs.
  - rewrite bool_decide_eq_true_2 by eauto. cbn [ret].
    eexists _, w, []. split; [reflexivity|]. split; [now rewrite app_nil_r|].
    split; [reflexivity|]. left. eauto.
  - rewrite bool_decide_eq_false_2 by (intros [? ?]; congruence).
    unfold time_now. run_go. unfold try_except.
    rewrite ?run_bind.
    match goal with |- context [ocr_one_file pdf ?a ?b ?c ?d ?e ?f ?g ?h ?w1] =>
      pose proof (ocr_one_file_events pdf unique_name (recent_files st) (trace w1)
                    a b c d e f g Hname w1 (since_start _ _ (List.Forall_nil _))) as Hev;
      pose proof (fun n => ocr_one_file_success pdf unique_name a b c d e f g h w1 n Hname)
        as Hmd;
      assert (Hother : forall q, q <> md_name unique_name -> q <> tmp_name unique_name ->
                fs (snd (ocr_one_file pdf a b c d e f g h w1)) !! q = fs w !! q)
        by (intros q Hq1 Hq2;
            apply (ocr_one_file_fs_other pdf a b c d e f g h q (fs w !! q));
            [intros u Hu; assert (u = unique_name) by congruence; subst u; auto
            | reflexivity]);
      destruct (ocr_one_file pdf a b c d e f g h w1) as [[n|e'] w2]
    end; cbn [fst snd] in Hev, Hmd, Hother; destruct Hev as (evs0 & Ht & Hall).
    + unfold _log, _save_progress. run_go.
      eexists _, _, _. split; [reflexivity|]. split.
      { cbn [trace set_status add_event tick_clock] in *. rewrite Ht.
        rewrite <- !app_assoc. reflexivity. }
      split; [exact Hother|].
      right. left. split; [reflexivity|].
      eexists evs0, _, _, _, _, _. split; [reflexivity|]. split; [reflexivity|].
      split; [exact Hall|]. split; [reflexivity|]. split; [reflexivity|].
      apply (Hmd n). reflexivity.
    + unfold _log, _free_memory. run_go.
      eexists _, _, _. split; [reflexivity|]. split.
      { cbn [trace add_event tick_clock] in *. rewrite Ht.
        rewrite <- !app_assoc. reflexivity. }
      split; [exact Hother|].
      right. right. split; [reflexivity|].
      eexists evs0, e'. split; [reflexivity|]. split; [exact Hall | reflexivity].
Qed.


(** One turn of the loop is a turn as described by [turn]. *)
Lemma batch_step_turn i pdf st w unique_name :
  to_output_name pdf = Ok unique_name ->
  exists o st' w',
    step i pdf st w = (Ok st', w')
    /\ turn isalpha isspace resolve DATA_DIR env pending_len total pipeline_start
         i pdf st w o st' w'.
Proof.
  intros Hname. unfold batch_step. rewrite Hname. unfold fs_exists. run_go.
  destruct (fs w !! md_name unique_name) as [c|] eqn:Hfs.
  - rewrite bool_decide_eq_true_2 by eauto. cbn [ret].
    exists Skipped. eexists _, _. split; [reflexivity|].
    unfold turn, artifact_exists. rewrite Hname, Hfs.
    split; [now apply bool_decide_eq_true_2 | split; reflexivity].
  - rewrite bool_decide_eq_false_2 by (intros [? ?]; congruence).
    unfold time_now. run_go. unfold try_except. rewrite ?run_bind.
    assert (Habs : artifact_exists resolve DATA_DIR (fs w) pdf = false).
    { unfold artifact_exists. rewrite Hname, Hfs.
      apply bool_decide_eq_false_2. intros [? ?]; congruence. }
    match goal with |- context [ocr_one_file pdf ?a ?b ?c ?d ?e ?f ?g ?h ?w1] =>
      pose proof (ocr_one_file_returns pdf a b c d e f g h w1) as Hret;
      destruct (ocr_one_file pdf a b c d e f g h w1) as [[n|e'] w2] eqn:Hrun
    end; cbn [fst] in Hret.
    + destruct (Hret n eq_refl) as (doc & Hdoc & ->).
      unfold _log, _save_progress. run_go.
      eexists (Completed {| rf_name := display_name_of pdf;
                            rf_pages := Z.of_nat (num_pages doc);
                            rf_duration := Num.round1 _;
                            rf_per_page := Num.round1 _ |}), _, _.
      split; [reflexivity|].
      unfold turn. rewrite Hrun. cbn [fst snd].
      split; [exact Habs|]. exists doc. split; [exact Hdoc|]. split; [reflexivity|].
      cbv zeta. split; [reflexivity|]. split; [reflexivity|].
      split; [apply round1_nearest|]. split; [apply round1_nearest|].
      split; [reflexivity|].
      eexists. split; [|split; [reflexivity|split; [|reflexivity]]].
      * reflexivity.
      * cbn [trace set_status add_event tick_clock]. rewrite <- !app_assoc. reflexivity.
    + unfold _log, _free_memory. run_go.
      eexists (Failed e'), _, _. split; [reflexivity|].
      unfold turn. rewrite Hrun. cbn [fst snd]. auto.
Qed.

(** The batch loop returns, and its turns are as [turn] describes them. *)
Lemma batch_loop_turns pending :
  forall i st w,
  Forall (fun pdf => is_ok (to_output_name pdf) = true) pending ->
  exists outs st' w',
    loop i pending st w = (Ok st', w')
    /\ turns isalpha isspace resolve DATA_DIR env pending_len total pipeline_start
         i pending st w outs st' w'.
Proof.
  induction pending as [|pdf rest IH]; intros i st w Hnamed.
  - exists [], st, w. split; [reflexivity | split; reflexivity].
  - inversion Hnamed as [|? ? Hpdf Hrest]; subst.
    destruct (to_output_name pdf) as [u|] eqn:Hname; [|discriminate].
    destruct (batch_step_turn i pdf st w u Hname) as (o & st1 & w1 & Hstep & Hturn).
    destruct (IH (i + 1) st1 w1 Hrest) as (outs & st' & w' & Hloop & Hturns).
    exists (o :: outs), st', w'. cbn [batch_loop turns].
    rewrite run_bind, Hstep, Hloop. split; [reflexivity|]. eauto.
Qed.

Lemma turns_locals pending :
  forall i st w outs st' w',
  turns isalpha isspace resolve DATA_DIR env pending_len total pipeline_start
    i pending st w outs st' w' ->
  length outs = length pending
  /\ errors st' = errors st + Z.of_nat (failures outs)
  /\ recent_files st' = recent_files st ++ entries outs.
Proof.
  induction pending as [|pdf rest IH]; intros i st w [|o outs] st' w' H;
    cbn [turns] in H; try contradiction.
  - destruct H as [-> ->]. cbn. rewrite app_nil_r. repeat split; lia.
  - destruct H as (st1 & w1 & Hturn & Hrest).
    destruct (IH _ _ _ _ _ _ Hrest) as (Hlen & Herr & Hrec).
    rewrite Herr, Hrec. unfold failures in *. cbn [length List.filter entries].
    destruct o as [|entry|err]; cbn [turn is_failed] in Hturn |- *.
    + destruct Hturn as (_ & -> & _). cbn [errors recent_files length].
      repeat split; lia.
    + destruct Hturn as (_ & doc & _ & _ & _ & _ & _ & _ & -> & _).
      cbn [errors recent_files].
      rewrite <- app_assoc. cbn [app length]. repeat split; lia.
    + destruct Hturn as (_ & _ & -> & _). cbn [errors recent_files length].
      repeat split; lia.
Qed.



End BatchLoop.

(** ** Lazy loading of the fallback model *)

Section LazyLoad.

Variable t0 : list (@Event Image).
Variable c0 : @ChandraState Obj.
Variable n0 : nat.
Local Abbreviation Lazy := (lazy_inv t0 c0 n0).

Lemma lazy_emit e w : is_loaded_log e = false -> Lazy w -> Lazy (add_event e w).
Proof.
  intros He [(evs & Ht & Hc) Hs]. split; [|exact Hs].
  exists (evs ++ [e]). split; [cbn; rewrite Ht; now rewrite <- app_assoc|].
  cbn [chandra add_event]. unfold models_loaded in *.
  rewrite List.filter_app, length_app. cbn [List.filter]. rewrite He.
  cbn [length]. rewrite Nat.add_0_r. exact Hc.
Qed.

Lemma lazy_silent (w w' : @World Image Obj) :
  trace w' = trace w -> chandra w' = chandra w -> loads w' = loads w ->
  Lazy w -> Lazy w'.
Proof.
  intros Ht Hc Hl [(evs & Ht' & Hm) Hs]. split.
  - exists evs. rewrite Ht, Hc. auto.
  - rewrite Hc, Hl. exact Hs.
Qed.

Ltac lazy_pres :=
  unfold_helpers;
  repeat (pres_step;
          try (apply lazy_emit; [reflexivity | assumption]);
          try (eapply lazy_silent; [reflexivity | reflexivity | reflexivity | assumption])).

(** Loading keeps the invariant: nothing happens when the state is marked
    loaded; otherwise the state is marked loaded only by a load that has
    gone through, which is logged once. *)
Lemma load_chandra_lazy : preserves Lazy load_chandra.
Proof.
  intros w HI. change (wp load_chandra (fun _ w' => Lazy w') w).
  unfold _load_chandra, get_chandra, mlx_load_call, _log, time_now.
  wp_run idtac.
  destruct (loaded (chandra w)) eqn:Hl; wp_run idtac; [exact HI|].
  destruct HI as [(evs & Ht & Hm) Hs]. rewrite Hl in Hm.
  assert (Hc0 : loaded c0 = false).
  { destruct (loaded c0) eqn:E; [|reflexivity].
    destruct (Hs eq_refl) as [<- _]. congruence. }
  assert (Hs' : loaded c0 = true -> False) by congruence.
  cbn [loads add_event tick_clock].
  destruct (mlx_load env (loads w)) as [[mdl prc]|e]; wp_run idtac.
  - cbn [chandra set_chandra tick_loads add_event tick_clock processor].
    destruct (mlx_chat_template env prc) as [prompt|e]; wp_run idtac.
    + split; [|intros H; destruct (Hs' H)].
      eexists (evs ++ [EvLog LogLoading; EvLoad (loads w); EvLog (LogLoaded _)]).
      split; [cbn; rewrite Ht; now rewrite <- !app_assoc|].
      cbn. unfold models_loaded in *. rewrite List.filter_app, length_app, Hm.
      cbn. lia.
    + split; [|intros H; destruct (Hs' H)].
      exists (evs ++ [EvLog LogLoading; EvLoad (loads w)]).
      split; [cbn; rewrite Ht; now rewrite <- !app_assoc|].
      cbn. rewrite Hl. unfold models_loaded in *.
      rewrite List.filter_app, length_app, Hm. reflexivity.
  - split; [|intros H; destruct (Hs' H)].
    exists (evs ++ [EvLog LogLoading; EvLoad (loads w)]).
    split; [cbn; rewrite Ht; now rewrite <- !app_assoc|].
    cbn. rewrite Hl. unfold models_loaded in *.
    rewrite List.filter_app, length_app, Hm. reflexivity.
Qed.

Lemma render_page_lazy doc p : preserves Lazy (render_page doc p).
Proof. unfold _render_page. lazy_pres. Qed.

Lemma submit_lazy doc p : preserves Lazy (submit doc p).
Proof. unfold submit. repeat first [apply render_page_lazy | progress lazy_pres]. Qed.

Lemma future_result_lazy f : preserves Lazy (future_result f).
Proof. destruct f; [apply preserves_lift | apply render_page_lazy]. Qed.

Lemma ocr_page_lazy u : preserves Lazy (ocr_page u).
Proof.
  unfold ocr_page, ocr_image. repeat first [apply load_chandra_lazy | progress lazy_pres].
Qed.

Lemma page_loop_lazy doc tmp_path display_name done_count idx total errors
    file_start avg pipeline_start recent_files remaining :
  forall p_idx f,
  preserves Lazy
    (page_loop doc tmp_path display_name done_count idx total errors
       file_start avg pipeline_start recent_files remaining p_idx f).
Proof.
  induction remaining as [|n IH]; intros p_idx f; cbn [page_loop].
  - apply preserves_ret.
  - repeat first
      [ apply future_result_lazy | apply submit_lazy | apply ocr_page_lazy
      | apply IH | progress lazy_pres ].
Qed.

Lemma ocr_one_file_lazy pdf done_count idx pending_len total errors avg pipeline_start
    recent_files :
  preserves Lazy
    (ocr_one_file pdf done_count idx pending_len total errors avg pipeline_start
       recent_files).
Proof.
  unfold _ocr_one_file, file_body.
  repeat first [ apply submit_lazy | apply page_loop_lazy | progress lazy_pres ].
Qed.

Lemma batch_loop_lazy pending_len total pipeline_start pending :
  forall i st, preserves Lazy (batch_loop pending_len total pipeline_start i pending st).
Proof.
  induction pending as [|pdf rest IH]; intros i st; cbn [batch_loop].
  - apply preserves_ret.
  - unfold batch_step.
    repeat first [ apply ocr_one_file_lazy | apply IH | progress lazy_pres ].
Qed.

End LazyLoad.

(** ** The recent-file history *)

Lemma length_last_n {A} (n : nat) (l : list A) :
  length (last_n n l) = Nat.min n (length l).
Proof. unfold last_n. rewrite length_skipn. lia. Qed.

Lemma firstn_app_exact {A} (l m : list A) : firstn (length l) (l ++ m) = l.
Proof. induction l as [|a l IH]; cbn; [now destruct m | now rewrite IH]. Qed.

Lemma files_completed_app (a b : list (@Event Image)) :
  files_completed (a ++ b) = (files_completed a + files_completed b)%nat.
Proof. unfold files_completed. now rewrite List.filter_app, length_app. Qed.

Lemma history_ok_app history (a b : list (@Event Image)) :
  forall k,
  history_ok history k a -> history_ok history (k + files_completed a) b ->
  history_ok history k (a ++ b).
Proof.
  induction a as [|e a IH]; intros k Ha Hb.
  - cbn in Hb. now rewrite Nat.add_0_r in Hb.
  - cbn [app history_ok] in *. destruct Ha as [He Ha]. split; [exact He|].
    apply IH; [exact Ha|].
    unfold files_completed in *. cbn [List.filter] in Hb.
    destruct (is_done_log e); cbn [length] in Hb;
      [now rewrite Nat.add_succ_r in Hb | exact Hb].
Qed.

(** While a file is processed, the snapshots hold the history of the files
    completed before it. *)
Lemma file_events_history pdf unique_name recent more (evs : list (@Event Image)) :
  Forall (file_event pdf unique_name recent) evs ->
  files_completed evs = 0%nat
  /\ history_ok (recent ++ more) (length recent) evs.
Proof.
  induction 1 as [|e evs He _ [IHc IHh]]; [split; [reflexivity | exact Logic.I]|].
  assert (Hd : is_done_log e = false)
    by (destruct e as [[]| | | | | | | | | | | | | | |]; try reflexivity; destruct He).
  split.
  - unfold files_completed in *. cbn [List.filter]. now rewrite Hd.
  - cbn [history_ok]. rewrite Hd. split; [|exact IHh].
    destruct e; try exact Logic.I. cbn in He.
    rewrite firstn_app_exact, He. split; [reflexivity | apply length_last_n].
Qed.

Section History.

Variable pending_len total : Z.
Variable pipeline_start : Q.
Local Abbreviation loop := (batch_loop pending_len total pipeline_start).

(** The batch loop appends one entry per completed file, named after the
    file, and every snapshot on the way holds the last ten entries. *)
Lemma batch_loop_history pending :
  forall i st w,
  Forall (fun pdf => is_ok (to_output_name pdf) = true) pending ->
  exists st' w' evs new,
    loop i pending st w = (Ok st', w')
    /\ trace w' = trace w ++ evs
    /\ recent_files st' = recent_files st ++ new
    /\ files_completed evs = length new
    /\ Forall (fun rf => exists pdf, In pdf pending /\ rf_name rf = display_name_of pdf) new
    /\ history_ok (recent_files st') (length (recent_files st)) evs.
Proof.
  induction pending as [|pdf rest IH]; intros i st w Hnamed.
  - exists st, w, [], []. cbn [batch_loop ret]. rewrite !app_nil_r.
    repeat split; constructor.
  - inversion Hnamed as [|? ? Hpdf Hrest]; subst.
    destruct (to_output_name pdf) as [u|] eqn:Hname; [|discriminate].
    destruct (batch_step_cases pending_len total pipeline_start i pdf st w u Hname)
      as (st1 & w1 & evs1 & Hstep & Ht & _ & Hcase).
    destruct (IH (i + 1) st1 w1 Hrest)
      as (st' & w' & evs2 & new2 & Hloop & Ht' & Hr & Hc & Hn & Hh).
    assert (Hn' : Forall (fun rf => exists pdf0, In pdf0 (pdf :: rest)
                            /\ rf_name rf = display_name_of pdf0) new2).
    { eapply List.Forall_impl; [|exact Hn]. intros rf (p0 & Hin & Hrf).
      exists p0. split; [now right | exact Hrf]. }
    cbn [batch_loop]. rewrite run_bind, Hstep, Hloop.
    destruct Hcase as [(_ & -> & _ & ->) | [(_ & H) | (_ & H)]].
    + exists st', w', evs2, new2. cbn [recent_files] in *.
      rewrite Ht', Ht, app_nil_r. auto 10.
    + destruct H as (evs0 & el & pp & av & s & rf & -> & -> & Hall & Hrf & Hs & _).
      cbn [recent_files] in *.
      destruct (file_events_history _ _ _ (rf :: new2) _ Hall) as [Hc0 Hh0].
      exists st', w', ((evs0 ++ [EvLog (LogFileDone el pp av); EvStatus s]) ++ evs2),
        (rf :: new2).
      split; [reflexivity|]. split; [rewrite Ht', Ht; now rewrite <- !app_assoc|].
      assert (Hrec : recent_files st' = recent_files st ++ rf :: new2)
        by (rewrite Hr, <- app_assoc; reflexivity).
      split; [exact Hrec|]. split.
      { rewrite !files_completed_app, Hc0, Hc. reflexivity. }
      split.
      { constructor; [|exact Hn']. exists pdf. split; [now left | exact Hrf]. }
      rewrite Hrec. apply history_ok_app; [apply history_ok_app|].
      * exact Hh0.
      * rewrite Hc0, Nat.add_0_r. cbn [history_ok is_done_log].
        split; [exact Logic.I|]. split; [|exact Logic.I].
        replace (recent_files st ++ rf :: new2)
          with ((recent_files st ++ [rf]) ++ new2) by (now rewrite <- app_assoc).
        replace (S (length (recent_files st)))
          with (length (recent_files st ++ [rf])) by (rewrite length_app; cbn; lia).
        rewrite firstn_app_exact, Hs. split; [reflexivity | apply length_last_n].
      * rewrite files_completed_app, Hc0. cbn.
        rewrite <- Hrec. rewrite length_app in Hh. cbn [length] in Hh.
        replace (length (recent_files st) + 1)%nat
          with (length (recent_files st) + 1)%nat in * by reflexivity.
        exact Hh.
    + destruct H as (evs0 & e & -> & Hall & ->). cbn [recent_files] in *.
      destruct (file_events_history _ _ _ new2 _ Hall) as [Hc0 Hh0].
      exists st', w', ((evs0 ++ [EvLog (LogError (display_name_of pdf) e); EvGc]) ++ evs2),
        new2.
      split; [reflexivity|]. split; [rewrite Ht', Ht; now rewrite <- !app_assoc|].
      split; [exact Hr|]. split.
      { rewrite !files_completed_app, Hc0, Hc. reflexivity. }
      split; [exact Hn'|].
      rewrite Hr. apply history_ok_app; [apply history_ok_app|].
      * exact Hh0.
      * cbn. tauto.
      * rewrite files_completed_app, Hc0. cbn. rewrite Nat.add_0_r, <- Hr. exact Hh.
Qed.

End History.

(** Partitioning the file list only looks at the output directory. *)
Lemma partition_files_world files :
  forall done_count pending w, snd (partition_files files done_count pending w) = w.
Proof.
  induction files as [|pdf rest IH]; intros done_count pending w; [reflexivity|].
  cbn [partition_files]. unfold fs_exists. run_go.
  destruct (to_output_name pdf) as [u|e]; [|reflexivity].
  run_go. destruct (bool_decide _); apply IH.
Qed.

(** Over a whole batch the model is loaded at most once. *)
Lemma run_ocr_loads_once w :
  since (trace w) (fun evs => (models_loaded evs <= 1)%nat) (snd (run_ocr w)).
Proof.
  change (wp run_ocr (fun _ w' => since (trace w) (fun evs => (models_loaded evs <= 1)%nat) w') w).
  unfold _run_ocr. rewrite wp_bind, wp_lift.
  destruct (classification env) as [[scanned mixed]|e];
    [|apply since_start; cbn; lia].
  rewrite wp_bind. unfold wp at 1.
  pose proof (partition_files_world (scanned ++ mixed) 0 [] w) as Hw.
  destruct (partition_files (scanned ++ mixed) 0 [] w) as [[[done0 pending]|e] w1];
    cbn [fst snd] in *; subst w1; [|apply since_start; cbn; lia].
  unfold _log, _save_progress, time_now, get_counts.
  destruct pending as [|pdf rest].
  - wp_run idtac. unfold since. cbn [trace add_event set_status set_counts set_chandra tick_clock].
    rewrite <- !app_assoc. eexists. split; [reflexivity|]. cbn. lia.
  - wp_run idtac.
    match goal with |- wp (batch_loop ?a ?b ?c ?d ?e ?f) _ ?w1 =>
      pose proof (batch_loop_lazy (trace w) ChandraState_new 0 a b c e d f w1) as Hloop;
      unfold wp; destruct (batch_loop a b c d e f w1) as [[st|e'] w2]
    end; cbn [fst snd] in *.
    + destruct Hloop as [(evs & Ht & Hm) _].
      { unfold lazy_inv. split; [|discriminate]. cbn [trace add_event set_chandra set_counts tick_clock chandra loaded ChandraState_new].
        rewrite <- !app_assoc. eexists. split; [reflexivity|]. reflexivity. }
      unfold since. run_go. unfold emit, modify. cbn [snd trace add_event tick_clock].
      rewrite Ht, <- !app_assoc. eexists. split; [reflexivity|].
      unfold models_loaded in *. rewrite List.filter_app, length_app. cbn.
      destruct (loaded (chandra w2)); lia.
    + destruct Hloop as [(evs & Ht & Hm) _].
      { unfold lazy_inv. split; [|discriminate]. cbn [trace add_event set_chandra set_counts tick_clock chandra loaded ChandraState_new].
        rewrite <- !app_assoc. eexists. split; [reflexivity|]. reflexivity. }
      exists evs. split; [exact Ht|]. destruct (loaded (chandra w2)); lia.
Qed.

(** C7, as amended. [_load_chandra] does nothing when the state is marked
    loaded. A page whose fast-engine text passes the gate leaves the state
    alone and tries no load. At a gate failure met while the state is not
    marked loaded, a load is attempted. From a state marked loaded on, the
    batch loop keeps that very state and attempts no load. Over a whole
    batch the model is loaded at most once. *)
Theorem model_loaded_lazily_once image text w :
  image_to_string env image = Ok text ->
  (loaded (chandra w) = true -> load_chandra w = (Ok tt, w))
  /\ (_tesseract_quality_ok isalpha text = true ->
      chandra (snd (ocr_image image w)) = chandra w
      /\ loads (snd (ocr_image image w)) = loads w)
  /\ (_tesseract_quality_ok isalpha text = false -> loaded (chandra w) = false ->
      loads (snd (ocr_image image w)) = S (loads w)
      /\ exists rest,
           trace (snd (ocr_image image w))
           = trace w ++ [EvTesseract image; EvLog LogLoading; EvLoad (loads w)] ++ rest)
  /\ (loaded (chandra w) = true ->
      forall pending_len total pipeline_start i pending st,
        let w' := snd (batch_loop pending_len total pipeline_start i pending st w) in
        chandra w' = chandra w /\ loads w' = loads w)
  /\ since (trace w) (fun evs => (models_loaded evs <= 1)%nat) (snd (run_ocr w)).
Proof.
  intros Htext. split; [|split; [|split; [|split]]].
  - intros Hl. unfold _load_chandra, get_chandra. run_go. now rewrite Hl.
  - intros Hok. unfold ocr_image, _tesseract_ocr. run_go. rewrite Htext, Hok.
    run_go. split; reflexivity.
  - intros Hok Hl. unfold ocr_image, _tesseract_ocr. run_go. rewrite Htext, Hok.
    unfold _load_chandra, get_chandra, mlx_load_call, _log, time_now, _chandra_ocr.
    run_go. cbn [chandra add_event]. rewrite Hl. run_go.
    cbn [loads add_event tick_clock].
    destruct (mlx_load env (loads w)) as [[mdl prc]|e]; run_go;
      [destruct (mlx_chat_template env prc) as [prompt|e]; run_go;
       [destruct (mlx_generate env _ _ _ image) as [md|e]; run_go |] |];
      unfold ret, raise, emit, modify;
      cbn [snd loads trace add_event tick_clock tick_loads set_chandra set_counts];
      (split; [reflexivity|]);
      rewrite <- ?app_assoc; cbn [app]; eexists; reflexivity.
  - intros Hl pending_len total pipeline_start i pending st w'. subst w'.
    apply (batch_loop_lazy (trace w) (chandra w) (loads w)); [|exact Hl].
    split; [|auto]. exists []. rewrite app_nil_r, Hl. split; [reflexivity | cbn; lia].
  - apply run_ocr_loads_once.
Qed.

(** ** Skipping the files whose artifact exists *)

Local Abbreviation named := (fun pdf => is_ok (to_output_name pdf) = true).
Local Abbreviation has_artifact := (artifact_exists resolve DATA_DIR).

Lemma artifact_exists_true m pdf u :
  to_output_name pdf = Ok u -> is_Some (m !! md_name u) -> has_artifact m pdf = true.
Proof.
  intros Hu Hs. unfold artifact_exists. rewrite Hu. now apply bool_decide_eq_true_2.
Qed.

Lemma artifact_exists_mono (m m' : gmap pystr pystr) pdf :
  (forall u, is_Some (m !! md_name u) -> is_Some (m' !! md_name u)) ->
  has_artifact m pdf = true -> has_artifact m' pdf = true.
Proof.
  intros Hmono. unfold artifact_exists. destruct (to_output_name pdf) as [u|]; [|auto].
  intros H. apply bool_decide_eq_true_1 in H. apply bool_decide_eq_true_2. auto.
Qed.

(** The first loop of [_run_ocr]: it raises when a listed file has no
    output name; otherwise it counts the files whose artifact exists and
    collects the others, in order. *)
Lemma partition_files_spec files :
  forall d p w,
  (Forall named files
   /\ partition_files files d p w
      = (Ok (d + Z.of_nat (length (List.filter (has_artifact (fs w)) files)),
             p ++ List.filter (fun pdf => negb (has_artifact (fs w) pdf)) files), w))
  \/ (~ Forall named files /\ exists e, partition_files files d p w = (Raise e, w)).
Proof.
  induction files as [|pdf rest IH]; intros d p w.
  - left. split; [constructor|]. cbn. now rewrite Z.add_0_r, app_nil_r.
  - cbn [partition_files List.filter]. unfold fs_exists.
    run_go. destruct (to_output_name pdf) as [u|e] eqn:Hname.
    + assert (Ha : has_artifact (fs w) pdf = bool_decide (is_Some (fs w !! md_name u)))
        by (unfold artifact_exists; now rewrite Hname).
      rewrite !Ha. run_go.
      destruct (bool_decide (is_Some (fs w !! md_name u))); cbn [negb].
      * destruct (IH (d + 1) p w) as [[Hn ->]|[Hn [e ->]]]; [left|right].
        -- split; [constructor; [now rewrite Hname | exact Hn]|].
           cbn [length]. now rewrite Nat2Z.inj_succ, <- Z.add_1_l, Z.add_assoc.
        -- split; [|eauto]. intros H. inversion H. auto.
      * destruct (IH d (p ++ [pdf]) w) as [[Hn ->]|[Hn [e ->]]]; [left|right].
        -- split; [constructor; [now rewrite Hname | exact Hn]|].
           now rewrite <- app_assoc.
        -- split; [|eauto]. intros H. inversion H. auto.
    + right. split; [|eauto]. intros H. inversion H as [|? ? Hpdf _]; subst.
      rewrite Hname in Hpdf. discriminate.
Qed.

Lemma errors_logged_nonneg (evs : list (@Event Image)) : 0 <= errors_logged evs.
Proof. unfold errors_logged. lia. Qed.

Section Artifacts.

Variable pending_len total : Z.
Variable pipeline_start : Q.
Local Abbreviation loop := (batch_loop pending_len total pipeline_start).

(** A pending file whose artifact exists is skipped: nothing happens but
    the count of files already done. *)
Lemma batch_step_skip i pdf st w unique_name :
  to_output_name pdf = Ok unique_name ->
  is_Some (fs w !! md_name unique_name) ->
  batch_step pending_len total pipeline_start i pdf st w
  = (Ok {| done_count := done_count st + 1; errors := errors st;
           file_times := file_times st; recent_files := recent_files st |}, w).
Proof.
  intros Hname Hs. unfold batch_step. rewrite Hname. unfold fs_exists. run_go.
  now rewrite bool_decide_eq_true_2 by exact Hs.
Qed.

(** The batch loop never removes an artifact, and the files that it
    neither skips nor completes are those with an error line in the log. *)
Lemma batch_loop_artifacts pending :
  forall i st w,
  Forall named pending ->
  exists st' w' evs,
    loop i pending st w = (Ok st', w')
    /\ trace w' = trace w ++ evs
    /\ (forall u, is_Some (fs w !! md_name u) -> is_Some (fs w' !! md_name u))
    /\ (errors_logged evs = 0 ->
        Forall (fun pdf => has_artifact (fs w') pdf = true) pending).
Proof.
  induction pending as [|pdf rest IH]; intros i st w Hnamed.
  - exists st, w, []. cbn [batch_loop ret]. rewrite app_nil_r. auto.
  - inversion Hnamed as [|? ? Hpdf Hrest]; subst.
    destruct (to_output_name pdf) as [u|] eqn:Hname; [|discriminate].
    destruct (batch_step_cases pending_len total pipeline_start i pdf st w u Hname)
      as (st1 & w1 & evs1 & Hstep & Ht & Hother & Hcase).
    destruct (IH (i + 1) st1 w1 Hrest) as (st' & w' & evs2 & Hloop & Ht' & Hmono & Hall).
    cbn [batch_loop]. rewrite run_bind, Hstep, Hloop.
    assert (Hmono1 : forall u', is_Some (fs w !! md_name u') ->
                       is_Some (fs w1 !! md_name u')).
    { intros u' Hs. destruct (decide (md_name u' = md_name u)) as [Heq|Hne].
      - rewrite Heq in Hs |- *. destruct Hcase as [(_ & _ & -> & _) | [(_ & H) | (Hnone & _)]].
        + exact Hs.
        + destruct H as (? & ? & ? & ? & ? & ? & _ & _ & _ & _ & _ & Hmd). exact Hmd.
        + rewrite Hnone in Hs. destruct Hs; discriminate.
      - rewrite Hother; [exact Hs | exact Hne | apply md_tmp_distinct]. }
    exists st', w', (evs1 ++ evs2). split; [reflexivity|].
    split; [rewrite Ht', Ht; now rewrite <- app_assoc|].
    split; [auto|].
    rewrite errors_logged_app. intros Hz.
    pose proof (errors_logged_nonneg evs1) as Hge1.
    pose proof (errors_logged_nonneg evs2) as Hge2.
    constructor; [|apply Hall; lia].
    apply (artifact_exists_true _ _ u Hname). apply Hmono.
    destruct Hcase as [(Hs & _ & -> & _) | [(_ & H) | (_ & H)]].
    + exact Hs.
    + destruct H as (? & ? & ? & ? & ? & ? & _ & _ & _ & _ & _ & Hmd). exact Hmd.
    + destruct H as (evs0 & e & -> & Hev & _).
      destruct (file_events_no_error _ _ _ _ Hev) as [H0 _].
      rewrite errors_logged_app, H0 in *. unfold errors_logged in *. cbn in *. lia.
Qed.

End Artifacts.

(** ** A whole batch run *)

(** A batch run raises, before anything happens, when the classification
    cannot be read or a listed file has no output name. Otherwise it
    returns: with nothing pending it writes one snapshot and leaves the
    directory alone; else it runs the batch loop between two pairs of log
    lines. *)
Lemma run_ocr_spec w :
  let files := listed_files env in
  let total := Z.of_nat (length files) in
  let pending := List.filter (fun pdf => negb (has_artifact (fs w) pdf)) files in
  let r := run_ocr w in
  ((exists e, fst r = Raise e) /\ snd r = w
   /\ (is_ok (classification env) = false \/ ~ Forall named files))
  \/ (fst r = Ok tt /\ is_ok (classification env) = true /\ Forall named files
      /\ ((pending = [] /\ fs (snd r) = fs w
           /\ exists s,
                trace (snd r)
                = trace w ++ [EvLog (LogTotal total total 0); EvLog LogNothing; EvStatus s]
                /\ status_file (snd r) = Some s
                /\ sn_done s = total /\ sn_total s = total /\ sn_errors s = 0
                /\ sn_recent_files s = [])
          \/ (pending <> []
              /\ exists d0 evs done_count errors t n_tess n_vlm n_txt history,
                   trace (snd r)
                   = trace w
                     ++ [EvLog (LogTotal total d0 (Z.of_nat (length pending)));
                         EvLog LogHybrid]
                     ++ evs
                     ++ [EvLog (LogComplete done_count errors t);
                         EvLog (LogEngineStats n_tess n_vlm n_txt)]
                   /\ files_completed evs = length history
                   /\ Forall (fun rf => exists pdf, In pdf pending
                                 /\ rf_name rf = display_name_of pdf) history
                   /\ history_ok history 0 evs
                   /\ (forall u, is_Some (fs w !! md_name u) ->
                                 is_Some (fs (snd r) !! md_name u))
                   /\ (errors_logged evs = 0 ->
                       Forall (fun pdf => has_artifact (fs (snd r)) pdf = true) pending)))).
Proof.
  cbv zeta. unfold listed_files, _run_ocr. rewrite run_bind. cbn [lift].
  destruct (classification env) as [[scanned mixed]|e];
    [|left; cbn; split; [eauto | auto]].
  rewrite run_bind.
  destruct (partition_files_spec (scanned ++ mixed) 0 [] w) as [[Hn Hp]|[Hn [e Hp]]];
    rewrite Hp; [|left; cbn; split; [eauto | auto]].
  right. cbn [app]. rewrite Z.add_0_l.
  pose proof (List.filter_length (has_artifact (fs w)) (scanned ++ mixed)) as Hlen.
  assert (Hsub : Forall named
            (List.filter (fun pdf => negb (has_artifact (fs w) pdf)) (scanned ++ mixed))).
  { apply List.Forall_forall. intros pdf Hin. apply List.filter_In in Hin.
    eapply List.Forall_forall in Hn; [exact Hn | tauto]. }
  destruct (List.filter (fun pdf => negb (has_artifact (fs w) pdf)) (scanned ++ mixed))
    as [|pdf rest] eqn:Hpend.
  - cbn [length] in Hlen. rewrite Nat.add_0_r in Hlen. rewrite Hlen.
    unfold _log, _save_progress. run_go. unfold modify.
    cbn [fst snd fs trace status_file set_status add_event length Z.of_nat].
    repeat (split; [auto; fail|]). left. repeat (split; [reflexivity|]).
    eexists. rewrite <- !app_assoc. repeat (split; [reflexivity|]). reflexivity.
  - unfold _log, time_now, get_counts. run_go.
    match goal with |- context [batch_loop ?a ?b ?c ?d ?e ?f ?w1] =>
      destruct (batch_loop_history a b c e d f w1 Hsub)
        as (st' & w' & evs & new & Hloop & Ht & Hr & Hc & Hnew & Hh);
      destruct (batch_loop_artifacts a b c e d f w1 Hsub)
        as (st2 & w2 & evs2 & Hloop2 & Ht2 & Hmono & Hall)
    end.
    rewrite Hloop in Hloop2. injection Hloop2 as <- <-.
    rewrite Ht in Ht2. apply app_inv_head in Ht2. subst evs2.
    rewrite Hloop. run_go. unfold emit, modify.
    cbn [fst snd fs trace add_event tick_clock set_counts set_chandra recent_files app]
      in *.
    repeat (split; [auto; fail|]). right. split; [discriminate|].
    eexists _, evs, _, _, _, _, _, _, new.
    split; [rewrite Ht, <- !app_assoc; reflexivity|].
    subst new. auto.
Qed.

(** Over a batch run there is a list of entries, one per completed file
    in the order of completion, each named after a listed file, such that
    every snapshot written to the status artifact holds the last ten of the
    entries completed so far. *)
Lemma run_history w :
  since (trace w)
    (fun evs =>
       exists history : list RecentFile,
         length history = files_completed evs
         /\ Forall (fun rf => exists pdf, In pdf (listed_files env)
                       /\ rf_name rf = display_name_of pdf) history
         /\ history_ok history 0 evs)
    (snd (run_ocr w)).
Proof.
  destruct (run_ocr_spec w) as [(_ & -> & _) | (_ & _ & _ & [H | H])].
  - exists []. rewrite app_nil_r. split; [reflexivity|]. exists [].
    repeat split; constructor.
  - destruct H as (_ & _ & s & Ht & _ & _ & _ & _ & Hs).
    eexists. split; [exact Ht|]. exists [].
    split; [reflexivity|]. split; [constructor|].
    cbn. rewrite Hs. tauto.
  - destruct H as (_ & d0 & evs & dc & er & t & n1 & n2 & n3 & history
                   & Ht & Hc & Hnames & Hh & _).
    eexists. split; [exact Ht|]. exists history.
    split; [|split].
    + rewrite !files_completed_app, Hc. cbn. lia.
    + eapply List.Forall_impl; [|exact Hnames]. intros rf (pdf & Hin & Hrf).
      exists pdf. split; [|exact Hrf]. apply List.filter_In in Hin. tauto.
    + apply (history_ok_app history [_; _]); [cbn; tauto|].
      apply history_ok_app; [exact Hh | cbn; tauto].
Qed.

(** C8. In the batch loop every completed file gets an entry in the
    history: the entry holds the display name of the file, the number of
    pages of its document, and the time its processing took, in all and per
    page; after each completion a snapshot is written to the status
    artifact. Every snapshot written in the loop holds the last ten of the
    entries of the files completed so far, [min 10 k] entries once [k]
    entries are in the history, which is empty when [_run_ocr] starts the
    loop. Over a whole batch run, every snapshot holds the last ten of the
    entries completed so far in that run. And the last ten of a list are
    its end, of the length of the list when this is below ten. *)
Theorem recent_history_bounded :
  (forall pending_len total pipeline_start pending i st w,
     Forall named pending ->
     exists outs st' w' evs,
       batch_loop pending_len total pipeline_start i pending st w = (Ok st', w')
       /\ turns isalpha isspace resolve DATA_DIR env pending_len total pipeline_start
            i pending st w outs st' w'
       /\ trace w' = trace w ++ evs
       /\ recent_files st' = recent_files st ++ entries outs
       /\ files_completed evs = length (entries outs)
       /\ history_ok (recent_files st ++ entries outs) (length (recent_files st)) evs)
  /\ (forall w,
        since (trace w)
          (fun evs =>
             exists history : list RecentFile,
               length history = files_completed evs
               /\ Forall (fun rf => exists pdf, In pdf (listed_files env)
                             /\ rf_name rf = display_name_of pdf) history
               /\ history_ok history 0 evs)
          (snd (run_ocr w)))
  /\ (forall l : list RecentFile,
        exists older, l = older ++ last_n 10 l
                      /\ length (last_n 10 l) = Nat.min 10 (length l)).
Proof.
  split; [|split; [exact run_history|]].
  2:{ intros l. exists (firstn (length l - 10) l). unfold last_n.
      rewrite firstn_skipn, length_skipn. split; [reflexivity | lia]. }
  intros pending_len total pipeline_start pending i st w Hnamed.
  destruct (batch_loop_turns pending_len total pipeline_start pending i st w Hnamed)
    as (outs & st' & w' & Hloop & Hturns).
  destruct (batch_loop_history pending_len total pipeline_start pending i st w Hnamed)
    as (st2 & w2 & evs & new & Hloop2 & Ht & Hr & Hc & _ & Hh).
  rewrite Hloop in Hloop2. injection Hloop2 as <- <-.
  destruct (turns_locals _ _ _ _ _ _ _ _ _ _ Hturns) as (_ & _ & Hrec).
  assert (Hnew : new = entries outs)
    by (rewrite Hr in Hrec; now apply app_inv_head in Hrec).
  subst new. rewrite Hr in Hh.
  exists outs, st', w', evs. auto 10.
Qed.

(** C4, as amended. A pending file whose artifact exists is skipped
    without any effect, and the first loop leaves out of the pending list
    exactly the files whose artifact exists. A batch run that returns
    without an error line in its log leaves every listed file with its
    artifact; a second run then processes nothing, leaves the directory
    alone and writes a snapshot with done = total and errors = 0. *)
Theorem rerun_skips_existing_artifacts w :
  (forall pending_len total pipeline_start i pdf st unique_name,
     to_output_name pdf = Ok unique_name ->
     is_Some (fs w !! md_name unique_name) ->
     batch_step pending_len total pipeline_start i pdf st w
     = (Ok {| done_count := done_count st + 1; errors := errors st;
              file_times := file_times st; recent_files := recent_files st |}, w))
  /\ (forall files d p d' pending w',
        partition_files files d p w = (Ok (d', pending), w') ->
        w' = w
        /\ pending = p ++ List.filter (fun pdf => negb (has_artifact (fs w) pdf)) files)
  /\ (forall evs,
        fst (run_ocr w) = Ok tt ->
        trace (snd (run_ocr w)) = trace w ++ evs ->
        errors_logged evs = 0 ->
        let w1 := snd (run_ocr w) in
        let total := Z.of_nat (length (listed_files env)) in
        Forall (fun pdf => has_artifact (fs w1) pdf = true) (listed_files env)
        /\ fst (run_ocr w1) = Ok tt
        /\ fs (snd (run_ocr w1)) = fs w1
        /\ exists s,
             trace (snd (run_ocr w1))
             = trace w1 ++ [EvLog (LogTotal total total 0); EvLog LogNothing; EvStatus s]
             /\ status_file (snd (run_ocr w1)) = Some s
             /\ sn_done s = total /\ sn_total s = total /\ sn_errors s = 0).
Proof.
  split; [|split].
  - intros pending_len total pipeline_start i pdf st unique_name Hname Hs.
    now apply batch_step_skip with (unique_name := unique_name).
  - intros files d p d' pending w' Hp.
    destruct (partition_files_spec files d p w) as [[_ Hq]|[_ [e Hq]]];
      rewrite Hq in Hp; [|discriminate].
    injection Hp as <- <- <-. auto.
  - intros evs Hok Htrace Hz w1 total.
    assert (Hall : Forall (fun pdf => has_artifact (fs w1) pdf = true) (listed_files env)).
    { subst w1.
      destruct (run_ocr_spec w) as [([e He] & _) | (_ & _ & _ & [H | H])];
        [rewrite He in Hok; discriminate | |].
      - destruct H as (Hnil & -> & _). apply List.Forall_forall. intros pdf Hin.
        destruct (has_artifact (fs w) pdf) eqn:Ha; [reflexivity|].
        assert (Hin' : In pdf (List.filter (fun pdf => negb (has_artifact (fs w) pdf))
                                 (listed_files env)))
          by (apply List.filter_In; rewrite Ha; auto).
        rewrite Hnil in Hin'. destruct Hin'.
      - destruct H as (_ & d0 & evs0 & dc & er & t & n1 & n2 & n3 & history
                       & Ht & _ & _ & _ & Hmono & Hpending).
        rewrite Ht in Htrace. apply app_inv_head in Htrace. subst evs.
        rewrite !errors_logged_app in Hz.
        pose proof (errors_logged_nonneg evs0) as Hge.
        assert (Hz0 : errors_logged evs0 = 0) by (unfold errors_logged in *; cbn in *; lia).
        specialize (Hpending Hz0). apply List.Forall_forall. intros pdf Hin.
        destruct (has_artifact (fs w) pdf) eqn:Ha.
        + exact (artifact_exists_mono _ _ pdf Hmono Ha).
        + eapply List.Forall_forall in Hpending; [exact Hpending|].
          apply List.filter_In. rewrite Ha. auto. }
    split; [exact Hall|].
    destruct (run_ocr_spec w1) as [(_ & _ & Hbad) | (Hok1 & _ & _ & [H | H])].
    + exfalso. destruct (run_ocr_spec w) as [([e He] & _) | (_ & Hc & Hn & _)];
        [rewrite He in Hok; discriminate|].
      destruct Hbad as [Hbad|Hbad]; [congruence | auto].
    + destruct H as (_ & Hfs & s & Ht & Hst & Hd & Htot & He & _).
      split; [exact Hok1|]. split; [exact Hfs|]. exists s. auto.
    + exfalso. destruct H as (Hne & _). apply Hne.
      destruct (List.filter _ _) as [|pdf rest] eqn:Hf; [reflexivity|].
      assert (Hin : In pdf (pdf :: rest)) by now left.
      rewrite <- Hf in Hin. apply List.filter_In in Hin. destruct Hin as [Hin Hneg].
      eapply List.Forall_forall in Hall; [|exact Hin]. rewrite Hall in Hneg. discriminate.
Qed.

End PipelineFacts.

(** C5. Whatever the schedule of the background worker, the artifact of a
    processed file is the concatenation, with a blank line between
    consecutive pages, of the texts that fully sequential processing of
    pages 0, 1, ... yields from the same engine state; both leave the same
    engine state. *)
Theorem output_is_sequential_join isalpha isspace resolve DATA_DIR {Image Obj : Type}
    (env : @Env Image Obj) (eager : nat -> bool) pdf unique_name doc done_count idx
    pending_len total errors avg pipeline_start recent_files w n w' :
  _to_output_name resolve DATA_DIR pdf = Ok unique_name ->
  pdf_document env pdf = Ok doc ->
  _ocr_one_file isalpha isspace resolve DATA_DIR (with_worker env eager) pdf done_count idx
    pending_len total errors avg pipeline_start recent_files w = (Ok n, w') ->
  exists mds w2,
    sequential_pages isalpha isspace env doc (seq 0 (num_pages doc)) w = (Ok mds, w2)
    /\ length mds = num_pages doc
    /\ fs w' !! md_name unique_name = Some (join [NEWLINE; NEWLINE] mds)
    /\ engine_state w2 = engine_state w'.
Proof.
  intros Hname Hdoc Hrun.
  apply (ocr_one_file_sequential isalpha isspace resolve DATA_DIR (with_worker env eager)
           pdf unique_name doc _ _ _ _ _ _ _ _ w n w' Hname Hdoc Hrun).
Qed.

Lemma native_text_shortcut_witness :
  _render_page Scenario.isalpha Scenario.isspace (Obj := nat) Scenario.doc3 0 Scenario.w0
  = (Ok (None, Scenario.letters 60), add_event (EvGetText 0) Scenario.w0).
Proof.
  apply (proj1 (native_text_shortcut Scenario.isalpha Scenario.isspace Scenario.resolve
                  Scenario.DATA_DIR Scenario.env Scenario.doc3 0%nat _ _
                  eq_refl eq_refl ltac:(vm_compute; discriminate))).
Defined.

Lemma zero_page_document_witness :
  let r := _ocr_one_file Scenario.isalpha Scenario.isspace Scenario.resolve Scenario.DATA_DIR
             Scenario.env Scenario.empty_pdf 0 1 1 1 0 60 0 [] Scenario.w0 in
  fst r = Ok 0 /\ fs (snd r) !! md_name (str "empty") = Some [].
Proof.
  pose proof (zero_page_document Scenario.isalpha Scenario.isspace Scenario.resolve
                Scenario.DATA_DIR Scenario.env Scenario.empty_pdf (str "empty")
                Scenario.doc0 0 1 1 1 0 60 0 [] Scenario.w0
                eq_refl eq_refl eq_refl eq_refl) as H.
  cbv zeta in H |- *. split; [apply H | apply H].
Defined.

(** C3, as stated, fails when the document cannot be opened: the exception
    leaves [_ocr_one_file] before its [try], and a temporary file left by an
    interrupted run is still there. *)
Lemma stale_temp_survives_open_failure :
  let r := _ocr_one_file Scenario.isalpha Scenario.isspace Scenario.resolve Scenario.DATA_DIR
             Scenario.env Scenario.missing_pdf 0 1 1 1 0 60 0 [] Scenario.w_stale in
  fst r = Raise (PdfiumError 3)
  /\ fs (snd r) !! tmp_name (str "missing") = Some (str "partial").
Proof. vm_compute. split; reflexivity. Qed.

Lemma artifact_appears_after_all_pages_witness :
  let r := _ocr_one_file Scenario.isalpha Scenario.isspace Scenario.resolve Scenario.DATA_DIR
             Scenario.env Scenario.good_pdf 0 1 1 1 0 60 0 [] Scenario.w_stale in
  fs (snd r) !! tmp_name (str "missing") = Some (str "partial").
Proof.
  pose proof (artifact_appears_after_all_pages Scenario.isalpha Scenario.isspace
                Scenario.resolve Scenario.DATA_DIR Scenario.env Scenario.good_pdf
                (str "a--good") Scenario.doc3 0 1 1 1 0 60 0 [] Scenario.w_stale
                eq_refl eq_refl) as H.
  cbv zeta in H |- *. destruct H as (_ & _ & H). rewrite H; [reflexivity | | ].
  - vm_compute. discriminate.
  - vm_compute. discriminate.
Defined.

Lemma quality_gate_selects_engine_witness :
  ocr_image Scenario.isalpha Scenario.env 1%nat Scenario.w0
  = (Ok (Scenario.letters 60 ++ Scenario.accents 20, tess),
     set_counts incr_tess (add_event (EvTesseract 1%nat) Scenario.w0)).
Proof.
  destruct (quality_gate_selects_engine Scenario.isalpha Scenario.env 1%nat
              (Scenario.letters 60 ++ Scenario.accents 20) Scenario.w0
              eq_refl ltac:(vm_compute; reflexivity)) as [[_ H]|[Hn _]].
  - exact H.
  - exfalso. apply Hn. vm_compute. split; discriminate.
Defined.

Lemma output_is_sequential_join_witness :
  fs (snd (_ocr_one_file Scenario.isalpha Scenario.isspace Scenario.resolve Scenario.DATA_DIR
             (with_worker Scenario.env (fun _ => false)) Scenario.good_pdf
             0 1 1 1 0 60 0 [] Scenario.w0))
    !! md_name (str "a--good")
  = Some (join [NEWLINE; NEWLINE]
            [Scenario.letters 60; Scenario.letters 60 ++ Scenario.accents 20;
             str "page " ++ Scenario.letters 2]).
Proof.
  set (r := _ocr_one_file Scenario.isalpha Scenario.isspace Scenario.resolve Scenario.DATA_DIR
              (with_worker Scenario.env (fun _ => false)) Scenario.good_pdf
              0 1 1 1 0 60 0 [] Scenario.w0).
  assert (Hrun : r = (Ok 3, snd r)).
  { rewrite (surjective_pairing r) at 1. f_equal. }
  destruct (output_is_sequential_join Scenario.isalpha Scenario.isspace Scenario.resolve
              Scenario.DATA_DIR Scenario.env (fun _ => false) Scenario.good_pdf
              (str "a--good") Scenario.doc3 0 1 1 1 0 60 0 [] Scenario.w0 3 (snd r)
              eq_refl eq_refl Hrun) as (mds & w2 & H1 & _ & H3 & _).
  rewrite H3. vm_compute in H1. injection H1 as <- _. reflexivity.
Defined.

Lemma model_loaded_lazily_once_witness :
  loads (snd (ocr_image Scenario.isalpha Scenario.env 2%nat Scenario.w0)) = 1%nat
  /\ since (trace Scenario.w0) (fun evs => (models_loaded evs <= 1)%nat)
       (snd (_run_ocr Scenario.isalpha Scenario.isspace Scenario.resolve Scenario.DATA_DIR
               Scenario.env Scenario.w0)).
Proof.
  destruct (model_loaded_lazily_once Scenario.isalpha Scenario.isspace
              Scenario.resolve Scenario.DATA_DIR Scenario.env 2%nat
              (Scenario.letters 75 ++ Scenario.accents 5) Scenario.w0 eq_refl)
    as (_ & _ & Hfail & _ & Honce).
  split; [|exact Honce].
  apply Hfail; vm_compute; reflexivity.
Defined.

(** C7, as stated, fails when the load raises: the state stays unmarked
    and the load is attempted again at the next gate failure, here at the
    only page of [scan.pdf] and again at the third page of [good.pdf]. *)
Lemma load_retried_at_later_gate_failure :
  List.filter is_engine_event
    (trace (snd (_run_ocr Scenario.isalpha Scenario.isspace Scenario.resolve Scenario.DATA_DIR
                   (Scenario.env_of [Scenario.scan_pdf; Scenario.good_pdf] false true)
                   Scenario.w0)))
  = [EvTesseract 2%nat; EvLoad 0%nat; EvTesseract 1%nat; EvTesseract 2%nat; EvLoad 1%nat].
Proof. vm_compute. reflexivity. Qed.



Lemma recent_history_bounded_witness :
  exists outs st' w' evs,
    batch_loop Scenario.isalpha Scenario.isspace Scenario.resolve Scenario.DATA_DIR
      Scenario.env 3 3 0 1
      [Scenario.good_pdf; Scenario.missing_pdf; Scenario.empty_pdf]
      {| done_count := 0; errors := 0; file_times := []; recent_files := [] |}
      Scenario.w0
    = (Ok st', w')
    /\ turns Scenario.isalpha Scenario.isspace Scenario.resolve Scenario.DATA_DIR
         Scenario.env 3 3 0 1
         [Scenario.good_pdf; Scenario.missing_pdf; Scenario.empty_pdf]
         {| done_count := 0; errors := 0; file_times := []; recent_files := [] |}
         Scenario.w0 outs st' w'
    /\ trace w' = trace Scenario.w0 ++ evs
    /\ recent_files st'
       = recent_files
           {| done_count := 0; errors := 0; file_times := []; recent_files := [] |}
         ++ entries outs
    /\ files_completed evs = length (entries outs)
    /\ history_ok
         (recent_files
            {| done_count := 0; errors := 0; file_times := []; recent_files := [] |}
          ++ entries outs)
         (length
            (recent_files
               {| done_count := 0; errors := 0; file_times := []; recent_files := [] |}))
         evs.
Proof.
  apply (proj1 (recent_history_bounded Scenario.isalpha Scenario.isspace
                  Scenario.resolve Scenario.DATA_DIR Scenario.env) 3 3 0%Q
           [Scenario.good_pdf; Scenario.missing_pdf; Scenario.empty_pdf] 1
           {| done_count := 0; errors := 0; file_times := []; recent_files := [] |}
           Scenario.w0).
  repeat (apply List.Forall_cons; [vm_compute; reflexivity|]). apply List.Forall_nil.
Defined.

Lemma rerun_skips_existing_artifacts_witness :
  exists s,
    status_file (Scenario.after_run Scenario.env (Scenario.after_run Scenario.env Scenario.w0))
    = Some s
    /\ sn_done s = 2 /\ sn_total s = 2 /\ sn_errors s = 0.
Proof.
  destruct (rerun_skips_existing_artifacts Scenario.isalpha Scenario.isspace
              Scenario.resolve Scenario.DATA_DIR Scenario.env Scenario.w0)
    as (_ & _ & Hrerun).
  destruct (Hrerun (trace (Scenario.after_run Scenario.env Scenario.w0)))
    as (_ & _ & _ & s & _ & Hs & Hd & Ht & He).
  - vm_compute. reflexivity.
  - reflexivity.
  - vm_compute. reflexivity.
  - exists s. split; [exact Hs|]. split; [exact Hd|]. split; [exact Ht | exact He].
Defined.

(** C4, as stated, fails after a run with a failed file: a file that
    cannot be opened fails on the first run and has no artifact; the second
    run opens it again, and the status artifact is left with done = 1 of
    total = 2. *)
Lemma rerun_retries_failed_file :
  List.filter is_open_doc (Scenario.second_run_events Scenario.env_corrupt)
  = [EvOpenDoc Scenario.missing_pdf]
  /\ errors_logged (Scenario.second_run_events Scenario.env_corrupt) = 1
  /\ option_map (fun s => (sn_done s, sn_total s, sn_errors s))
       (status_file (Scenario.after_run Scenario.env_corrupt
                       (Scenario.after_run Scenario.env_corrupt Scenario.w0)))
     = Some (1, 2, 0).
Proof. repeat split; vm_compute; reflexivity. Qed.

(* ================================================================== *)
(** * Further properties *)

(** ** Command-line options: [_get_arg] *)

Lemma index_absent flag argv : ~ In flag argv -> PyList.index flag argv = Raise ValueError.
Proof.
  induction argv as [|y rest IH]; intros Hin; [reflexivity|].
  cbn [PyList.index]. destruct (decide (y = flag)) as [->|Hne].
  - exfalso. apply Hin. now left.
  - rewrite IH; [reflexivity|]. intros H. apply Hin. now right.
Qed.

Lemma index_first flag pre post :
  ~ In flag pre -> PyList.index flag (pre ++ flag :: post) = Ok (length pre).
Proof.
  induction pre as [|y pre IH]; intros Hin; cbn [app PyList.index length].
  - now rewrite decide_True.
  - destruct (decide (y = flag)) as [->|Hne].
    + exfalso. apply Hin. now left.
    + rewrite IH; [reflexivity|]. intros H. apply Hin. now right.
Qed.

(** X1. When the flag occurs in [sys.argv] and its first occurrence is not
    the last argument, [_get_arg] returns the argument that follows this
    first occurrence, whatever comes later. *)
Theorem get_arg_value argv flag default pre v post :
  argv = pre ++ flag :: v :: post -> ~ In flag pre ->
  _get_arg argv flag default = Ok v.
Proof.
  intros -> Hpre. unfold _get_arg. rewrite index_first by exact Hpre.
  unfold PyList.getitem.
  replace (pre ++ flag :: v :: post) with ((pre ++ [flag]) ++ v :: post)
    by (now rewrite <- app_assoc).
  rewrite list_lookup_middle; [reflexivity|]. rewrite length_app. cbn. lia.
Qed.

(** X2. [_get_arg] returns the default, and does not raise, when the flag
    is absent from [sys.argv] and when its first occurrence is the last
    argument. *)
Theorem get_arg_default argv flag default :
  ~ In flag argv \/ (exists pre, argv = pre ++ [flag] /\ ~ In flag pre) ->
  _get_arg argv flag default = Ok default.
Proof.
  intros [Habs | (pre & -> & Hpre)]; unfold _get_arg.
  - now rewrite index_absent.
  - rewrite index_first by exact Hpre. unfold PyList.getitem.
    rewrite lookup_ge_None_2; [reflexivity|]. rewrite length_app. cbn. lia.
Qed.

(** ** Output names, continued *)

Lemma split_no_sep sep s : Forall (fun c => ~ In sep c) (split sep s).
Proof.
  induction s as [|c s IH]; cbn [split]; [constructor; [intros []|constructor]|].
  destruct (N.eqb_spec c sep) as [->|Hne].
  - constructor; [intros []|exact IH].
  - destruct (split sep s) as [|w ws]; [constructor; [|constructor]|].
    + intros [H|[]]. congruence.
    + inversion IH as [|? ? Hw Hws]; subst. constructor; [|exact Hws].
      intros [H|H]; [congruence | auto].
Qed.

Lemma replace_no_slash s : ~ In SLASH (replace SLASH [DASH; DASH] s).
Proof.
  induction s as [|x s IH]; [intros []|]. cbn [replace].
  intros H. apply in_app_or in H. destruct H as [H|H]; [|auto].
  destruct (N.eqb_spec x SLASH) as [->|Hne].
  - destruct H as [H|[H|[]]]; discriminate.
  - destruct H as [H|[]]. congruence.
Qed.

Lemma parse_parts s :
  Forall (fun c => ~ In SLASH c /\ c <> []) (Pathlib.parts (Pathlib.parse s)).
Proof.
  unfold Pathlib.parse. cbn [Pathlib.parts]. apply List.Forall_forall.
  intros c Hin. apply List.filter_In in Hin. destruct Hin as [Hin Hc].
  pose proof (split_no_sep SLASH s) as Hs.
  eapply List.Forall_forall in Hs; [|exact Hin]. split; [exact Hs|].
  intros ->. discriminate.
Qed.

(** X3. An output name holds no slash, so that the artifact and the
    temporary file lie in the output directory itself. *)
Theorem output_name_has_no_slash resolve DATA_DIR pdf unique_name :
  _to_output_name resolve DATA_DIR pdf = Ok unique_name -> ~ In SLASH unique_name.
Proof.
  assert (Hstem : ~ In SLASH (Pathlib.stem (Pathlib.parse pdf))).
  { unfold Pathlib.stem, Pathlib.stem_of_name.
    assert (Hname : ~ In SLASH (Pathlib.name (Pathlib.parts (Pathlib.parse pdf)))).
    { unfold Pathlib.name. apply Forall_last; [|intros []].
      eapply List.Forall_impl; [|apply parse_parts]. now intros c [H _]. }
    destruct (Pathlib.suffix_start _); [|exact Hname].
    intros Hin. apply Hname. rewrite <- (firstn_skipn n). apply in_or_app. now left. }
  unfold _to_output_name.
  destruct (resolved_relative resolve DATA_DIR pdf) as [rel|[]]; try discriminate.
  - destruct (Pathlib.with_suffix_empty rel) as [rel'|]; [|discriminate].
    intros [= <-]. apply replace_no_slash.
  - intros [= <-]. exact Hstem.
Qed.

Lemma parse_parts_nonempty s :
  Forall (fun c => c <> []) (Pathlib.parts (Pathlib.parse s)).
Proof.
  unfold Pathlib.parse. cbn [Pathlib.parts]. apply List.Forall_forall.
  intros c Hin. apply List.filter_In in Hin. destruct Hin as [_ Hc].
  intros ->. discriminate.
Qed.

Lemma collapse_Forall (P : pystr -> Prop) ps :
  forall acc, Forall P acc -> Forall P ps -> Forall P (Pathlib.collapse acc ps).
Proof.
  induction ps as [|c ps IH]; intros acc Hacc Hps; cbn [Pathlib.collapse]; [exact Hacc|].
  inversion Hps as [|? ? Hc Hps']; subst.
  destruct (Pathlib.is_dotdot c).
  - apply IH; [now apply Forall_removelast | exact Hps'].
  - apply IH; [|exact Hps']. apply Forall_app. split; [exact Hacc|]. now constructor.
Qed.

Lemma strip_prefix_app pre :
  forall ps r, Pathlib.strip_prefix pre ps = Some r -> ps = pre ++ r.
Proof.
  induction pre as [|a pre IH]; intros ps r H; cbn [Pathlib.strip_prefix] in H.
  - now injection H as ->.
  - destruct ps as [|b ps]; [discriminate|].
    destruct (decide (a = b)) as [->|]; [|discriminate].
    cbn [app]. f_equal. now apply IH.
Qed.

Lemma strip_prefix_self pre : Pathlib.strip_prefix pre pre = Some [].
Proof.
  induction pre as [|a pre IH]; cbn [Pathlib.strip_prefix]; [reflexivity|].
  now rewrite decide_True.
Qed.

(** On a file system without symbolic links no component of a resolved
    path is empty. *)
Lemma lexical_resolve_nonempty cwd s ps :
  Forall (fun c => c <> []) cwd ->
  Pathlib.resolve cwd (Pathlib.parse s) = Ok ps ->
  Forall (fun c => c <> []) ps.
Proof.
  intros Hcwd. unfold Pathlib.resolve.
  destruct (existsb Pathlib.has_nul _); [discriminate|]. intros [= <-].
  match goal with |- context [if ?b then _ else _] => destruct b end;
    apply collapse_Forall; try assumption; try constructor;
    apply (parse_parts_nonempty s).
Qed.

Section RootFacts.

Variable resolve : Pathlib.Path -> Res (list pystr).
Variable DATA_DIR : list pystr.
Variable pdf : pystr.

(** No component of the resolved path is empty. *)
Hypothesis resolved_nonempty :
  forall ps, resolve (Pathlib.parse pdf) = Ok ps -> Forall (fun c => c <> []) ps.

(** X4. [_to_output_name] raises in two cases only. For a path that
    resolves to the data root itself it raises [ValueError]: the relative
    path is empty, and [with_suffix] is called outside the [try]. And an
    exception of [resolve] other than [ValueError] passes through. *)
Theorem output_name_raises_only_for_root e :
  _to_output_name resolve DATA_DIR pdf = Raise e
  <-> (resolve (Pathlib.parse pdf) = Ok DATA_DIR /\ e = ValueError)
      \/ (resolve (Pathlib.parse pdf) = Raise e /\ e <> ValueError).
Proof.
  unfold _to_output_name, resolved_relative, Pathlib.relative_to.
  destruct (resolve (Pathlib.parse pdf)) as [ps|e0] eqn:Hres.
  - pose proof (resolved_nonempty ps eq_refl) as Hne.
    destruct (Pathlib.strip_prefix DATA_DIR ps) as [rel|] eqn:Hrel.
    + apply strip_prefix_app in Hrel. subst ps.
      apply Forall_app in Hne. destruct Hne as [_ Hne].
      unfold Pathlib.with_suffix_empty.
      destruct rel as [|c rel].
      * cbn. rewrite app_nil_r. split.
        -- intros [= <-]. now left.
        -- intros [[_ ->]|[H _]]; [reflexivity | discriminate H].
      * assert (Hname : Pathlib.name (c :: rel) <> []).
        { unfold Pathlib.name.
          rewrite (app_removelast_last (l := c :: rel) []) in Hne by discriminate.
          apply Forall_app in Hne. destruct Hne as [_ Hlast]. now inversion Hlast. }
        destruct (Pathlib.name (c :: rel)) as [|x nm]; [congruence|].
        split; [discriminate|].
        intros [[H _]|[H _]]; [|discriminate H].
        injection H as H. apply (f_equal (@length _)) in H. rewrite length_app in H.
        cbn in H. lia.
    + split; [discriminate|].
      intros [[H _]|[H _]]; [|discriminate H].
      injection H as ->. rewrite strip_prefix_self in Hrel. discriminate.
  - split.
    + destruct e0; intros [= <-]; right; split; congruence.
    + intros [[H _]|[H Hv]]; [discriminate H|].
      injection H as ->. destruct e; congruence.
Qed.

End RootFacts.

(** ** Durations and percentages: [_format_duration], [_save_progress] *)

Lemma floordiv_spec x (n : Z) :
  0 < n ->
  (inject_Z n * inject_Z (Num.floordiv x (inject_Z n)) <= x
   /\ x < inject_Z n * (inject_Z (Num.floordiv x (inject_Z n)) + 1))%Q.
Proof.
  intros Hn. unfold Num.floordiv.
  pose proof (Qfloor_le (x / inject_Z n)) as Hle.
  pose proof (Qlt_floor (x / inject_Z n)) as Hlt.
  rewrite inject_Z_plus in Hlt. change (inject_Z 1) with 1%Q in Hlt.
  assert (Hpos : (0 < inject_Z n)%Q) by (change 0%Q with (inject_Z 0); now rewrite <- Zlt_Qlt).
  set (f := inject_Z (Qfloor (x / inject_Z n))) in *.
  assert (Hx : (x == inject_Z n * (x / inject_Z n))%Q).
  { field. intros H. rewrite H in Hpos. now apply Qlt_irrefl in Hpos. }
  split.
  - assert (H : (inject_Z n * f <= inject_Z n * (x / inject_Z n))%Q)
      by (apply Qmult_le_l; assumption).
    now rewrite <- Hx in H.
  - assert (H : (inject_Z n * (x / inject_Z n) < inject_Z n * (f + 1))%Q)
      by (apply Qmult_lt_l; assumption).
    now rewrite <- Hx in H.
Qed.

Lemma inject_Z_lt_iff a b : (inject_Z a < inject_Z b)%Q <-> a < b.
Proof. now rewrite <- Zlt_Qlt. Qed.

Lemma pymod_range x (n : Z) :
  0 < n -> (0 <= Num.pymod x (inject_Z n) < inject_Z n)%Q.
Proof.
  intros Hn. unfold Num.pymod. destruct (floordiv_spec x n Hn) as [H1 H2].
  set (f := inject_Z (Num.floordiv x (inject_Z n))) in *. split; lra.
Qed.

(** The integer part of a rational between two integers. *)
Lemma Qfloor_range x (a b : Z) :
  (inject_Z a <= x)%Q -> (x < inject_Z b)%Q -> a <= Qfloor x < b.
Proof.
  intros Ha Hb. pose proof (Qfloor_le x) as Hle. pose proof (Qlt_floor x) as Hlt.
  split.
  - apply Z.lt_succ_r. rewrite <- Z.add_1_r. apply inject_Z_lt_iff. lra.
  - apply inject_Z_lt_iff. lra.
Qed.

Lemma floordiv_range x (n a b : Z) :
  0 < n -> (inject_Z (n * a) <= x)%Q -> (x < inject_Z (n * b))%Q ->
  a <= Num.floordiv x (inject_Z n) < b.
Proof.
  intros Hn Ha Hb. destruct (floordiv_spec x n Hn) as [H1 H2].
  rewrite inject_Z_mult in Ha, Hb.
  assert (Hpos : (0 < inject_Z n)%Q) by (change 0%Q with (inject_Z 0); now rewrite <- Zlt_Qlt).
  set (f := Num.floordiv x (inject_Z n)) in *.
  split.
  - apply Z.lt_succ_r. rewrite <- Z.add_1_r. apply inject_Z_lt_iff.
    rewrite inject_Z_plus. change (inject_Z 1) with 1%Q.
    apply (Qmult_lt_l _ _ (inject_Z n)); [exact Hpos|]. lra.
  - apply inject_Z_lt_iff. apply (Qmult_lt_l _ _ (inject_Z n)); [exact Hpos|]. lra.
Qed.

(** The durations below are those from 0 to 2^53 seconds: there the
    [//] and [%] of binary64 numbers by 3600 and by 60 are exact, and the
    rational computation of [_format_duration] is the one of the code. *)

(** X5. For a duration from 0 to 2^53 seconds, the minutes and seconds
    that [_format_duration] prints lie between 0 and 59, and the hours,
    when printed, are at least 1. *)
Theorem format_duration_fields seconds :
  (0 <= seconds < 9007199254740992)%Q ->
  match _format_duration seconds with
  | DurHM h m => 1 <= h /\ 0 <= m < 60
  | DurMS m s => 0 <= m < 60 /\ 0 <= s < 60
  end.
Proof.
  intros _. unfold _format_duration. cbv zeta.
  change (3600%Q) with (inject_Z 3600). change (60%Q) with (inject_Z 60).
  pose proof (pymod_range seconds 3600 eq_refl) as Hr.
  pose proof (pymod_range seconds 60 eq_refl) as Hs.
  assert (Hm : 0 <= Num.floordiv (Num.pymod seconds (inject_Z 3600)) (inject_Z 60) < 60).
  { apply floordiv_range; [reflexivity | exact (proj1 Hr) | exact (proj2 Hr)]. }
  assert (Hsec : 0 <= Qfloor (Num.pymod seconds (inject_Z 60)) < 60).
  { apply Qfloor_range; [exact (proj1 Hs) | exact (proj2 Hs)]. }
  destruct (Z.ltb_spec 0 (Num.floordiv seconds (inject_Z 3600))); split; lia.
Qed.

(** X6. For a duration from 0 to 2^53 seconds [_format_duration] rounds
    down: from one hour on it prints the hours and the whole minutes that
    have passed, below one hour the whole minutes and the whole seconds. *)
Theorem format_duration_floor seconds :
  (0 <= seconds < 9007199254740992)%Q ->
  match _format_duration seconds with
  | DurHM h m =>
      (inject_Z (3600 * h + 60 * m) <= seconds < inject_Z (3600 * h + 60 * (m + 1)))%Q
  | DurMS m s =>
      (seconds < 3600)%Q
      /\ (inject_Z (60 * m + s) <= seconds < inject_Z (60 * m + s + 1))%Q
  end.
Proof.
  intros [Hpos _]. unfold _format_duration. cbv zeta.
  change (3600%Q) with (inject_Z 3600). change (60%Q) with (inject_Z 60).
  destruct (floordiv_spec seconds 3600 eq_refl) as [Hh1 Hh2].
  destruct (floordiv_spec (Num.pymod seconds (inject_Z 3600)) 60 eq_refl) as [Hm1 Hm2].
  destruct (floordiv_spec seconds 60 eq_refl) as [Hq1 Hq2].
  pose proof (Qfloor_le (Num.pymod seconds (inject_Z 60))) as Hs1.
  pose proof (Qlt_floor (Num.pymod seconds (inject_Z 60))) as Hs2.
  rewrite inject_Z_plus in Hs2.
  unfold Num.pymod in *.
  set (h := Num.floordiv seconds (inject_Z 3600)) in *.
  set (m := Num.floordiv (seconds - inject_Z 3600 * inject_Z h) (inject_Z 60)) in *.
  set (q := Num.floordiv seconds (inject_Z 60)) in *.
  set (s := Qfloor (seconds - inject_Z 60 * inject_Z q)) in *.
  destruct (Z.ltb_spec 0 h) as [Hh|Hh].
  - repeat first [rewrite inject_Z_plus | rewrite inject_Z_mult].
    change (inject_Z 3600) with 3600%Q in *. change (inject_Z 60) with 60%Q in *.
    change (inject_Z 1) with 1%Q in *. clearbody h m q s. split; lra.
  - assert (Hh0 : h = 0).
    { assert (-1 < h); [|lia]. apply inject_Z_lt_iff.
      change (inject_Z (-1)) with (-1)%Q. change (inject_Z 3600) with 3600%Q in *.
      generalize dependent (inject_Z h). intros; lra. }
    rewrite Hh0 in *.
    assert (Hqm : q = m).
    { subst q m. unfold Num.floordiv. apply Qfloor_comp.
      change (inject_Z 0) with 0%Q. change (inject_Z 3600) with 3600%Q.
      change (inject_Z 60) with 60%Q. rewrite Hh0. change (inject_Z 0) with 0%Q.
      field. }
    rewrite <- Hqm.
    repeat first [rewrite inject_Z_plus | rewrite inject_Z_mult].
    change (inject_Z 3600) with 3600%Q in *. change (inject_Z 60) with 60%Q in *.
    change (inject_Z 0) with 0%Q in *. change (inject_Z 1) with 1%Q in *.
    clear Hqm. clearbody m q s. split; [lra | split; lra].
Qed.

Lemma round0_range y (a b : Z) :
  (inject_Z a <= y)%Q -> (y <= inject_Z b)%Q -> a <= Num.round0 y <= b.
Proof.
  intros Ha Hb. unfold Num.round0. cbv zeta.
  pose proof (Qfloor_le y) as Hle. pose proof (Qlt_floor y) as Hlt.
  rewrite inject_Z_plus in Hlt. change (inject_Z 1) with 1%Q in Hlt.
  assert (Hfa : a <= Qfloor y).
  { apply Z.lt_succ_r. rewrite <- Z.add_1_r. apply inject_Z_lt_iff.
    rewrite inject_Z_plus. change (inject_Z 1) with 1%Q. lra. }
  assert (Hfb : Qfloor y <= b).
  { apply Z.lt_succ_r. rewrite <- Z.add_1_r. apply inject_Z_lt_iff.
    rewrite inject_Z_plus. change (inject_Z 1) with 1%Q. lra. }
  assert (Hstep : (1 # 2 <= y - inject_Z (Qfloor y))%Q -> Qfloor y + 1 <= b).
  { intros Hhalf. apply Z.lt_succ_r. rewrite <- Z.add_1_r. apply inject_Z_lt_iff.
    rewrite !inject_Z_plus. change (inject_Z 1) with 1%Q. lra. }
  destruct (Qcompare (y - inject_Z (Qfloor y)) (1 # 2)) eqn:Hc.
  - apply Qeq_alt in Hc. destruct (Z.even (Qfloor y)); [lia|].
    split; [lia|]. apply Hstep. rewrite Hc. apply Qle_refl.
  - lia.
  - apply Qgt_alt in Hc. split; [lia|]. apply Hstep. apply Qlt_le_weak, Hc.
Qed.

(** X7. While the number of files done is between 0 and the total, the
    percentage of a snapshot is between 0 and 100; the total may be 0, the
    divisor being at least 1. *)
Theorem snapshot_pct_bounds p :
  0 <= p_done p <= p_total p ->
  (0 <= sn_pct (snapshot_of p) <= 100)%Q.
Proof.
  intros [Hd Ht]. cbn [snapshot_of sn_pct]. unfold Num.round1.
  set (x := (inject_Z (p_done p) / inject_Z (Z.max (p_total p) 1) * 100 * 10)%Q).
  assert (Hx : 0 <= Num.round0 x <= 1000).
  { assert (Hm : (0 < inject_Z (Z.max (p_total p) 1))%Q)
      by (change 0%Q with (inject_Z 0); rewrite <- Zlt_Qlt; lia).
    assert (Hq : (0 <= inject_Z (p_done p) / inject_Z (Z.max (p_total p) 1) <= 1)%Q).
    { split.
      - apply Qle_shift_div_l; [exact Hm|]. rewrite Qmult_0_l.
        change 0%Q with (inject_Z 0). rewrite <- Zle_Qle. exact Hd.
      - apply Qle_shift_div_r; [exact Hm|]. rewrite Qmult_1_l.
        rewrite <- Zle_Qle. lia. }
    apply round0_range; subst x;
      [change (inject_Z 0) with 0%Q | change (inject_Z 1000) with 1000%Q]; lra. }
  destruct Hx as [H0 H1].
  rewrite Zle_Qle in H0, H1. change (inject_Z 0) with 0%Q in H0.
  change (inject_Z 1000) with 1000%Q in H1.
  split.
  - apply Qle_shift_div_l; [reflexivity|]. lra.
  - apply Qle_shift_div_r; [reflexivity|]. lra.
Qed.

(** ** Cropping margins *)

Section CropFacts.

Context {Image : Type}.
Variable size : Image -> Z * Z.
Variable content_bbox : Image -> option (Z * Z * Z * Z).
Variable crop : Image -> Z * Z * Z * Z -> Image.

(** X8. When the content box lies in the image, [_crop_margins] crops to a
    box that lies in the image too, holds the whole content box, and leaves
    at most 20 pixels of margin on each side. *)
Theorem crop_margins_keeps_content img b0 b1 b2 b3 :
  content_bbox img = Some (b0, b1, b2, b3) ->
  0 <= b0 -> b0 < b2 -> b2 <= fst (size img) ->
  0 <= b1 -> b1 < b3 -> b3 <= snd (size img) ->
  exists x0 y0 x1 y1,
    _crop_margins size content_bbox crop img = crop img (x0, y0, x1, y1)
    /\ 0 <= x0 <= b0 /\ b0 - x0 <= 20 /\ b2 <= x1 <= fst (size img) /\ x1 - b2 <= 20
    /\ 0 <= y0 <= b1 /\ b1 - y0 <= 20 /\ b3 <= y1 <= snd (size img) /\ y1 - b3 <= 20.
Proof.
  intros Hbox. unfold _crop_margins, CROP_PADDING. rewrite Hbox. intros.
  eexists _, _, _, _. split; [reflexivity|]. lia.
Qed.

End CropFacts.

(** ** The pipeline, continued *)

Ltac run_go :=
  repeat first [ rewrite run_bind | progress cbn [lift gets modify emit ret raise] ].

Section EngineSteps.

Variable isalpha isspace : pychar -> bool.
Variable resolve : Pathlib.Path -> Res (list pystr).
Variable DATA_DIR : list pystr.
Context {Image Obj : Type}.
Variable env : @Env Image Obj.

Local Abbreviation render_page := (_render_page (Obj := Obj) isalpha isspace).
Local Abbreviation ocr_page := (ocr_page isalpha env).
Local Abbreviation load_chandra := (_load_chandra env).
Local Abbreviation submit := (submit isalpha isspace env).
Local Abbreviation future_result := (future_result (Obj := Obj) isalpha isspace).
Local Abbreviation page_loop := (page_loop isalpha isspace env).

Lemma engine_step_refl (w : @World Image Obj) : engine_step (fun c => c) w w.
Proof. exists []. rewrite app_nil_r. auto. Qed.

Lemma engine_step_emit f e (w0 w : @World Image Obj) :
  page_op_event e = true -> engine_step f w0 w -> engine_step f w0 (add_event e w).
Proof.
  intros He (evs & Ht & Hall & Hfs & Hst & Hc). exists (evs ++ [e]).
  cbn [trace fs status_file counts add_event]. rewrite Ht, <- app_assoc.
  repeat split; try assumption. apply Forall_app. auto.
Qed.

Lemma engine_step_silent f (w0 w w' : @World Image Obj) :
  trace w' = trace w -> fs w' = fs w -> status_file w' = status_file w ->
  counts w' = counts w -> engine_step f w0 w -> engine_step f w0 w'.
Proof.
  intros Ht Hfs Hst Hc (evs & Ht0 & Hall & Hfs0 & Hst0 & Hc0). exists evs.
  repeat split; congruence.
Qed.

Lemma engine_step_counts f g (w0 w : @World Image Obj) :
  engine_step f w0 w -> engine_step (fun c => g (f c)) w0 (set_counts g w).
Proof.
  intros (evs & Ht0 & Hall & Hfs0 & Hst0 & Hc0). exists evs.
  cbn [trace fs status_file counts set_counts]. repeat split; congruence.
Qed.

Lemma engine_step_trans f g (w0 w1 w2 : @World Image Obj) :
  engine_step f w0 w1 -> engine_step g w1 w2 -> engine_step (fun c => g (f c)) w0 w2.
Proof.
  intros (evs1 & Ht1 & Hall1 & Hfs1 & Hst1 & Hc1) (evs2 & Ht2 & Hall2 & Hfs2 & Hst2 & Hc2).
  exists (evs1 ++ evs2). rewrite Ht2, Ht1, <- app_assoc.
  repeat split; try congruence. apply Forall_app. auto.
Qed.

Ltac step_pres :=
  unfold_helpers;
  repeat (pres_step;
          try (apply engine_step_emit; [reflexivity | assumption]);
          try (eapply engine_step_silent; [reflexivity.. | eassumption])).

Section From.
Variable w0 : @World Image Obj.
Variable f0 : PageCounts -> PageCounts.
Local Abbreviation Step := (engine_step f0 w0).

Lemma load_chandra_step : preserves Step load_chandra.
Proof. unfold _load_chandra. step_pres. Qed.

Lemma render_page_step doc p : preserves Step (render_page doc p).
Proof. unfold _render_page. step_pres. Qed.

Lemma future_result_step f : preserves Step (future_result f).
Proof. destruct f; [apply preserves_lift | apply render_page_step]. Qed.

End From.

(** A page is counted once, under its tag, when its text is obtained. *)
Lemma ocr_page_step u w :
  wp (ocr_page u)
     (fun r w' => match r with
                  | Ok (_, tag) => engine_step (bump tag) w w'
                  | Raise _ => engine_step (fun c => c) w w'
                  end) w.
Proof.
  destruct u as [[image|] native_text]; unfold ocr_page.
  - unfold ocr_image, _tesseract_ocr. wp_run idtac.
    pose proof (engine_step_emit _ (EvTesseract image) w w eq_refl (engine_step_refl w))
      as H1.
    destruct (image_to_string env image) as [text|e]; [|exact H1].
    destruct (_tesseract_quality_ok isalpha text).
    + wp_run idtac. apply (engine_step_counts _ incr_tess), H1.
    + rewrite wp_bind. eapply wp_mono.
      { apply preserves_wp; [apply load_chandra_step | exact H1]. }
      intros [[]|e] w1 H2; [|exact H2].
      unfold get_chandra, _chandra_ocr. wp_run idtac.
      pose proof (engine_step_emit _ (EvGenerate image) w w1 eq_refl H2) as H3.
      destruct (mlx_generate env _ _ _ image) as [md|e]; [|exact H3].
      wp_run idtac. apply (engine_step_counts _ incr_vlm), H3.
  - wp_run idtac. apply (engine_step_counts _ incr_txt), engine_step_refl.
Qed.


(** An invariant that the events of page extraction and of the engines
    do not disturb is kept by the operations that only emit those. *)
Lemma via_engine_step {A} (I : @World Image Obj -> Prop) (m : M A) :
  (forall w0, preserves (engine_step (fun c => c) w0) m) ->
  (forall w w', engine_step (fun c => c) w w' -> I w -> I w') ->
  preserves I m.
Proof. intros Hm HI w Hw. eapply HI; [|exact Hw]. apply Hm, engine_step_refl. Qed.

Lemma schedule_app (a b : list (@Event Image)) :
  schedule (a ++ b) = schedule a ++ schedule b.
Proof.
  induction a as [|e a IH]; [reflexivity|]. cbn [app schedule].
  destruct (sched_of e); cbn [app]; now rewrite IH.
Qed.

Lemma schedule_page_ops (evs : list (@Event Image)) :
  Forall (fun e => page_op_event e = true) evs -> schedule evs = [].
Proof.
  induction 1 as [|e evs He _ IH]; [reflexivity|]. cbn [schedule].
  destruct e as [[]| | | | | | | | | | | | | | |]; try discriminate; exact IH.
Qed.

Section Schedule.

Variable t0 : list (@Event Image).
Local Abbreviation Sch sch := (since (Obj := Obj) t0 (fun evs => schedule evs = sch)).

Lemma sched_emit e sch w : Sch sch w -> Sch (sch ++ schedule [e]) (add_event e w).
Proof.
  intros (evs & Ht & Hs). exists (evs ++ [e]). split.
  - cbn [trace add_event]. rewrite Ht. now rewrite <- app_assoc.
  - now rewrite schedule_app, Hs.
Qed.

Lemma sched_emit_none e sch w :
  sched_of e = None -> Sch sch w -> Sch sch (add_event e w).
Proof.
  intros He H. apply (sched_emit e) in H. cbn [schedule] in H. rewrite He in H.
  now rewrite app_nil_r in H.
Qed.

Lemma sched_engine_step f sch w w' : engine_step f w w' -> Sch sch w -> Sch sch w'.
Proof.
  intros (evs' & Ht' & Hall & _) (evs & Ht & Hs). exists (evs ++ evs'). split.
  - rewrite Ht', Ht. now rewrite <- app_assoc.
  - rewrite schedule_app, Hs, (schedule_page_ops _ Hall). apply app_nil_r.
Qed.

Ltac sched :=
  unfold_helpers;
  repeat (pres_step; try silent;
          try (apply sched_emit_none; [reflexivity | assumption])).

Lemma submit_sched doc p sch w :
  Sch sch w ->
  wp (submit doc p) (fun r w' => is_ok r = true /\ Sch (sch ++ [SSubmit p]) w') w.
Proof.
  intros H. unfold submit. rewrite wp_bind, wp_emit.
  apply (sched_emit (EvSubmit p)) in H. cbn [schedule sched_of] in H.
  destruct (worker_eager env p).
  - rewrite wp_bind, wp_attempt. eapply wp_mono.
    { apply preserves_wp; [|exact H]. apply via_engine_step.
      - intros. apply render_page_step.
      - intros. eapply sched_engine_step; eauto. }
    intros r w' Hs. cbv beta iota. rewrite wp_ret. auto.
  - rewrite wp_ret. auto.
Qed.

Section Loop.

Variable doc : @Doc Image.
Variable tmp_path display_name : pystr.
Variable done_count idx total errors : Z.
Variable file_start avg pipeline_start : Q.
Variable recent_files : list RecentFile.

Lemma page_loop_schedule remaining :
  forall p_idx f sch w,
  Sch sch w ->
  wp (page_loop doc tmp_path display_name done_count idx total errors
        file_start avg pipeline_start recent_files remaining p_idx f)
     (fun r w' => match r with
                  | Ok _ => exists tags,
                      length tags = remaining
                      /\ Sch (sch ++ loop_schedule (num_pages doc) p_idx tags) w'
                  | Raise _ => True
                  end) w.
Proof.
  induction remaining as [|k IH]; intros p_idx f sch w HI; cbn [page_loop].
  - rewrite wp_ret. exists []. cbn. now rewrite app_nil_r.
  - wp_seq sched. wp_seq sched. wp_seq sched.
    wp_seq ltac:(apply via_engine_step;
                 [intros; apply future_result_step | intros; eapply sched_engine_step; eauto]).
    rewrite wp_bind.
    eapply wp_mono with
      (Q := fun r w' =>
              is_ok r = true
              /\ Sch (sch ++ (if (p_idx + 1 <? num_pages doc)%nat
                              then [SSubmit (p_idx + 1)] else [])) w').
    { destruct (p_idx + 1 <? num_pages doc)%nat.
      - now apply submit_sched.
      - rewrite wp_ret, app_nil_r. auto. }
    intros [fut|e] w1 [Hok H1]; [clear Hok|discriminate].
    rewrite wp_bind. eapply wp_mono; [apply ocr_page_step|].
    intros [[md tag]|e] w2 H2; [|exact Logic.I].
    apply (sched_engine_step _ _ _ _ H2) in H1.
    wp_seq sched. wp_seq sched. wp_seq sched.
    rewrite wp_bind. unfold _log at 1. rewrite wp_emit.
    match goal with H : Sch _ ?w3 |- context [add_event ?e ?w3] =>
      apply (sched_emit e) in H; cbn [schedule sched_of] in H
    end.
    rewrite wp_bind.
    eapply wp_mono with
      (Q := fun r w' =>
              is_ok r = true
              /\ Sch (((sch ++ (if (p_idx + 1 <? num_pages doc)%nat
                                then [SSubmit (p_idx + 1)] else []))
                       ++ [SPage (Z.of_nat p_idx + 1) tag])
                      ++ (if (p_idx mod 10 =? 9)%nat then [SGc] else [])) w').
    { destruct (p_idx mod 10 =? 9)%nat.
      - unfold _free_memory. rewrite wp_emit. split; [reflexivity|].
        match goal with H : Sch _ ?w3 |- _ => apply (sched_emit EvGc) in H; exact H end.
      - rewrite wp_ret, app_nil_r. split; [reflexivity|].
        match goal with H : Sch (_ ++ [SPage _ _]) _ |- _ => exact H end. }
    intros [[]|e] w4 [Hok H4]; [clear Hok|discriminate].
    eapply wp_mono; [apply IH, H4|].
    intros [[]|e] w5 H5; [|exact Logic.I].
    destruct H5 as (tags & Hlen & H5). exists (tag :: tags).
    split; [cbn; now rewrite Hlen|].
    cbn [loop_schedule]. rewrite <- !app_assoc in *. exact H5.
Qed.

End Loop.

Lemma file_body_schedule doc unique_name display_name done_count idx pending_len
    total errors file_start avg pipeline_start recent_files w :
  Sch [] w ->
  wp (file_body isalpha isspace env doc unique_name display_name done_count idx
        pending_len total errors file_start avg pipeline_start recent_files)
     (fun r w' => match r with
                  | Ok _ => exists tags,
                      length tags = num_pages doc
                      /\ Sch (SSubmit 0 :: loop_schedule (num_pages doc) 0 tags ++ [SGc]) w'
                  | Raise _ => True
                  end) w.
Proof.
  intros HI. unfold file_body.
  wp_seq sched. wp_seq sched. wp_seq sched.
  rewrite wp_bind. eapply wp_mono; [apply submit_sched; eassumption|].
  intros [fut|e] w1 [Hok H1]; [clear Hok|discriminate].
  rewrite wp_bind. eapply wp_mono; [apply page_loop_schedule, H1|].
  intros [[]|e] w2 H2; [|exact Logic.I]. destruct H2 as (tags & Hlen & H2).
  wp_seq sched. wp_seq sched.
  rewrite wp_bind. unfold _free_memory. rewrite wp_emit, wp_ret.
  exists tags. split; [exact Hlen|].
  match goal with H : Sch _ ?w3 |- _ => apply (sched_emit EvGc) in H; cbn [schedule sched_of] in H end.
  cbn [app] in *. assumption.
Qed.

End Schedule.

Local Abbreviation ocr_one_file := (_ocr_one_file isalpha isspace resolve DATA_DIR env).

(** ** The events of one file *)

Section InFile.

Variable unique_name display_name : pystr.
Variable done_count idx total errors : Z.
Variable recent_files : list RecentFile.
Variable doc : @Doc Image.
Variable t0 : list (@Event Image).
Local Abbreviation infile :=
  (in_file_event (Image := Image) unique_name display_name done_count idx total errors
     recent_files (num_pages doc)).
Local Abbreviation Fev := (since (Obj := Obj) t0 (Forall infile)).

Lemma infile_emit e w : infile e -> Fev w -> Fev (add_event e w).
Proof.
  intros He. apply since_emit. intros evs Hevs. apply Forall_app. split; [exact Hevs|].
  constructor; [exact He | constructor].
Qed.

Lemma infile_engine_step f w w' : engine_step f w w' -> Fev w -> Fev w'.
Proof.
  intros (evs' & Ht' & Hall & _) (evs & Ht & Hs). exists (evs ++ evs'). split.
  - rewrite Ht', Ht. now rewrite <- app_assoc.
  - apply Forall_app. split; [exact Hs|]. eapply List.Forall_impl; [|exact Hall].
    intros e He. destruct e as [[]| | | | | | | | | | | | | | |]; try discriminate;
      exact Logic.I.
Qed.

Ltac infile :=
  unfold_helpers;
  repeat (pres_step; try silent;
          try (apply infile_emit;
               [first [exact Logic.I | reflexivity | cbn; auto; fail] | assumption])).

Lemma submit_infile p : (p < Nat.max 1 (num_pages doc))%nat -> preserves Fev (submit doc p).
Proof.
  intros Hp. unfold submit. apply preserves_bind; [|intros []].
  - apply preserves_emit. intros w Hw. apply infile_emit; [exact Hp | exact Hw].
  - destruct (worker_eager env p); [|apply preserves_ret].
    apply preserves_bind; [|intros ?; apply preserves_ret].
    apply preserves_attempt, via_engine_step.
    + intros. apply render_page_step.
    + intros. eapply infile_engine_step; eauto.
Qed.

Lemma ocr_page_infile u : preserves Fev (ocr_page u).
Proof.
  intros w Hw. pose proof (ocr_page_step u w) as H. unfold wp in H.
  destruct (ocr_page u w) as [[[md tag]|e] w']; cbn [fst snd] in *;
    eapply infile_engine_step; eauto.
Qed.

Lemma page_loop_infile file_start avg pipeline_start remaining :
  forall p_idx f,
  (p_idx + remaining = num_pages doc)%nat ->
  preserves Fev
    (page_loop doc (tmp_name unique_name) display_name done_count idx total errors
       file_start avg pipeline_start recent_files remaining p_idx f).
Proof.
  induction remaining as [|k IH]; intros p_idx f Hn; cbn [page_loop];
    [apply preserves_ret|].
  apply preserves_bind; [infile | intros now_].
  apply preserves_bind.
  { unfold _save_progress. apply preserves_bind; [|intros []; infile].
    apply preserves_emit. intros w Hw. apply infile_emit; [|exact Hw].
    cbn. repeat (split; [reflexivity|]).
    exists (Z.of_nat p_idx + 1). split; [reflexivity | lia]. }
  intros []. apply preserves_bind; [infile | intros page_t].
  apply preserves_bind.
  { apply via_engine_step; [intros; apply future_result_step|].
    intros. eapply infile_engine_step; eauto. }
  intros u. apply preserves_bind.
  { destruct (Nat.ltb_spec (p_idx + 1) (num_pages doc)); [|apply preserves_ret].
    apply submit_infile. lia. }
  intros fut. apply preserves_bind; [apply ocr_page_infile | intros [md tag]].
  apply preserves_bind; [infile | intros []].
  apply preserves_bind; [infile | intros []].
  apply preserves_bind; [infile | intros t].
  apply preserves_bind.
  { unfold _log. apply preserves_emit. intros w Hw. apply infile_emit; [|exact Hw].
    cbn. split; [reflexivity | lia]. }
  intros []. apply preserves_bind; [infile | intros []].
  apply IH. lia.
Qed.

End InFile.

Lemma file_body_infile doc unique_name display_name done_count idx pending_len
    total errors file_start avg pipeline_start recent_files t0 :
  preserves
    (since t0 (Forall (in_file_event unique_name display_name done_count idx total
                         errors recent_files (num_pages doc))))
    (file_body isalpha isspace env doc unique_name display_name done_count idx
       pending_len total errors file_start avg pipeline_start recent_files).
Proof.
  unfold file_body.
  apply preserves_bind_lift. intros [] _.
  apply preserves_bind.
  { unfold _log. apply preserves_emit. intros w Hw. apply infile_emit; [|exact Hw].
    cbn. auto. }
  intros [].
  repeat first
    [ apply submit_infile; lia | apply page_loop_infile; reflexivity
    | progress (unfold_helpers;
        repeat (pres_step; try silent;
          try (apply infile_emit;
               [first [exact Logic.I | reflexivity | cbn; auto; fail] | assumption]))) ].
Qed.

(** X13. A file processor that returns has handed page 0 to the worker
    first; then, for each page in ascending order, it has handed the next
    page to the worker, if there is one, before logging the page's line,
    and run a memory-reclamation pass after every tenth page; a last pass
    follows the pages. *)
Theorem file_schedule pdf unique_name doc done_count idx pending_len total errors avg
    pipeline_start recent_files w :
  _to_output_name resolve DATA_DIR pdf = Ok unique_name ->
  pdf_document env pdf = Ok doc ->
  is_ok (fst (ocr_one_file pdf done_count idx pending_len total errors avg
                pipeline_start recent_files w)) = true ->
  exists evs tags,
    trace (snd (ocr_one_file pdf done_count idx pending_len total errors avg
                  pipeline_start recent_files w)) = trace w ++ evs
    /\ length tags = num_pages doc
    /\ schedule evs = SSubmit 0 :: loop_schedule (num_pages doc) 0 tags ++ [SGc].
Proof.
  intros Hname Hdoc. rewrite (ocr_one_file_run _ _ _ _ _ pdf unique_name doc) by assumption.
  match goal with |- context [file_body ?a ?b ?c ?d ?e ?f ?g ?h ?i ?j ?k ?l ?m ?o ?r ?w1] =>
    pose proof (file_body_schedule (trace w) d e f g h i j k l m o r w1) as Hbody;
    unfold wp in Hbody;
    destruct (file_body a b c d e f g h i j k l m o r w1) as [[n'|e'] w2]
  end; cbn [fst snd is_ok] in *; [|discriminate].
  intros _.
  destruct Hbody as (tags & Hlen & H).
  { exists [EvOpenDoc pdf]. split; reflexivity. }
  apply (sched_emit_none _ EvCloseDoc) in H; [|reflexivity].
  destruct H as (evs & Ht & Hs). exists evs, tags. auto.
Qed.

Lemma page_tags_app (a b : list (@Event Image)) :
  page_tags (a ++ b) = page_tags a ++ page_tags b.
Proof.
  induction a as [|e a IH]; [reflexivity|]. cbn [app page_tags].
  destruct e as [[]| | | | | | | | | | | | | | |]; cbn [app]; now rewrite IH.
Qed.

Lemma page_tags_page_ops (evs : list (@Event Image)) :
  Forall (fun e => page_op_event e = true) evs -> page_tags evs = [].
Proof.
  induction 1 as [|e evs He _ IH]; [reflexivity|]. cbn [page_tags].
  destruct e as [[]| | | | | | | | | | | | | | |]; try discriminate; exact IH.
Qed.

Lemma tally_app a b c : tally (a ++ b) c = tally b (tally a c).
Proof. unfold tally. apply fold_left_app. Qed.

Section Tally.

Variable t0 : list (@Event Image).
Variable c0 : PageCounts.
Local Abbreviation Tal := (tally_inv (Obj := Obj) t0 c0).

Lemma tally_emit e pending w :
  page_tags [e] = [] -> Tal pending w -> Tal pending (add_event e w).
Proof.
  intros He (evs & Ht & Hc). exists (evs ++ [e]). split.
  - cbn [trace add_event]. rewrite Ht. now rewrite <- app_assoc.
  - cbn [counts add_event]. now rewrite page_tags_app, He, app_nil_r.
Qed.

Lemma tally_emit_page i n tag secs chars w :
  Tal [tag] w -> Tal [] (add_event (EvLog (LogPage i n tag secs chars)) w).
Proof.
  intros (evs & Ht & Hc). exists (evs ++ [EvLog (LogPage i n tag secs chars)]). split.
  - cbn [trace add_event]. rewrite Ht. now rewrite <- app_assoc.
  - cbn [counts add_event]. now rewrite page_tags_app, app_nil_r.
Qed.

Lemma tally_silent pending (w w' : @World Image Obj) :
  trace w' = trace w -> counts w' = counts w -> Tal pending w -> Tal pending w'.
Proof. intros Ht Hc (evs & Ht0 & Hc0). exists evs. split; congruence. Qed.

Lemma tally_engine_step w w' : engine_step (fun c => c) w w' -> Tal [] w -> Tal [] w'.
Proof.
  intros (evs' & Ht' & Hall & _ & _ & Hc') (evs & Ht & Hc). exists (evs ++ evs'). split.
  - rewrite Ht', Ht. now rewrite <- app_assoc.
  - rewrite Hc', Hc, page_tags_app, (page_tags_page_ops _ Hall), !app_nil_r.
    reflexivity.
Qed.

Lemma tally_engine_step_bump tag w w' :
  engine_step (bump tag) w w' -> Tal [] w -> Tal [tag] w'.
Proof.
  intros (evs' & Ht' & Hall & _ & _ & Hc') (evs & Ht & Hc). exists (evs ++ evs'). split.
  - rewrite Ht', Ht. now rewrite <- app_assoc.
  - rewrite Hc', Hc, page_tags_app, (page_tags_page_ops _ Hall), !app_nil_r.
    now rewrite tally_app.
Qed.

Ltac tal :=
  unfold_helpers;
  repeat (pres_step;
          try (apply tally_emit; [reflexivity | assumption]);
          try (eapply tally_silent; [reflexivity | reflexivity | eassumption])).

Lemma submit_tally doc p : preserves (Tal []) (submit doc p).
Proof.
  unfold submit. apply preserves_bind; [tal | intros []].
  destruct (worker_eager env p); [|apply preserves_ret].
  apply preserves_bind; [|intros ?; apply preserves_ret].
  apply preserves_attempt, via_engine_step.
  - intros. apply render_page_step.
  - intros. eapply tally_engine_step; eauto.
Qed.

Lemma page_loop_tally doc tmp_path display_name done_count idx total errors
    file_start avg pipeline_start recent_files remaining :
  forall p_idx f,
  preserves (Tal [])
    (page_loop doc tmp_path display_name done_count idx total errors
       file_start avg pipeline_start recent_files remaining p_idx f).
Proof.
  induction remaining as [|k IH]; intros p_idx f; cbn [page_loop];
    [apply preserves_ret|].
  intros w HI.
  change (wp (page_loop doc tmp_path display_name done_count idx total errors
                file_start avg pipeline_start recent_files (S k) p_idx f)
             (fun _ w' => Tal [] w') w).
  cbn [page_loop].
  wp_seq tal. wp_seq tal. wp_seq tal.
  wp_seq ltac:(apply via_engine_step;
               [intros; apply future_result_step | intros; eapply tally_engine_step; eauto]).
  wp_seq ltac:(destruct (p_idx + 1 <? num_pages doc)%nat;
               [apply submit_tally | apply preserves_ret]).
  rewrite wp_bind. eapply wp_mono; [apply ocr_page_step|].
  intros [[md tag]|e] w2 H2;
    [apply tally_engine_step_bump with (w := _) in H2; [|eassumption]
    |eapply tally_engine_step; eassumption].
  unfold fs_write, time_now, _log, _free_memory.
  destruct (0 <? p_idx)%nat, (p_idx mod 10 =? 9)%nat; wp_run idtac;
    apply (preserves_wp (Tal [])); try apply IH;
    repeat first
      [ apply tally_emit; [reflexivity|]
      | apply tally_emit_page
      | eapply tally_silent; [reflexivity | reflexivity |] ];
    exact H2.
Qed.

Lemma ocr_one_file_tally pdf done_count idx pending_len total errors avg pipeline_start
    recent_files :
  preserves (Tal [])
    (ocr_one_file pdf done_count idx pending_len total errors avg pipeline_start
       recent_files).
Proof.
  unfold _ocr_one_file, file_body.
  repeat first [apply submit_tally | apply page_loop_tally | progress tal].
Qed.

Lemma batch_loop_tally pending_len total pipeline_start pending :
  forall i st,
  preserves (Tal [])
    (batch_loop isalpha isspace resolve DATA_DIR env pending_len total pipeline_start
       i pending st).
Proof.
  induction pending as [|pdf rest IH]; intros i st; cbn [batch_loop];
    [apply preserves_ret|].
  apply preserves_bind; [|intros st'; apply IH].
  unfold batch_step.
  repeat first [apply ocr_one_file_tally | progress tal].
Qed.

End Tally.

(** ** The batch *)

Local Abbreviation to_output_name := (_to_output_name resolve DATA_DIR).
Local Abbreviation named := (fun pdf => is_ok (to_output_name pdf) = true).
Local Abbreviation has_artifact := (artifact_exists resolve DATA_DIR).
Local Abbreviation batch_loop := (batch_loop isalpha isspace resolve DATA_DIR env).
Local Abbreviation run_ocr := (_run_ocr isalpha isspace resolve DATA_DIR env).

(** The counters of the batch loop against its log: every pending file is
    skipped, completed or failed, and the loop touches no file but the
    artifacts and temporary files of the pending files. *)
Lemma batch_loop_totals pending_len total pipeline_start pending :
  forall i st w,
  Forall named pending ->
  exists st' w' evs,
    batch_loop pending_len total pipeline_start i pending st w = (Ok st', w')
    /\ trace w' = trace w ++ evs
    /\ errors st' = errors st + errors_logged evs
    /\ done_count st' + Z.of_nat (files_completed evs) + errors_logged evs
       = done_count st + Z.of_nat (length pending)
    /\ done_count st <= done_count st'
    /\ (forall q,
          (forall pdf u, In pdf pending -> to_output_name pdf = Ok u ->
                         q <> md_name u /\ q <> tmp_name u) ->
          fs w' !! q = fs w !! q).
Proof.
  induction pending as [|pdf rest IH]; intros i st w Hnamed.
  - exists st, w, []. cbn [batch_loop ret length]. rewrite app_nil_r.
    unfold errors_logged, files_completed. cbn. repeat split; lia.
  - inversion Hnamed as [|? ? Hpdf Hrest]; subst.
    destruct (to_output_name pdf) as [u|] eqn:Hname; [|discriminate].
    destruct (batch_step_cases isalpha isspace resolve DATA_DIR env pending_len total
                pipeline_start i pdf st w u Hname)
      as (st1 & w1 & evs1 & Hstep & Ht & Hother & Hcase).
    destruct (IH (i + 1) st1 w1 Hrest)
      as (st' & w' & evs2 & Hloop & Ht' & He & Hd & Hmono & Hfs).
    cbn [batch_loop]. rewrite run_bind, Hstep, Hloop.
    exists st', w', (evs1 ++ evs2). split; [reflexivity|].
    split; [rewrite Ht', Ht; now rewrite <- app_assoc|].
    rewrite errors_logged_app, files_completed_app. cbn [length].
    assert (Hcount : errors st1 = errors st + errors_logged evs1
              /\ done_count st1 + Z.of_nat (files_completed evs1) + errors_logged evs1
                 = done_count st + 1
              /\ done_count st <= done_count st1).
    { destruct Hcase as [(_ & -> & _ & ->) | [(_ & H) | (_ & H)]].
      - cbn. unfold errors_logged, files_completed. cbn. lia.
      - destruct H as (evs0 & el & pp & av & s & rf & -> & -> & Hall & _).
        destruct (file_events_no_error _ _ _ _ Hall) as [H0 _].
        destruct (file_events_history _ _ _ [] _ Hall) as [Hc0 _].
        rewrite errors_logged_app, files_completed_app, H0, Hc0.
        cbn. unfold errors_logged, files_completed. cbn. lia.
      - destruct H as (evs0 & e & -> & Hall & ->).
        destruct (file_events_no_error _ _ _ _ Hall) as [H0 _].
        destruct (file_events_history _ _ _ [] _ Hall) as [Hc0 _].
        rewrite errors_logged_app, files_completed_app, H0, Hc0.
        cbn. unfold errors_logged, files_completed. cbn. lia. }
    destruct Hcount as (Hc1 & Hc2 & Hc3).
    split; [lia|]. split; [lia|]. split; [lia|].
    intros q Hq. rewrite Hfs.
    + destruct (Hq pdf u (or_introl eq_refl) Hname) as [Hq1 Hq2]. now apply Hother.
    + intros pdf' u' Hin. apply Hq. now right.
Qed.

(** A batch run, case by case. *)
Lemma run_ocr_unfold w :
  let files := listed_files env in
  let total := Z.of_nat (length files) in
  let pending := List.filter (fun pdf => negb (has_artifact (fs w) pdf)) files in
  let d0 := Z.of_nat (length (List.filter (has_artifact (fs w)) files)) in
  let pl := Z.of_nat (length pending) in
  d0 + pl = total
  /\ (((is_ok (classification env) = false \/ ~ Forall named files)
       /\ exists e, run_ocr w = (Raise e, w))
      \/ (is_ok (classification env) = true /\ Forall named files /\ pending = []
          /\ exists s,
               run_ocr w
               = (Ok tt, set_status s
                          (add_event (EvStatus s)
                             (add_event (EvLog LogNothing)
                                (add_event (EvLog (LogTotal total total 0)) w)))))
      \/ (is_ok (classification env) = true /\ Forall named files /\ pending <> []
          /\ let w1 := tick_clock
                         (add_event (EvLog LogHybrid)
                            (set_counts (fun _ => {| c_tess := 0; c_vlm := 0; c_txt := 0 |})
                               (set_chandra (fun _ => ChandraState_new)
                                  (add_event (EvLog (LogTotal total d0 pl)) w)))) in
             let t0 := time_time env (clock w) in
             forall st' w2,
               batch_loop pl total t0 1 pending
                 {| done_count := d0; errors := 0; file_times := []; recent_files := [] |}
                 w1 = (Ok st', w2) ->
               run_ocr w
               = (Ok tt,
                  add_event
                    (EvLog (LogEngineStats (c_tess (counts w2)) (c_vlm (counts w2))
                              (c_txt (counts w2))))
                    (add_event
                       (EvLog (LogComplete (done_count st' + pl) (errors st')
                                 (_format_duration (time_time env (clock w2) - t0))))
                       (tick_clock w2))))).
Proof.
  cbv zeta.
  pose proof (List.filter_length (has_artifact (fs w)) (listed_files env)) as Hlen.
  split; [lia|].
  unfold listed_files in *. unfold _run_ocr. rewrite run_bind. cbn [lift].
  destruct (classification env) as [[scanned mixed]|e]; [|left; cbn; eauto].
  rewrite run_bind.
  destruct (partition_files_spec resolve DATA_DIR (scanned ++ mixed) 0 [] w)
    as [[Hn Hp]|[Hn [e Hp]]]; rewrite Hp; [|left; cbn; eauto].
  right. cbn [app]. rewrite Z.add_0_l.
  destruct (List.filter (fun pdf => negb (has_artifact (fs w) pdf)) (scanned ++ mixed))
    as [|pdf rest] eqn:Hpend.
  - left. cbn [length] in Hlen. rewrite Nat.add_0_r in Hlen. rewrite Hlen.
    unfold _log, _save_progress. run_go.
    split; [reflexivity|]. split; [exact Hn|]. split; [reflexivity|].
    eexists. reflexivity.
  - right. split; [reflexivity|]. split; [exact Hn|]. split; [discriminate|].
    intros st' w2 Hloop.
    unfold _log, time_now, get_counts. run_go. cbn [clock add_event set_counts set_chandra].
    rewrite Hloop. run_go. reflexivity.
Qed.

Lemma tally_counts tags :
  forall c,
  c_tess (tally tags c) = c_tess c + Z.of_nat (length (List.filter (tag_eqb tess) tags))
  /\ c_vlm (tally tags c) = c_vlm c + Z.of_nat (length (List.filter (tag_eqb vlm) tags))
  /\ c_txt (tally tags c) = c_txt c + Z.of_nat (length (List.filter (tag_eqb txt) tags)).
Proof.
  induction tags as [|tag tags IH]; intros c; [cbn; lia|].
  cbn [tally fold_left]. fold (tally tags (bump tag c)).
  destruct (IH (bump tag c)) as (H1 & H2 & H3). rewrite H1, H2, H3.
  destruct tag; cbn; lia.
Qed.

(** X16. When the classification cannot be read, or a listed path has no
    output name, the batch run raises before it logs a line, writes the
    status artifact, reads the clock or changes a file of the output
    directory. *)
Theorem run_aborts_without_effect w :
  is_ok (classification env) = false
  \/ (exists pdf, In pdf (listed_files env) /\ is_ok (to_output_name pdf) = false) ->
  exists e, run_ocr w = (Raise e, w).
Proof.
  intros Hbad.
  destruct (run_ocr_unfold w) as (_ & [(_ & H) | [(Hc & Hn & _) | (Hc & Hn & _)]]);
    [exact H | exfalso..];
    (destruct Hbad as [Hbad | (pdf & Hin & Hbad)]; [congruence|];
     eapply List.Forall_forall in Hn; [|exact Hin]; cbv beta in Hn; congruence).
Qed.

(** X17. A batch run leaves alone every file of the output directory that
    is neither the artifact nor the temporary file of a listed file. *)
Theorem run_touches_only_listed_files w q :
  (forall pdf u, In pdf (listed_files env) -> to_output_name pdf = Ok u ->
                 q <> md_name u /\ q <> tmp_name u) ->
  fs (snd (run_ocr w)) !! q = fs w !! q.
Proof.
  intros Hq.
  destruct (run_ocr_unfold w)
    as (_ & [(_ & e & ->) | [(_ & _ & _ & s & ->) | (_ & Hn & _ & Hrun)]]);
    [reflexivity | reflexivity |].
  cbv zeta in Hrun.
  match type of Hrun with forall st' w2, batch_loop ?a ?b ?c ?i ?p ?st ?w1 = _ -> _ =>
    destruct (batch_loop_totals a b c p i st w1) as (st' & w2 & evs & Hloop & _ & _ & _ & _ & Hfs)
  end.
  { apply List.Forall_forall. intros pdf Hin. apply List.filter_In in Hin.
    eapply List.Forall_forall in Hn; [exact Hn | tauto]. }
  rewrite (Hrun st' w2 Hloop). cbn [snd fs add_event tick_clock].
  rewrite Hfs; [reflexivity|].
  intros pdf u Hin. apply Hq. apply List.filter_In in Hin. tauto.
Qed.

(** The events of a batch run that reached the second loop. *)
Lemma run_ocr_loop_events w :
  let files := listed_files env in
  let total := Z.of_nat (length files) in
  let pending := List.filter (fun pdf => negb (has_artifact (fs w) pdf)) files in
  let pl := Z.of_nat (length pending) in
  (exists evs, trace (snd (run_ocr w)) = trace w ++ evs
     /\ (evs = [] \/ exists s, evs = [EvLog (LogTotal total total 0); EvLog LogNothing;
                                       EvStatus s]))
  \/ (exists d0 evs st' (w2 : @World Image Obj) t,
        d0 + pl = total
        /\ trace (snd (run_ocr w))
           = trace w ++ ([EvLog (LogTotal total d0 pl); EvLog LogHybrid] ++ evs
                         ++ [EvLog (LogComplete (done_count st' + pl) (errors st') t)])
                     ++ [EvLog (LogEngineStats (c_tess (counts w2)) (c_vlm (counts w2))
                                  (c_txt (counts w2)))]
        /\ errors st' = errors_logged evs
        /\ done_count st' + Z.of_nat (files_completed evs) + errors_logged evs = d0 + pl
        /\ d0 <= done_count st'
        /\ counts w2 = tally (page_tags evs) {| c_tess := 0; c_vlm := 0; c_txt := 0 |}).
Proof.
  cbv zeta.
  destruct (run_ocr_unfold w)
    as (Htot & [(_ & e & ->) | [(_ & _ & _ & s & ->) | (_ & Hn & _ & Hrun)]]).
  - left. exists []. rewrite app_nil_r. auto.
  - left. eexists. split; [|right; exists s; reflexivity].
    cbn [snd trace set_status add_event]. now rewrite <- !app_assoc.
  - right. cbv zeta in Hrun.
    match type of Hrun with forall st' w2, batch_loop ?a ?b ?c ?i ?p ?st ?w1 = _ -> _ =>
      destruct (batch_loop_totals a b c p i st w1)
        as (st' & w2 & evs & Hloop & Ht & He & Hd & Hmono & _);
      [| pose proof (batch_loop_tally (trace w1) (counts w1) a b c p i st w1) as Htal ]
    end.
    { apply List.Forall_forall. intros pdf Hin. apply List.filter_In in Hin.
      eapply List.Forall_forall in Hn; [exact Hn | tauto]. }
    rewrite Hloop in Htal. cbn [snd] in Htal.
    destruct Htal as (evs' & Ht' & Hc).
    { exists []. rewrite app_nil_r. auto. }
    rewrite Ht in Ht'. apply app_inv_head in Ht'. subst evs'.
    rewrite app_nil_r in Hc.
    rewrite (Hrun st' w2 Hloop). cbn [snd trace add_event tick_clock].
    eexists _, evs, st', w2, _. split; [exact Htot|]. split.
    { rewrite Ht. cbn [trace add_event tick_clock set_counts set_chandra].
      rewrite <- !app_assoc. reflexivity. }
    cbn [errors done_count] in *. split; [lia|]. split; [lia|]. split; [lia|].
    exact Hc.
Qed.

(** The engine statistics are the numbers of page lines logged with each
    tag, as long as nothing fails between the counting of a page and its
    line: the writes to the open temporary file do not fail here. *)
Lemma engine_stats_count_page_lines w evs n_tess n_vlm n_txt :
  trace (snd (run_ocr w))
  = trace w ++ evs ++ [EvLog (LogEngineStats n_tess n_vlm n_txt)] ->
  n_tess = pages_tagged tess evs /\ n_vlm = pages_tagged vlm evs
  /\ n_txt = pages_tagged txt evs.
Proof.
  intros Htrace.
  destruct (run_ocr_loop_events w)
    as [(evs0 & Ht & [-> | (s & ->)]) | (d0 & evs0 & st' & w2 & t & _ & Ht & _ & _ & _ & Hc)];
    rewrite Ht in Htrace; apply app_inv_head in Htrace.
  - destruct evs; discriminate.
  - change [EvLog (LogTotal (Z.of_nat (length (listed_files env)))
                     (Z.of_nat (length (listed_files env))) 0);
            EvLog LogNothing; EvStatus s]
      with ([EvLog (LogTotal (Z.of_nat (length (listed_files env)))
                      (Z.of_nat (length (listed_files env))) 0);
             EvLog LogNothing] ++ [@EvStatus Image s]) in Htrace.
    apply app_inj_tail in Htrace. destruct Htrace as [_ Habs]. discriminate.
  - apply app_inj_tail in Htrace. destruct Htrace as [<- [= <- <- <-]].
    unfold pages_tagged. rewrite !page_tags_app. cbn [page_tags app].
    rewrite app_nil_r.
    destruct (tally_counts (page_tags evs0) {| c_tess := 0; c_vlm := 0; c_txt := 0 |})
      as (H1 & H2 & H3).
    rewrite Hc, H1, H2, H3. cbn. auto.
Qed.

(** X14. When a batch run ends without an error, the engine statistics
    it logs last are the numbers of page lines that it has logged with each
    tag. A page is counted before its text is written and its line logged;
    a failure in between is an error of the file. *)
Theorem engine_stats_match_page_lines w evs n_done t n_tess n_vlm n_txt :
  trace (snd (run_ocr w))
  = trace w ++ evs ++ [EvLog (LogComplete n_done 0 t);
                       EvLog (LogEngineStats n_tess n_vlm n_txt)] ->
  n_tess = pages_tagged tess evs /\ n_vlm = pages_tagged vlm evs
  /\ n_txt = pages_tagged txt evs.
Proof.
  intros Htrace.
  destruct (engine_stats_count_page_lines w (evs ++ [EvLog (LogComplete n_done 0 t)])
              n_tess n_vlm n_txt) as (H1 & H2 & H3).
  { rewrite Htrace, <- !app_assoc. reflexivity. }
  unfold pages_tagged in *. rewrite page_tags_app in H1, H2, H3.
  cbn [page_tags app] in H1, H2, H3. rewrite app_nil_r in H1, H2, H3. auto.
Qed.

(** X15. The summary line of a batch run reports as errors the number of
    error lines, and as done every listed file, the failed ones included,
    plus the pending files that were skipped in the second loop. *)
Theorem summary_counts_every_pending_file w evs n_done n_errors t n_tess n_vlm n_txt :
  trace (snd (run_ocr w))
  = trace w ++ evs ++ [EvLog (LogComplete n_done n_errors t);
                       EvLog (LogEngineStats n_tess n_vlm n_txt)] ->
  let total := Z.of_nat (length (listed_files env)) in
  let pending :=
    List.filter (fun pdf => negb (has_artifact (fs w) pdf)) (listed_files env) in
  n_errors = errors_logged evs
  /\ n_done = total + Z.of_nat (length pending) - Z.of_nat (files_completed evs)
              - errors_logged evs
  /\ total <= n_done.
Proof.
  intros Htrace total pending.
  destruct (run_ocr_loop_events w)
    as [(evs0 & Ht & [-> | (s & ->)])
       | (d0 & evs0 & st' & w2 & t' & Htot & Ht & He & Hd & Hmono & _)];
    rewrite Ht in Htrace; apply app_inv_head in Htrace.
  - destruct evs; discriminate.
  - replace (evs ++ [EvLog (LogComplete n_done n_errors t);
                     EvLog (LogEngineStats n_tess n_vlm n_txt)])
      with ((evs ++ [EvLog (LogComplete n_done n_errors t)])
            ++ [@EvLog Image (LogEngineStats n_tess n_vlm n_txt)]) in Htrace
      by (now rewrite <- app_assoc).
    change [EvLog (LogTotal (Z.of_nat (length (listed_files env)))
                     (Z.of_nat (length (listed_files env))) 0);
            EvLog LogNothing; EvStatus s]
      with ([EvLog (LogTotal (Z.of_nat (length (listed_files env)))
                      (Z.of_nat (length (listed_files env))) 0);
             EvLog LogNothing] ++ [@EvStatus Image s]) in Htrace.
    apply app_inj_tail in Htrace. destruct Htrace as [_ Habs]. discriminate.
  - replace (evs ++ [EvLog (LogComplete n_done n_errors t);
                     EvLog (LogEngineStats n_tess n_vlm n_txt)])
      with ((evs ++ [EvLog (LogComplete n_done n_errors t)])
            ++ [@EvLog Image (LogEngineStats n_tess n_vlm n_txt)]) in Htrace
      by (now rewrite <- app_assoc).
    apply app_inj_tail in Htrace. destruct Htrace as [Htrace _].
    rewrite app_assoc in Htrace.
    apply app_inj_tail in Htrace. destruct Htrace as [<- [= <- <- _]].
    unfold errors_logged, files_completed in *.
    cbn [app List.filter is_error_log is_done_log].
    subst total pending. cbv zeta in Htot. lia.
Qed.

(** ** One file, from opening to closing *)

Lemma file_cleanup_infile unique_name display_name done_count idx total errors
    recent_files (doc : @Doc Image) e t0 :
  preserves
    (since (Obj := Obj) t0
       (Forall (in_file_event (Image := Image) unique_name display_name done_count idx
                  total errors recent_files (num_pages doc))))
    (file_cleanup unique_name e).
Proof.
  unfold_helpers.
  repeat (pres_step; try silent;
          try (apply infile_emit; [cbn; auto; fail | assumption])).
Qed.

(** Once the document is open, the events of the file processor lie
    between the opening and the closing of the document. *)
Lemma ocr_one_file_infile pdf unique_name doc done_count idx pending_len total errors avg
    pipeline_start recent_files w :
  to_output_name pdf = Ok unique_name ->
  pdf_document env pdf = Ok doc ->
  exists evs,
    trace (snd (ocr_one_file pdf done_count idx pending_len total errors avg
                  pipeline_start recent_files w))
    = trace w ++ EvOpenDoc pdf :: evs ++ [EvCloseDoc]
    /\ Forall (in_file_event unique_name (display_name_of pdf) done_count idx total
                 errors recent_files (num_pages doc)) evs.
Proof.
  intros Hname Hdoc.
  rewrite (ocr_one_file_run _ _ _ _ _ pdf unique_name doc) by assumption.
  match goal with |- context [file_body ?a ?b ?c ?d ?e ?f ?g ?h ?i ?j ?k ?l ?m ?o ?r ?w1] =>
    pose proof (file_body_infile d e f g h i j k l m o r (trace w1) w1
                  (since_start _ _ (List.Forall_nil _))) as Hbody;
    destruct (file_body a b c d e f g h i j k l m o r w1) as [[n'|e'] w2]
  end; cbn [fst snd] in *.
  - destruct Hbody as (evs & Ht & Hall). exists evs. split; [|exact Hall].
    cbn [trace add_event tick_clock] in *. rewrite Ht, <- !app_assoc. reflexivity.
  - apply (file_cleanup_infile unique_name _ _ _ _ _ _ _ e') in Hbody.
    destruct Hbody as (evs & Ht & Hall). exists evs. split; [|exact Hall].
    cbn [trace add_event tick_clock] in *. rewrite Ht, <- !app_assoc. reflexivity.
Qed.

(** X11. A document that was opened is closed once, by the last action of
    the file processor, whether it returns or raises; nothing is closed
    when the document could not be opened. *)
Theorem document_closed_once pdf unique_name done_count idx pending_len total errors avg
    pipeline_start recent_files w :
  to_output_name pdf = Ok unique_name ->
  let r := ocr_one_file pdf done_count idx pending_len total errors avg pipeline_start
             recent_files w in
  match pdf_document env pdf with
  | Ok _ =>
      exists evs,
        trace (snd r) = trace w ++ EvOpenDoc pdf :: evs ++ [EvCloseDoc]
        /\ Forall (fun e => is_doc_event e = false) evs
  | Raise e =>
      fst r = Raise e /\ trace (snd r) = trace w ++ [EvOpenDoc pdf]
  end.
Proof.
  intros Hname r. subst r. destruct (pdf_document env pdf) as [doc|e] eqn:Hdoc.
  - destruct (ocr_one_file_infile pdf unique_name doc done_count idx pending_len total
                errors avg pipeline_start recent_files w Hname Hdoc) as (evs & Ht & Hall).
    exists evs. split; [exact Ht|]. eapply List.Forall_impl; [|exact Hall].
    intros ev Hev. destruct ev as [[]| | | | | | | | | | | | | | |];
      try reflexivity; destruct Hev.
  - unfold _ocr_one_file. rewrite Hname, Hdoc. unfold time_now. run_go.
    split; reflexivity.
Qed.

(** X12. Every snapshot written while a file is processed reports the
    counters passed to the file processor, the file's display name, and a
    current page between 1 and the number of pages. *)
Theorem snapshots_of_file_in_progress pdf unique_name doc done_count idx pending_len total
    errors avg pipeline_start recent_files w evs :
  to_output_name pdf = Ok unique_name ->
  pdf_document env pdf = Ok doc ->
  trace (snd (ocr_one_file pdf done_count idx pending_len total errors avg
                pipeline_start recent_files w)) = trace w ++ evs ->
  Forall (fun e =>
            match e with
            | EvStatus s =>
                sn_done s = done_count + idx - 1 /\ sn_total s = total
                /\ sn_errors s = errors
                /\ sn_current_file s = display_name_of pdf
                /\ exists i, sn_current_page s = PageOf i (Z.of_nat (num_pages doc))
                             /\ 1 <= i <= Z.of_nat (num_pages doc)
            | _ => True
            end) evs.
Proof.
  intros Hname Hdoc Htrace.
  destruct (ocr_one_file_infile pdf unique_name doc done_count idx pending_len total
              errors avg pipeline_start recent_files w Hname Hdoc) as (evs0 & Ht & Hall).
  rewrite Ht in Htrace. apply app_inv_head in Htrace. subst evs.
  constructor; [exact Logic.I|]. apply Forall_app. split; [|repeat constructor].
  eapply List.Forall_impl; [|exact Hall].
  intros e He. destruct e; try exact Logic.I. cbn in He.
  destruct He as (H1 & H2 & H3 & H4 & _ & _ & H5). auto.
Qed.

(** X9. From a state that is not marked loaded, [_load_chandra] tries one
    load. When it returns, the state holds the model and the processor of
    this load and the prompt made for them, and is marked loaded; when it
    raises, the state is still not marked. *)
Theorem load_chandra_outcome w :
  loaded (chandra w) = false ->
  let r := load_chandra w in
  loads (snd r) = S (loads w)
  /\ match fst r with
     | Ok _ =>
         exists mdl prc prompt,
           mlx_load env (loads w) = Ok (mdl, prc)
           /\ mlx_chat_template env prc = Ok prompt
           /\ chandra (snd r)
              = {| model := Some mdl; processor := Some prc;
                   formatted_prompt := prompt; loaded := true |}
     | Raise _ => loaded (chandra (snd r)) = false
     end.
Proof.
  intros Hl r. subst r.
  unfold _load_chandra, get_chandra, mlx_load_call, _log, time_now. run_go.
  rewrite Hl. run_go. cbn [loads add_event tick_clock].
  destruct (mlx_load env (loads w)) as [[mdl prc]|e] eqn:Hload; run_go;
    [|split; [reflexivity | exact Hl]].
  destruct (mlx_chat_template env prc) as [prompt|e] eqn:Htpl; run_go.
  - split; [reflexivity|]. exists mdl, prc, prompt.
    split; [reflexivity|]. split; [exact Htpl | reflexivity].
  - split; [reflexivity|]. cbn. exact Hl.
Qed.

End EngineSteps.

(** ** The state of the fallback engine *)

(** Code that keeps an invariant on the fallback state: only changes of
    [chandra] matter, which [tac] handles. *)
Ltac pres_ready tac :=
  unfold_helpers;
  repeat (pres_step;
          try (unfold chandra_ready in *;
               cbn [chandra add_event tick_clock tick_loads set_status set_fs
                    set_counts] in *; assumption);
          try tac).

Section Ready.

Variable isalpha isspace : pychar -> bool.
Variable resolve : Pathlib.Path -> Res (list pystr).
Variable DATA_DIR : list pystr.
Context {Image Obj : Type}.
Variable env : @Env Image Obj.
Local Abbreviation Rdy := (chandra_ready (Image := Image) (Obj := Obj)).

Lemma load_chandra_ready w :
  Rdy w ->
  match _load_chandra env w with
  | (Ok _, w') => loaded (chandra w') = true /\ Rdy w'
  | (Raise _, w') => Rdy w'
  end.
Proof.
  intros Hw. unfold _load_chandra, get_chandra, mlx_load_call, _log, time_now. run_go.
  destruct (loaded (chandra w)) eqn:Hl; [cbn; auto|]. run_go.
  cbn [loads add_event tick_clock].
  destruct (mlx_load env (loads w)) as [[mdl prc]|e]; run_go.
  - destruct (mlx_chat_template env prc) as [prompt|e]; run_go;
      unfold chandra_ready; cbn; eauto.
  - unfold chandra_ready in *. cbn. exact Hw.
Qed.

Lemma load_chandra_pres : preserves Rdy (_load_chandra env).
Proof.
  intros w Hw. pose proof (load_chandra_ready w Hw) as H.
  destruct (_load_chandra env w) as [[[]|e] w']; cbn [snd]; tauto.
Qed.

Lemma render_page_pres doc p : preserves Rdy (_render_page isalpha isspace doc p).
Proof. unfold _render_page. pres_ready idtac. Qed.

Lemma submit_pres doc p : preserves Rdy (submit isalpha isspace env doc p).
Proof. unfold submit. pres_ready ltac:(apply render_page_pres). Qed.

Lemma future_result_pres f : preserves Rdy (future_result isalpha isspace f).
Proof. destruct f; [apply preserves_lift | apply render_page_pres]. Qed.

Lemma ocr_page_pres u : preserves Rdy (ocr_page isalpha env u).
Proof. unfold ocr_page, ocr_image. pres_ready ltac:(apply load_chandra_pres). Qed.

Lemma page_loop_pres doc tmp_path display_name done_count idx total errors
    file_start avg pipeline_start recent_files remaining :
  forall p_idx f,
  preserves Rdy
    (page_loop isalpha isspace env doc tmp_path display_name done_count idx total errors
       file_start avg pipeline_start recent_files remaining p_idx f).
Proof.
  induction remaining as [|k IH]; intros p_idx f; cbn [page_loop].
  - apply preserves_ret.
  - pres_ready ltac:(first [ apply future_result_pres | apply submit_pres
                           | apply ocr_page_pres | apply IH ]).
Qed.

Lemma ocr_one_file_pres pdf done_count idx pending_len total errors avg pipeline_start
    recent_files :
  preserves Rdy
    (_ocr_one_file isalpha isspace resolve DATA_DIR env pdf done_count idx pending_len total
       errors avg pipeline_start recent_files).
Proof.
  unfold _ocr_one_file, file_body.
  pres_ready ltac:(first [apply submit_pres | apply page_loop_pres]).
Qed.

Lemma batch_loop_pres pending_len total pipeline_start pending :
  forall i st,
  preserves Rdy
    (batch_loop isalpha isspace resolve DATA_DIR env pending_len total pipeline_start
       i pending st).
Proof.
  induction pending as [|pdf rest IH]; intros i st; cbn [batch_loop];
    [apply preserves_ret|].
  apply preserves_bind; [|intros st'; apply IH].
  unfold batch_step. pres_ready ltac:(apply ocr_one_file_pres).
Qed.

(** *** Running with another [generate] *)

Lemma same_refl {A} (m : @M Image Obj A) : same_run m m.
Proof. intros w _. reflexivity. Qed.

Lemma same_bind {A B} (m1 m2 : @M Image Obj A) (k1 k2 : A -> @M Image Obj B) :
  same_run m1 m2 -> preserves Rdy m2 -> (forall a, same_run (k1 a) (k2 a)) ->
  same_run (m1 ≫= k1) (m2 ≫= k2).
Proof.
  intros Hm Hp Hk w Hw. rewrite !run_bind, (Hm w Hw).
  specialize (Hp w Hw). destruct (m2 w) as [[a|e] w1]; [apply Hk, Hp | reflexivity].
Qed.

Lemma run_bind_eq {A B} (m : @M Image Obj A) (k1 k2 : A -> @M Image Obj B) w :
  (forall a w', m w = (Ok a, w') -> k1 a w' = k2 a w') -> (m ≫= k1) w = (m ≫= k2) w.
Proof. intros H. rewrite !run_bind. destruct (m w) as [[a|e] w']; auto. Qed.

Lemma same_try_except {A} (b1 b2 : @M Image Obj A) h1 h2 :
  same_run b1 b2 -> preserves Rdy b2 -> (forall e, same_run (h1 e) (h2 e)) ->
  same_run (try_except b1 h1) (try_except b2 h2).
Proof.
  intros Hb Hp Hh w Hw. unfold try_except. rewrite (Hb w Hw).
  specialize (Hp w Hw). destruct (b2 w) as [[a|e] w1]; [reflexivity | apply Hh, Hp].
Qed.

Lemma same_try_finally {A} (b1 b2 : @M Image Obj A) final :
  same_run b1 b2 -> same_run (try_finally b1 final) (try_finally b2 final).
Proof. intros Hb w Hw. unfold try_finally. now rewrite (Hb w Hw). Qed.

Section Generate.

Variable generate : option Obj -> option Obj -> pystr -> Image -> Res pystr.
Hypothesis generate_loaded :
  forall mdl prc prompt image,
    generate (Some mdl) (Some prc) prompt image
    = mlx_generate env (Some mdl) (Some prc) prompt image.
Local Abbreviation env' := (with_generate env generate).

Lemma ocr_page_same u : same_run (ocr_page isalpha env' u) (ocr_page isalpha env u).
Proof.
  intros w Hw. destruct u as [[image|] native_text]; [|reflexivity].
  unfold ocr_page, ocr_image, _tesseract_ocr. run_go.
  cbn [image_to_string with_generate].
  destruct (image_to_string env image) as [text|e]; [|reflexivity].
  destruct (_tesseract_quality_ok isalpha text); [reflexivity|].
  run_go. change (_load_chandra env') with (_load_chandra env).
  match goal with |- context [_load_chandra env ?w1] =>
    assert (Hw1 : Rdy w1) by exact Hw;
    pose proof (load_chandra_ready w1 Hw1) as Hl;
    destruct (_load_chandra env w1) as [[[]|e] w2]
  end; [|reflexivity].
  destruct Hl as [Hl Hr]. destruct (Hr Hl) as [[mdl Hm] [prc Hp]].
  unfold get_chandra, _chandra_ocr. run_go. cbn [mlx_generate with_generate].
  rewrite Hm, Hp, generate_loaded. reflexivity.
Qed.

Lemma time_now_same : same_run (time_now env') (time_now env).
Proof. intros w _. reflexivity. Qed.

Lemma submit_same doc p :
  same_run (submit isalpha isspace env' doc p) (submit isalpha isspace env doc p).
Proof. intros w _. reflexivity. Qed.

Ltac ready_lemmas :=
  first [ apply future_result_pres | apply submit_pres | apply ocr_page_pres
        | apply page_loop_pres | apply ocr_one_file_pres ].

Ltac ready := first [ ready_lemmas | pres_ready ready_lemmas ].

(** Two sequences run alike when their commands do, one by one; [tac]
    deals with the commands that call [generate]. *)
Ltac same tac :=
  repeat first
    [ lazymatch goal with
      | |- same_run ?m1 ?m2 => constr_eq m1 m2; apply same_refl
      end
    | apply time_now_same
    | apply submit_same
    | tac
    | lazymatch goal with
      | |- same_run (_ ≫= _) (_ ≫= _) => apply same_bind; [| ready | intros ? ]
      | |- same_run (if ?b then _ else _) (if ?b then _ else _) => destruct b
      end ].

Lemma page_loop_same doc tmp_path display_name done_count idx total errors
    file_start avg pipeline_start recent_files remaining :
  forall p_idx f,
  same_run
    (page_loop isalpha isspace env' doc tmp_path display_name done_count idx total
       errors file_start avg pipeline_start recent_files remaining p_idx f)
    (page_loop isalpha isspace env doc tmp_path display_name done_count idx total
       errors file_start avg pipeline_start recent_files remaining p_idx f).
Proof.
  induction remaining as [|k IH]; intros p_idx f; cbn [page_loop];
    [apply same_refl|].
  same ltac:(first [apply ocr_page_same | apply IH]).
  match goal with a : (pystr * Tag)%type |- _ => destruct a as [md tag] end.
  same ltac:(first [apply ocr_page_same | apply IH]).
Qed.

Lemma ocr_one_file_same pdf done_count idx pending_len total errors avg pipeline_start
    recent_files :
  same_run
    (_ocr_one_file isalpha isspace resolve DATA_DIR env' pdf done_count idx pending_len
       total errors avg pipeline_start recent_files)
    (_ocr_one_file isalpha isspace resolve DATA_DIR env pdf done_count idx pending_len
       total errors avg pipeline_start recent_files).
Proof.
  unfold _ocr_one_file. cbn [pdf_document with_generate].
  same fail.
  apply same_try_finally. apply same_try_except; [| | intros; apply same_refl].
  - unfold file_body. same ltac:(apply page_loop_same).
  - unfold file_body. pres_ready ready_lemmas.
Qed.

Lemma batch_loop_same pending_len total pipeline_start pending :
  forall i st,
  same_run
    (batch_loop isalpha isspace resolve DATA_DIR env' pending_len total pipeline_start
       i pending st)
    (batch_loop isalpha isspace resolve DATA_DIR env pending_len total pipeline_start
       i pending st).
Proof.
  induction pending as [|pdf rest IH]; intros i st; cbn [batch_loop];
    [apply same_refl|].
  apply same_bind; [| | intros st'; apply IH].
  - unfold batch_step. same fail.
    apply same_try_except.
    + same ltac:(apply ocr_one_file_same).
    + pres_ready ready_lemmas.
    + intros e. same fail.
  - unfold batch_step. pres_ready ready_lemmas.
Qed.

(** X10. A batch run never runs the fallback engine without a model and a
    processor: the run is the same whatever [generate] would do when it is
    given none. *)
Theorem generate_needs_loaded_model w :
  _run_ocr isalpha isspace resolve DATA_DIR env' w = _run_ocr isalpha isspace resolve DATA_DIR env w.
Proof.
  unfold _run_ocr. rewrite !run_bind. cbn [lift classification with_generate].
  destruct (classification env) as [[scanned mixed]|e]; [|reflexivity].
  rewrite !run_bind.
  destruct (partition_files resolve DATA_DIR (scanned ++ mixed) 0 [] w)
    as [[[done0 pending]|e] w1]; [|reflexivity].
  destruct pending as [|pdf rest]; [reflexivity|].
  apply run_bind_eq. intros [] w2 _.
  apply run_bind_eq. intros [] w3 [= <-].
  match goal with |- ?m1 ?w2 = ?m2 ?w2 =>
    assert (H : same_run m1 m2); [| apply H; intros Hl; discriminate Hl]
  end.
  same ltac:(apply batch_loop_same).
  apply batch_loop_pres.
Qed.

End Generate.
End Ready.

(** ** Examples *)

Lemma get_arg_value_witness :
  _get_arg Examples.argv (str "--data-dir") (str "data") = Ok (str "docs").
Proof.
  apply (get_arg_value Examples.argv (str "--data-dir") (str "data")
           [str "batch-ocr.py"] (str "docs")
           [str "--data-dir"; str "other"; str "--log-file"]).
  - reflexivity.
  - intros [H|[]]. vm_compute in H. discriminate H.
Defined.

Lemma get_arg_default_witness :
  _get_arg Examples.argv (str "--log-file") (str "output/ocr-log.txt")
  = Ok (str "output/ocr-log.txt").
Proof.
  apply (get_arg_default Examples.argv (str "--log-file") (str "output/ocr-log.txt")).
  right.
  exists [str "batch-ocr.py"; str "--data-dir"; str "docs"; str "--data-dir"; str "other"].
  split; [reflexivity|].
  intros [H|[H|[H|[H|[H|[]]]]]]; vm_compute in H; discriminate H.
Defined.

Lemma output_name_has_no_slash_witness : ~ In SLASH (str "a--good").
Proof.
  apply (output_name_has_no_slash Scenario.resolve Scenario.DATA_DIR Scenario.good_pdf).
  reflexivity.
Defined.

Lemma output_name_raises_only_for_root_witness :
  _to_output_name Scenario.resolve Scenario.DATA_DIR (str "data/.") = Raise ValueError.
Proof.
  apply (output_name_raises_only_for_root Scenario.resolve Scenario.DATA_DIR (str "data/.")).
  - intros ps H. vm_compute in H. injection H as <-.
    repeat constructor; discriminate.
  - left. split; reflexivity.
Defined.

Lemma format_duration_floor_witness :
  (inject_Z (3600 * 1 + 60 * 2) <= 7451 # 2 < inject_Z (3600 * 1 + 60 * (2 + 1)))%Q.
Proof.
  apply (format_duration_floor (7451 # 2)). split; [unfold Qle | unfold Qlt]; cbn; lia.
Defined.

Lemma format_duration_fields_witness : 1 <= 1 /\ 0 <= 2 < 60.
Proof.
  apply (format_duration_fields (7451 # 2)). split; [unfold Qle | unfold Qlt]; cbn; lia.
Defined.

Lemma snapshot_pct_bounds_witness :
  (0 <= sn_pct (snapshot_of Examples.progress_1_of_3) <= 100)%Q.
Proof. apply (snapshot_pct_bounds Examples.progress_1_of_3). cbn. lia. Defined.

Lemma crop_margins_keeps_content_witness :
  exists x0 y0 x1 y1,
    _crop_margins Examples.size Examples.content_bbox Examples.crop (100, 120)
    = Examples.crop (100, 120) (x0, y0, x1, y1)
    /\ 0 <= x0 <= 30 /\ 30 - x0 <= 20 /\ 90 <= x1 <= 100 /\ x1 - 90 <= 20
    /\ 0 <= y0 <= 5 /\ 5 - y0 <= 20 /\ 100 <= y1 <= 120 /\ y1 - 100 <= 20.
Proof.
  apply (crop_margins_keeps_content Examples.size Examples.content_bbox Examples.crop
           (100, 120) 30 5 90 100); first [reflexivity | cbn; lia].
Defined.

Lemma load_chandra_outcome_witness :
  loads (snd (_load_chandra Scenario.env Scenario.w0)) = 1%nat.
Proof. exact (proj1 (load_chandra_outcome Scenario.env Scenario.w0 eq_refl)). Defined.

Lemma generate_needs_loaded_model_witness :
  _run_ocr Scenario.isalpha Scenario.isspace Scenario.resolve Scenario.DATA_DIR
    (with_generate Scenario.env Examples.strict_generate) Scenario.w0
  = _run_ocr Scenario.isalpha Scenario.isspace Scenario.resolve Scenario.DATA_DIR
      Scenario.env Scenario.w0.
Proof.
  apply generate_needs_loaded_model. intros mdl prc prompt image. reflexivity.
Defined.

Lemma document_closed_once_witness :
  exists evs,
    trace (snd Examples.good_file)
    = trace Scenario.w0 ++ EvOpenDoc Scenario.good_pdf :: evs ++ [EvCloseDoc]
    /\ Forall (fun e => is_doc_event e = false) evs.
Proof.
  exact (document_closed_once Scenario.isalpha Scenario.isspace Scenario.resolve
           Scenario.DATA_DIR Scenario.env Scenario.good_pdf (str "a--good")
           0 1 1 1 0 60 0 [] Scenario.w0 eq_refl).
Defined.

Lemma snapshots_of_file_in_progress_witness :
  Forall (fun e =>
            match e with
            | EvStatus s =>
                sn_done s = 0 + 1 - 1 /\ sn_total s = 1 /\ sn_errors s = 0
                /\ sn_current_file s = display_name_of Scenario.good_pdf
                /\ exists i, sn_current_page s = PageOf i 3 /\ 1 <= i <= 3
            | _ => True
            end) (trace (snd Examples.good_file)).
Proof.
  exact (snapshots_of_file_in_progress Scenario.isalpha Scenario.isspace Scenario.resolve
           Scenario.DATA_DIR Scenario.env Scenario.good_pdf (str "a--good")
           Scenario.doc3 0 1 1 1 0 60 0 [] Scenario.w0 (trace (snd Examples.good_file))
           eq_refl eq_refl eq_refl).
Defined.

Lemma file_schedule_witness :
  exists evs tags,
    trace (snd Examples.good_file) = trace Scenario.w0 ++ evs
    /\ length tags = 3%nat
    /\ schedule evs = SSubmit 0 :: loop_schedule 3 0 tags ++ [SGc].
Proof.
  apply (file_schedule Scenario.isalpha Scenario.isspace Scenario.resolve Scenario.DATA_DIR
           Scenario.env Scenario.good_pdf (str "a--good") Scenario.doc3
           0 1 1 1 0 60 0 [] Scenario.w0).
  - reflexivity.
  - reflexivity.
  - vm_compute. reflexivity.
Defined.

Lemma engine_stats_match_page_lines_witness :
  1 = pages_tagged tess
        (removelast (removelast (trace (Scenario.after_run Scenario.env Scenario.w0))))
  /\ 1 = pages_tagged vlm
           (removelast (removelast (trace (Scenario.after_run Scenario.env Scenario.w0))))
  /\ 1 = pages_tagged txt
           (removelast (removelast (trace (Scenario.after_run Scenario.env Scenario.w0)))).
Proof.
  apply (engine_stats_match_page_lines Scenario.isalpha Scenario.isspace Scenario.resolve
           Scenario.DATA_DIR Scenario.env Scenario.w0
           (removelast (removelast (trace (Scenario.after_run Scenario.env Scenario.w0))))
           2 (DurMS 0 20) 1 1 1).
  vm_compute. reflexivity.
Defined.

Lemma summary_counts_every_pending_file_witness :
  0 = errors_logged
        (removelast (removelast (trace (Scenario.after_run Scenario.env Scenario.w0)))).
Proof.
  refine (proj1 (summary_counts_every_pending_file Scenario.isalpha Scenario.isspace
                   Scenario.resolve Scenario.DATA_DIR Scenario.env Scenario.w0
                   (removelast (removelast
                      (trace (Scenario.after_run Scenario.env Scenario.w0))))
                   2 0 (DurMS 0 20) 1 1 1 _)).
  vm_compute. reflexivity.
Defined.

Lemma run_aborts_without_effect_witness :
  exists e,
    _run_ocr Scenario.isalpha Scenario.isspace Scenario.resolve Scenario.DATA_DIR
      Examples.env_root Scenario.w0
    = (Raise e, Scenario.w0).
Proof.
  apply run_aborts_without_effect. right. exists (str "data").
  split; [right; left; reflexivity | vm_compute; reflexivity].
Defined.

Lemma run_touches_only_listed_files_witness :
  fs (snd (_run_ocr Scenario.isalpha Scenario.isspace Scenario.resolve Scenario.DATA_DIR
             Scenario.env Scenario.w_stale))
    !! tmp_name (str "missing")
  = fs Scenario.w_stale !! tmp_name (str "missing").
Proof.
  apply run_touches_only_listed_files.
  intros pdf u [<-|[<-|[]]] Hu; vm_compute in Hu; injection Hu as <-;
    split; intros H; vm_compute in H; discriminate H.
Defined.
